(** * AEC3 echo-canceller state tracking: [aec_state.cc]

    A shallow embedding of [modules/audio_processing/aec3/aec_state.cc]
    and the properties of its five decision sub-trackers, of the reverb
    power combination step and of the [AecState] orchestrator.

    Conventions of the embedding:
    - [size_t] values are integers in [0, 2^64) with the wrap-around of
      unsigned arithmetic written out ([size_t_add], [size_t_mul]);
    - [int] values are integers in [-2^31, 2^31);
    - [float] is IEEE binary32, taken from the Standard Library's
      executable specification [SpecFloat] at precision 24 and maximal
      exponent 128 (round to nearest, ties to even);
    - an access outside a vector, and a failed [RTC_DCHECK], are the
      result [None];
    - the class declarations of [aec_state.h] are not among the sources:
      the data members are those that the member functions use, the
      counters being [size_t] and the delays [int];
    - every class keeps its name as a module, with the record of its data
      members called [t]. *)

From Stdlib Require Import ZArith Bool List Lia SpecFloat.
From stdpp Require Import base option list.

Local Open Scope Z_scope.

(** ** Machine arithmetic *)

Module Cxx.

Definition size_t_modulus : Z := 2 ^ 64.
Definition size_t_wrap (z : Z) : Z := z mod size_t_modulus.
Definition size_t_add (a b : Z) : Z := size_t_wrap (a + b).
Definition size_t_mul (a b : Z) : Z := size_t_wrap (a * b).
Definition is_size_t (z : Z) : Prop := 0 <= z < size_t_modulus.

Definition int_modulus : Z := 2 ^ 32.
(** Conversion of an integer to [int] (two's complement). *)
Definition int_wrap (z : Z) : Z :=
  (z + 2 ^ 31) mod int_modulus - 2 ^ 31.
Definition is_int (z : Z) : Prop := - 2 ^ 31 <= z < 2 ^ 31.

(** The [bool] to integer conversion of [c ? 1 : 0]. *)
Definition b2z (c : bool) : Z := if c then 1 else 0.

End Cxx.

Export Cxx.

(** ** Single-precision floating point *)

Module Float32.

Definition prec : Z := 24.
Definition emax : Z := 128.

Definition float : Type := spec_float.

(** Conversion of an integer to [float]. *)
Definition of_Z (z : Z) : float := binary_normalize prec emax z 0 false.

Definition mul : float -> float -> float := SFmul prec emax.
Definition add : float -> float -> float := SFadd prec emax.
Definition div : float -> float -> float := SFdiv prec emax.
Definition fabsf : float -> float := SFabs.

(** [a < b] and [a > b]; both are false as soon as one side is a NaN. *)
Definition lt (a b : float) : bool := SFltb a b.
Definition gt (a b : float) : bool := SFltb b a.

(** [std::max(a, b)] is [(a < b) ? b : a]. *)
Definition max (a b : float) : float := if lt a b then b else a.

Definition zero : float := S754_zero false.
Definition one : float := of_Z 1.

(** The literals [0.4f] and [0.2f]: the floats nearest to 2/5 and 1/5. *)
Definition lit_0_4 : float := div (of_Z 2) (of_Z 5).
Definition lit_0_2 : float := div (of_Z 1) (of_Z 5).

Definition is_nan (a : float) : bool :=
  match a with S754_nan => true | _ => false end.

(** [a <= b]: the comparison is defined and is not [Gt]. *)
Definition le (a b : float) : Prop :=
  SFcompare a b = Some Lt \/ SFcompare a b = Some Eq.

(** What [n >= 1] one-bit right shifts leave of an exact non-negative
    mantissa [m]: the quotient, the last bit shifted out and whether a
    bit was shifted out before it. *)
Definition shifted (m : Z) (n : Z) : shr_record :=
  {| shr_m := m / 2 ^ n;
     shr_r := Z.odd (m / 2 ^ (n - 1));
     shr_s := negb (m mod 2 ^ (n - 1) =? 0) |}.

(** [m / 2 ^ n] rounded to nearest, ties to even. *)
Definition round_shifted (m n : Z) : Z :=
  let q := m / 2 ^ n in
  if Z.odd (m / 2 ^ (n - 1)) && (negb (m mod 2 ^ (n - 1) =? 0) || Z.odd q)
  then q + 1 else q.

(** The mantissa and the exponent of the float nearest to [z > 0]. *)
Definition nearest (z : Z) : Z * Z :=
  let d := Z.log2 z + 1 in
  if d <=? 24 then (z * 2 ^ (24 - d), d - 24)
  else
    let m := round_shifted z (d - 24) in
    if m <? 2 ^ 24 then (m, d - 24) else (2 ^ 23, d - 24 + 1).

End Float32.

Abbreviation float := Float32.float.

(** ** Constants of [aec3_common.h]

    The header is not part of the sources at hand: its constants are
    parameters of the development.  All of them are [constexpr size_t]
    there; they are taken to be positive and below [2^32], so that no
    product of a constant with a literal of the code wraps around. *)

Class Aec3Common : Type := {
  kNumBlocksPerSecond : Z;
  kBlockSize : Z;
  kFftLengthBy2 : Z;
  kNumBlocksPerSecond_range : 0 < kNumBlocksPerSecond < 2 ^ 32;
  kBlockSize_range : 0 < kBlockSize < 2 ^ 32;
  kFftLengthBy2_range : 0 < kFftLengthBy2 < 2 ^ 32
}.

Definition kFftLengthBy2Plus1 {K : Aec3Common} : Z := kFftLengthBy2 + 1.

(** The values of the constants in WebRTC: 250 blocks of 64 samples per
    second. *)
Definition webrtc_constants : Aec3Common.
Proof. refine (Build_Aec3Common 250 64 64 _ _ _); lia. Defined.

(** ** Configuration and external data *)

(** Modelled from the spec: [EchoCanceller3Config] is declared outside the
    sources at hand; these are the options that [aec_state.cc] reads, with
    the types the spec lists for them (a nested field [a.b] is named
    [a_b]). *)

Record EchoCanceller3Config : Type := {
  filter_conservative_initial_phase : bool;
  filter_initial_state_seconds : float;
  filter_use_linear_filter : bool;
  delay_delay_headroom_samples : Z;
  ep_strength_bounded_erl : bool;
  echo_removal_control_linear_and_stable_echo_path : bool;
  echo_audibility_use_stationarity_properties : bool;
  echo_audibility_use_stationarity_properties_at_init : bool;
  render_levels_active_render_limit : float;
  erle_onset_detection : bool
}.

(** Modelled from the spec: [DelayEstimate], declared outside the sources
    at hand, is a block-delay value (compared by value in [FilterDelay])
    with the estimator's quality tag. *)
Inductive DelayQuality : Type := kCoarse | kRefined.

Record DelayEstimate : Type := {
  quality : DelayQuality;
  delay : Z
}.

(** Modelled from the spec: [SubtractorOutput], declared outside the
    sources at hand, carries per channel the peak absolute residual
    amplitudes of the main and of the shadow filter. *)
Record SubtractorOutput : Type := {
  s_main_max_abs : float;
  s_shadow_max_abs : float
}.

Definition kBlocksSinceConvergencedFilterInit : Z := 10000.
Definition kBlocksSinceConsistentEstimateInit : Z := 10000.

(** ** [AecState::TransparentMode] *)

Module TransparentMode.

Record t : Type := {
  bounded_erl_ : bool;
  linear_and_stable_echo_path_ : bool;
  capture_block_counter_ : Z;
  transparency_activated_ : bool;
  active_blocks_since_sane_filter_ : Z;
  sane_filter_observed_ : bool;
  finite_erl_recently_detected_ : bool;
  non_converged_sequence_size_ : Z;
  diverged_sequence_size_ : Z;
  active_non_converged_sequence_size_ : Z;
  num_converged_blocks_ : Z;
  recent_convergence_during_activity_ : bool;
  strong_not_saturated_render_blocks_ : Z
}.

(** Modelled from the spec: the class declaration, in [aec_state.h], is
    not among the sources; the members that the constructor does not
    initialize start as the spec's state list has them, counters at 0 and
    flags false. *)
Definition init (config : EchoCanceller3Config) : t := {|
  bounded_erl_ := ep_strength_bounded_erl config;
  linear_and_stable_echo_path_ :=
    echo_removal_control_linear_and_stable_echo_path config;
  capture_block_counter_ := 0;
  transparency_activated_ := false;
  active_blocks_since_sane_filter_ := kBlocksSinceConsistentEstimateInit;
  sane_filter_observed_ := false;
  finite_erl_recently_detected_ := false;
  non_converged_sequence_size_ := kBlocksSinceConvergencedFilterInit;
  diverged_sequence_size_ := 0;
  active_non_converged_sequence_size_ := 0;
  num_converged_blocks_ := 0;
  recent_convergence_during_activity_ := false;
  strong_not_saturated_render_blocks_ := 0
|}.

Definition Active (s : t) : bool := transparency_activated_ s.

Definition Reset (s : t) : t := {|
  bounded_erl_ := bounded_erl_ s;
  linear_and_stable_echo_path_ := linear_and_stable_echo_path_ s;
  capture_block_counter_ := capture_block_counter_ s;
  transparency_activated_ := transparency_activated_ s;
  active_blocks_since_sane_filter_ := active_blocks_since_sane_filter_ s;
  sane_filter_observed_ := sane_filter_observed_ s;
  finite_erl_recently_detected_ := finite_erl_recently_detected_ s;
  non_converged_sequence_size_ := kBlocksSinceConvergencedFilterInit;
  diverged_sequence_size_ := 0;
  active_non_converged_sequence_size_ := active_non_converged_sequence_size_ s;
  num_converged_blocks_ := num_converged_blocks_ s;
  recent_convergence_during_activity_ :=
    if linear_and_stable_echo_path_ s then false
    else recent_convergence_during_activity_ s;
  strong_not_saturated_render_blocks_ := 0
|}.

(** The arguments of one call of [Update]. *)
Record args : Type := {
  filter_delay_blocks : Z;
  any_filter_consistent : bool;
  any_filter_converged : bool;
  all_filters_diverged : bool;
  active_render : bool;
  saturated_capture : bool
}.

Section WithConstants.
Context {K : Aec3Common}.

(** The local [sane_filter_recently_seen] of [Update], as a function of
    the members it is computed from. *)
Definition sane_filter_recently_seen
    (sane_filter_observed : bool)
    (capture_block_counter active_blocks_since_sane_filter : Z) : bool :=
  if negb sane_filter_observed
  then capture_block_counter <=? size_t_mul 5 kNumBlocksPerSecond
  else active_blocks_since_sane_filter <=? size_t_mul 30 kNumBlocksPerSecond.

Definition Update (s : t) (a : args) : t :=
  let capture_block_counter := size_t_add (capture_block_counter_ s) 1 in
  let strong_not_saturated_render_blocks :=
    size_t_add (strong_not_saturated_render_blocks_ s)
               (b2z (active_render a && negb (saturated_capture a))) in
  (* Sane-filter tracking. *)
  let sane := any_filter_consistent a && (filter_delay_blocks a <? 5) in
  let sane_filter_observed :=
    if sane then true else sane_filter_observed_ s in
  let active_blocks_since_sane_filter :=
    if sane then 0
    else if active_render a
         then size_t_add (active_blocks_since_sane_filter_ s) 1
         else active_blocks_since_sane_filter_ s in
  let sane_recently :=
    sane_filter_recently_seen sane_filter_observed capture_block_counter
                              active_blocks_since_sane_filter in
  (* Convergence bookkeeping. *)
  let non_converged_1 :=
    if any_filter_converged a then 0
    else size_t_add (non_converged_sequence_size_ s) 1 in
  let active_non_converged :=
    if any_filter_converged a then 0
    else if active_render a
         then size_t_add (active_non_converged_sequence_size_ s) 1
         else active_non_converged_sequence_size_ s in
  let num_converged_blocks :=
    if any_filter_converged a
    then size_t_add (num_converged_blocks_ s) 1
    else if non_converged_1 >? size_t_mul 20 kNumBlocksPerSecond then 0
         else num_converged_blocks_ s in
  let recent_convergence_during_activity :=
    if any_filter_converged a then true
    else if active_render a
            && (active_non_converged >? size_t_mul 60 kNumBlocksPerSecond)
         then false
         else recent_convergence_during_activity_ s in
  (* Divergence bookkeeping. *)
  let diverged_sequence_size :=
    if negb (all_filters_diverged a) then 0
    else size_t_add (diverged_sequence_size_ s) 1 in
  let non_converged_sequence_size :=
    if negb (all_filters_diverged a) then non_converged_1
    else if diverged_sequence_size >=? 60
         then kBlocksSinceConvergencedFilterInit
         else non_converged_1 in
  (* ERL-finiteness bookkeeping. *)
  let finite_erl_1 :=
    if active_non_converged >? size_t_mul 60 kNumBlocksPerSecond
    then false else finite_erl_recently_detected_ s in
  let finite_erl_recently_detected :=
    if num_converged_blocks >? 50 then true else finite_erl_1 in
  (* Final decision. *)
  let transparency_activated :=
    if bounded_erl_ s then false
    else if finite_erl_recently_detected then false
    else if sane_recently && recent_convergence_during_activity then false
    else strong_not_saturated_render_blocks
           >? size_t_mul 6 kNumBlocksPerSecond in
  {| bounded_erl_ := bounded_erl_ s;
     linear_and_stable_echo_path_ := linear_and_stable_echo_path_ s;
     capture_block_counter_ := capture_block_counter;
     transparency_activated_ := transparency_activated;
     active_blocks_since_sane_filter_ := active_blocks_since_sane_filter;
     sane_filter_observed_ := sane_filter_observed;
     finite_erl_recently_detected_ := finite_erl_recently_detected;
     non_converged_sequence_size_ := non_converged_sequence_size;
     diverged_sequence_size_ := diverged_sequence_size;
     active_non_converged_sequence_size_ := active_non_converged;
     num_converged_blocks_ := num_converged_blocks;
     recent_convergence_during_activity_ :=
       recent_convergence_during_activity;
     strong_not_saturated_render_blocks_ :=
       strong_not_saturated_render_blocks |}.

(** A sequence of calls of [Update]. *)
Definition run (s : t) (calls : list args) : t := fold_left Update calls s.

(** [sane_filter_recently_seen] as the members of a state give it. *)
Definition sane_filter_recently_seen_in (s : t) : bool :=
  if negb (sane_filter_observed_ s)
  then capture_block_counter_ s <=? 5 * kNumBlocksPerSecond
  else active_blocks_since_sane_filter_ s <=? 30 * kNumBlocksPerSecond.

(** The priority chain of the final decision, read on a state. *)
Definition decision (s : t) : bool :=
  if bounded_erl_ s then false
  else if finite_erl_recently_detected_ s then false
  else if sane_filter_recently_seen_in s
          && recent_convergence_during_activity_ s then false
  else strong_not_saturated_render_blocks_ s >? 6 * kNumBlocksPerSecond.

End WithConstants.

End TransparentMode.


(** ** [AecState::InitialState] *)

Module InitialState.

Record t : Type := {
  conservative_initial_phase_ : bool;
  initial_state_seconds_ : float;
  initial_state_ : bool;
  strong_not_saturated_render_blocks_ : Z;
  transition_triggered_ : bool
}.

Definition Reset (s : t) : t := {|
  conservative_initial_phase_ := conservative_initial_phase_ s;
  initial_state_seconds_ := initial_state_seconds_ s;
  initial_state_ := true;
  strong_not_saturated_render_blocks_ := 0;
  transition_triggered_ := transition_triggered_ s
|}.

(** Modelled from the spec: the class declaration is not among the
    sources; [transition_triggered_], which [Reset] leaves alone, starts
    false.  The constructor stores the two configuration values and calls
    [Reset]. *)
Definition init (config : EchoCanceller3Config) : t :=
  Reset {|
    conservative_initial_phase_ := filter_conservative_initial_phase config;
    initial_state_seconds_ := filter_initial_state_seconds config;
    initial_state_ := true;
    strong_not_saturated_render_blocks_ := 0;
    transition_triggered_ := false
  |}.

Definition InitialStateActive (s : t) : bool := initial_state_ s.
Definition TransitionTriggered (s : t) : bool := transition_triggered_ s.

Section WithConstants.
Context {K : Aec3Common}.

(** The comparison that decides [initial_state_]: an integer comparison
    in the conservative phase, a [float] comparison otherwise (the counter
    and the constant are both converted to [float]). *)
Definition below_threshold (conservative_initial_phase : bool)
    (initial_state_seconds : float) (counter : Z) : bool :=
  if conservative_initial_phase
  then counter <? size_t_mul 5 kNumBlocksPerSecond
  else Float32.lt (Float32.of_Z counter)
         (Float32.mul initial_state_seconds
                      (Float32.of_Z kNumBlocksPerSecond)).

Definition Update (s : t) (active_render saturated_capture : bool) : t :=
  let strong_not_saturated_render_blocks :=
    size_t_add (strong_not_saturated_render_blocks_ s)
               (b2z (active_render && negb saturated_capture)) in
  (* Flag whether the initial state is still active. *)
  let prev_initial_state := initial_state_ s in
  let initial_state :=
    below_threshold (conservative_initial_phase_ s) (initial_state_seconds_ s)
                    strong_not_saturated_render_blocks in
  (* Flag whether the transition from the initial state has started. *)
  {| conservative_initial_phase_ := conservative_initial_phase_ s;
     initial_state_seconds_ := initial_state_seconds_ s;
     initial_state_ := initial_state;
     strong_not_saturated_render_blocks_ := strong_not_saturated_render_blocks;
     transition_triggered_ := negb initial_state && prev_initial_state |}.

(** A sequence of calls of [Update], each with its two arguments
    [(active_render, saturated_capture)]. *)
Definition run (s : t) (calls : list (bool * bool)) : t :=
  fold_left (fun s c => Update s (fst c) (snd c)) calls s.

End WithConstants.

End InitialState.

(** ** [AecState::FilteringQualityAnalyzer] *)

Module FilteringQualityAnalyzer.

Record t : Type := {
  usable_linear_estimate_ : bool;
  filter_update_blocks_since_reset_ : Z;
  filter_update_blocks_since_start_ : Z;
  convergence_seen_ : bool
}.

(** Modelled from the spec: the class declaration is not among the
    sources; the counters start at 0 and the flags false, the constructor
    having an empty body. *)
Definition init (config : EchoCanceller3Config) : t := {|
  usable_linear_estimate_ := false;
  filter_update_blocks_since_reset_ := 0;
  filter_update_blocks_since_start_ := 0;
  convergence_seen_ := false
|}.

Definition LinearFilterUsable (s : t) : bool := usable_linear_estimate_ s.

Definition Reset (s : t) : t := {|
  usable_linear_estimate_ := false;
  filter_update_blocks_since_reset_ := 0;
  filter_update_blocks_since_start_ := filter_update_blocks_since_start_ s;
  convergence_seen_ := convergence_seen_ s
|}.

Record args : Type := {
  active_render : bool;
  transparent_mode : bool;
  saturated_capture : bool;
  external_delay : option DelayEstimate;
  any_filter_converged : bool
}.

Section WithConstants.
Context {K : Aec3Common}.

(** [count > kNumBlocksPerSecond * factor], a comparison of [float]s. *)
Definition exceeds (count : Z) (factor : float) : bool :=
  Float32.gt (Float32.of_Z count)
             (Float32.mul (Float32.of_Z kNumBlocksPerSecond) factor).

Definition Update (s : t) (a : args) : t :=
  (* Update blocks counter. *)
  let filter_update := active_render a && negb (saturated_capture a) in
  let filter_update_blocks_since_reset :=
    size_t_add (filter_update_blocks_since_reset_ s) (b2z filter_update) in
  let filter_update_blocks_since_start :=
    size_t_add (filter_update_blocks_since_start_ s) (b2z filter_update) in
  (* Store convergence flag when observed. *)
  let convergence_seen := convergence_seen_ s || any_filter_converged a in
  (* Verify requirements for achieving a decent filter. *)
  let sufficient_data_to_converge_at_startup :=
    exceeds filter_update_blocks_since_start Float32.lit_0_4 in
  let sufficient_data_to_converge_at_reset :=
    sufficient_data_to_converge_at_startup
    && exceeds filter_update_blocks_since_reset Float32.lit_0_2 in
  (* The linear filter can only be used it has had time to converge. *)
  let usable_1 :=
    sufficient_data_to_converge_at_startup
    && sufficient_data_to_converge_at_reset in
  (* ... if an external delay or convergence have been identified. *)
  let usable_2 :=
    usable_1 && (bool_decide (is_Some (external_delay a)) || convergence_seen) in
  (* If transparent mode is on, deactivate using the linear filter. *)
  let usable_3 := usable_2 && negb (transparent_mode a) in
  {| usable_linear_estimate_ := usable_3;
     filter_update_blocks_since_reset_ := filter_update_blocks_since_reset;
     filter_update_blocks_since_start_ := filter_update_blocks_since_start;
     convergence_seen_ := convergence_seen |}.

(** The calls an owner can make after construction. *)
Inductive call : Type :=
| CallUpdate (a : args)
| CallReset.

Definition step (s : t) (c : call) : t :=
  match c with
  | CallUpdate a => Update s a
  | CallReset => Reset s
  end.

Definition run (s : t) (calls : list call) : t := fold_left step calls s.

End WithConstants.

End FilteringQualityAnalyzer.

(** ** [AecState::SaturationDetector] *)

Module SaturationDetector.

Record t : Type := { saturated_echo_ : bool }.

(** Modelled from the spec: the class declaration is not among the
    sources; the flag starts false. *)
Definition init : t := {| saturated_echo_ := false |}.

Definition SaturatedEcho (s : t) : bool := saturated_echo_ s.

Definition kSaturationThreshold : float := Float32.of_Z 20000.
Definition kMargin : float := Float32.of_Z 10.

(** The loop over the capture channels of the first branch. *)
Definition any_residual_saturated
    (subtractor_output : list SubtractorOutput) (saturated_echo : bool) : bool :=
  fold_left
    (fun saturated_echo so =>
       saturated_echo
       || (Float32.gt (s_main_max_abs so) kSaturationThreshold
           || Float32.gt (s_shadow_max_abs so) kSaturationThreshold))
    subtractor_output saturated_echo.

(** The two nested loops over the render channels and their samples. *)
Definition max_abs_sample (x : list (list float)) (max_sample : float) : float :=
  fold_left
    (fun max_sample channel =>
       fold_left (fun max_sample sample =>
                    Float32.max max_sample (Float32.fabsf sample))
                 channel max_sample)
    x max_sample.

Definition peak_echo_amplitude (x : list (list float)) (echo_path_gain : float)
  : float :=
  Float32.mul (Float32.mul (max_abs_sample x Float32.zero) echo_path_gain)
              kMargin.

Definition Update (s : t) (x : list (list float))
    (saturated_capture usable_linear_estimate : bool)
    (subtractor_output : list SubtractorOutput) (echo_path_gain : float) : t :=
  let saturated_echo := false in
  if negb saturated_capture then {| saturated_echo_ := saturated_echo |}
  else if usable_linear_estimate
  then {| saturated_echo_ :=
            any_residual_saturated subtractor_output saturated_echo |}
  else {| saturated_echo_ :=
            saturated_echo
            || Float32.gt (peak_echo_amplitude x echo_path_gain)
                          (Float32.of_Z 32000) |}.

End SaturationDetector.

(** ** External collaborators

    The classes that [AecState] owns or is handed, but that are defined
    elsewhere: their state and the member functions called from
    [aec_state.cc] are parameters.  A member function that changes its
    object returns the new object. *)

(** [v[i]] for a signed index. *)
Definition at_index {A : Type} (v : list A) (i : Z) : option A :=
  if i <? 0 then None else v !! Z.to_nat i.

(** [SpectrumBuffer]: the ring of spectra, indexed by slot, then by render
    channel, then by frequency bin, and its read cursor. *)
Record SpectrumBuffer : Type := {
  buffer : list (list (list float));
  read : Z
}.

Class Collaborators : Type := {
  (* RenderBuffer and SpectrumBuffer *)
  RenderBuffer : Type;
  Block : RenderBuffer -> Z -> list (list (list float));
  GetSpectrumBuffer : RenderBuffer -> SpectrumBuffer;
  Spectrum : RenderBuffer -> Z -> Z -> list float;
  OffsetIndex : SpectrumBuffer -> Z -> Z -> Z;
  IncIndex : SpectrumBuffer -> Z -> Z;
  (* FilterAnalyzer *)
  FilterAnalyzer : Type;
  FilterAnalyzer_new : EchoCanceller3Config -> FilterAnalyzer;
  FilterAnalyzer_Reset : FilterAnalyzer -> FilterAnalyzer;
  FilterAnalyzer_Update :
    FilterAnalyzer -> list float -> RenderBuffer -> FilterAnalyzer;
  DelayBlocks : FilterAnalyzer -> Z;
  Consistent : FilterAnalyzer -> bool;
  Gain : FilterAnalyzer -> float;
  GetAdjustedFilter : FilterAnalyzer -> list float;
  (* SubtractorOutputAnalyzer *)
  SubtractorOutputAnalyzer : Type;
  SubtractorOutputAnalyzer_new : SubtractorOutputAnalyzer;
  SubtractorOutputAnalyzer_Update :
    SubtractorOutputAnalyzer -> SubtractorOutput -> SubtractorOutputAnalyzer;
  SubtractorOutputAnalyzer_HandleEchoPathChange :
    SubtractorOutputAnalyzer -> SubtractorOutputAnalyzer;
  ConvergedFilter : SubtractorOutputAnalyzer -> bool;
  DivergedFilter : SubtractorOutputAnalyzer -> bool;
  (* ErlEstimator *)
  ErlEstimator : Type;
  ErlEstimator_new : Z -> ErlEstimator;
  ErlEstimator_Reset : ErlEstimator -> ErlEstimator;
  ErlEstimator_Update :
    ErlEstimator -> bool -> list float -> list float -> ErlEstimator;
  (* ErleEstimator *)
  ErleEstimator : Type;
  ErleEstimator_new : Z -> EchoCanceller3Config -> nat -> ErleEstimator;
  ErleEstimator_Reset : ErleEstimator -> bool -> ErleEstimator;
  ErleEstimator_Update :
    ErleEstimator -> RenderBuffer -> list (list float) -> list float ->
    list float -> list float -> bool -> bool -> ErleEstimator;
  GetInstLinearQualityEstimate : ErleEstimator -> option float;
  (* EchoAudibility *)
  EchoAudibility : Type;
  EchoAudibility_new : bool -> EchoAudibility;
  EchoAudibility_Update :
    EchoAudibility -> RenderBuffer -> list float -> Z -> bool -> EchoAudibility;
  IsBlockStationary : EchoAudibility -> bool;
  (* ReverbModel *)
  ReverbModel : Type;
  ReverbModel_new : ReverbModel;
  UpdateReverbNoFreqShaping :
    ReverbModel -> list float -> float -> float -> ReverbModel;
  reverb : ReverbModel -> list float;
  (* ReverbModelEstimator *)
  ReverbModelEstimator : Type;
  ReverbModelEstimator_new : EchoCanceller3Config -> ReverbModelEstimator;
  ReverbModelEstimator_Update :
    ReverbModelEstimator -> list float -> list (list float) -> option float ->
    Z -> bool -> bool -> ReverbModelEstimator;
  ReverbModelEstimator_ReverbDecay : ReverbModelEstimator -> float
}.

(** Modelled from the spec: [EchoPathVariability], declared outside the
    sources at hand, reports a gain change and the kind of delay change,
    [kNone] when the delay did not change. *)
Inductive DelayAdjustment : Type := kNone | kBufferFlush | kNewDetectedDelay.

Record EchoPathVariability : Type := {
  gain_change : bool;
  delay_change : DelayAdjustment
}.

Definition is_kNone (d : DelayAdjustment) : bool :=
  match d with kNone => true | _ => false end.

(** ** [UpdateAndComputeReverb] *)

Section Reverb.
Context {K : Aec3Common} {C : Collaborators}.

(** [render_power[k] += spectrum[k]] for [k < kFftLengthBy2Plus1]. *)
Fixpoint accumulate (render_power spectrum : list float) : option (list float) :=
  match render_power with
  | [] => Some []
  | p :: render_power' =>
      match spectrum with
      | [] => None
      | x :: spectrum' =>
          rest ← accumulate render_power' spectrum';
          Some (Float32.add p x :: rest)
      end
  end.

(** The lambda [sum_channels]: the loop over [ch < num_render_channels],
    started from the zero-filled array. *)
Fixpoint sum_channels_from (num_render_channels : nat) (ch : nat)
    (spectrum_band_0 : list (list float)) (render_power : list float)
  : option (list float) :=
  match num_render_channels with
  | O => Some render_power
  | S n =>
      spectrum ← spectrum_band_0 !! ch;
      guard (Z.of_nat (length spectrum) = kFftLengthBy2Plus1);;
      render_power' ← accumulate render_power spectrum;
      sum_channels_from n (S ch) spectrum_band_0 render_power'
  end.

Definition sum_channels (num_render_channels : nat)
    (spectrum_band_0 : list (list float)) : option (list float) :=
  sum_channels_from num_render_channels 0 spectrum_band_0
    (replicate (Z.to_nat kFftLengthBy2Plus1) Float32.zero).

(** The final loop: [reverb_power_spectrum[k] = X2[k] + reverb_power[k]]
    for [k < X2.size()], inside two views of [kFftLengthBy2Plus1] entries;
    the result lists the entries written. *)
Fixpoint add_reverb (X2 reverb_power : list float) : option (list float) :=
  match X2 with
  | [] => Some []
  | x :: X2' =>
      match reverb_power with
      | [] => None
      | r :: reverb_power' =>
          rest ← add_reverb X2' reverb_power';
          Some (Float32.add x r :: rest)
      end
  end.

Definition UpdateAndComputeReverb (spectrum_buffer : SpectrumBuffer)
    (delay_blocks : Z) (reverb_decay : float) (reverb_model : ReverbModel)
  : option (ReverbModel * list float) :=
  slot_0 ← buffer spectrum_buffer !! 0%nat;
  let num_render_channels := length slot_0 in
  let idx_at_delay :=
    OffsetIndex spectrum_buffer (read spectrum_buffer) delay_blocks in
  let idx_past := IncIndex spectrum_buffer idx_at_delay in
  '(reverb_model', X2) ←
    (if (1 <? num_render_channels)%nat then
       slot_past ← at_index (buffer spectrum_buffer) idx_past;
       X2_data ← sum_channels num_render_channels slot_past;
       let reverb_model' :=
         UpdateReverbNoFreqShaping reverb_model X2_data Float32.one
                                   reverb_decay in
       slot_at_delay ← at_index (buffer spectrum_buffer) idx_at_delay;
       X2_data ← sum_channels num_render_channels slot_at_delay;
       Some (reverb_model', X2_data)
     else
       slot_past ← at_index (buffer spectrum_buffer) idx_past;
       past_0 ← slot_past !! 0%nat;
       let reverb_model' :=
         UpdateReverbNoFreqShaping reverb_model past_0 Float32.one
                                   reverb_decay in
       slot_at_delay ← at_index (buffer spectrum_buffer) idx_at_delay;
       X2 ← slot_at_delay !! 0%nat;
       Some (reverb_model', X2));
  guard (Z.of_nat (length X2) <= kFftLengthBy2Plus1);;
  reverb_power_spectrum ← add_reverb X2 (reverb reverb_model');
  Some (reverb_model', reverb_power_spectrum).

End Reverb.

(** ** [AecState::FilterDelay] *)

Module FilterDelay.

Record t : Type := {
  delay_headroom_samples_ : Z;
  external_delay_reported_ : bool;
  filter_delay_blocks_ : Z;
  external_delay_ : option DelayEstimate
}.

(** Modelled from the spec: the class declaration is not among the
    sources; the headroom is stored as an [int], no external delay is
    known at the start and the delay estimate starts at 0. *)
Definition init (config : EchoCanceller3Config) : t := {|
  delay_headroom_samples_ := int_wrap (delay_delay_headroom_samples config);
  external_delay_reported_ := false;
  filter_delay_blocks_ := 0;
  external_delay_ := None
|}.

Definition ExternalDelayReported (s : t) : bool := external_delay_reported_ s.
Definition DirectPathFilterDelay (s : t) : Z := filter_delay_blocks_ s.

Section WithConstants.
Context {K : Aec3Common} {C : Collaborators}.

(** The condition under which a supplied external delay is latched. *)
Definition latches (stored : option DelayEstimate) (new : DelayEstimate) : bool :=
  match stored with
  | None => true
  | Some old => negb (delay old =? delay new)
  end.

(** [delay_headroom_samples_ / kBlockSize]: an [int] divided by a
    [size_t], so an unsigned division, stored in an [int]. *)
Definition headroom_blocks (delay_headroom_samples : Z) : Z :=
  int_wrap (size_t_wrap delay_headroom_samples / kBlockSize).

(** The loop [for ch = 1 .. size - 1] with [std::min]. *)
Definition min_delay (first : FilterAnalyzer) (others : list FilterAnalyzer) : Z :=
  fold_left (fun filter_delay_blocks analyzer =>
               Z.min filter_delay_blocks (DelayBlocks analyzer))
            others (DelayBlocks first).

Definition Update (s : t) (filter_analyzers : list FilterAnalyzer)
    (external_delay : option DelayEstimate)
    (blocks_with_proper_filter_adaptation : Z) : option t :=
  (* Update the delay based on the external delay. *)
  let latch :=
    match external_delay with
    | Some e => latches (external_delay_ s) e
    | None => false
    end in
  let external_delay' := if latch then external_delay else external_delay_ s in
  let external_delay_reported :=
    if latch then true else external_delay_reported_ s in
  (* Override the estimated delay if it is not certain that the filter has
     had time to converge. *)
  let delay_estimator_may_not_have_converged :=
    blocks_with_proper_filter_adaptation <? size_t_mul 2 kNumBlocksPerSecond in
  filter_delay_blocks ←
    (if delay_estimator_may_not_have_converged
        && bool_decide (is_Some external_delay')
     then Some (headroom_blocks (delay_headroom_samples_ s))
     else
       (* Conservatively use the min delay among the filters. *)
       match filter_analyzers with
       | [] => None
       | first :: others => Some (min_delay first others)
       end);
  Some {| delay_headroom_samples_ := delay_headroom_samples_ s;
          external_delay_reported_ := external_delay_reported;
          filter_delay_blocks_ := filter_delay_blocks;
          external_delay_ := external_delay' |}.

(** One call of [Update], and a sequence of calls. *)
Record args : Type := {
  filter_analyzers : list FilterAnalyzer;
  external_delay : option DelayEstimate;
  blocks_with_proper_filter_adaptation : Z
}.

Definition Update_with (s : t) (a : args) : option t :=
  Update s (filter_analyzers a) (external_delay a)
         (blocks_with_proper_filter_adaptation a).

Fixpoint run (s : t) (calls : list args) : option t :=
  match calls with
  | [] => Some s
  | a :: calls' => s' ← Update_with s a; run s' calls'
  end.

End WithConstants.

End FilterDelay.

(** ** [AecState] *)

Module AecState.

Section WithCollaborators.
Context {K : Aec3Common} {C : Collaborators}.

(** The data members; the data dumper, which is only written to, is left
    out. *)
Record t : Type := {
  config_ : EchoCanceller3Config;
  initial_state_ : InitialState.t;
  delay_state_ : FilterDelay.t;
  transparent_state_ : TransparentMode.t;
  filter_quality_state_ : FilteringQualityAnalyzer.t;
  saturation_detector_ : SaturationDetector.t;
  erl_estimator_ : ErlEstimator;
  erle_estimator_ : ErleEstimator;
  strong_not_saturated_render_blocks_ : Z;
  blocks_with_active_render_ : Z;
  capture_signal_saturation_ : bool;
  filter_analyzers_ : list FilterAnalyzer;
  echo_audibility_ : EchoAudibility;
  reverb_model_ : ReverbModel;
  reverb_model_estimator_ : ReverbModelEstimator;
  subtractor_output_analyzers_ : list SubtractorOutputAnalyzer
}.

(** The constructor. *)
Definition init (config : EchoCanceller3Config) (num_capture_channels : nat) : t := {|
  config_ := config;
  initial_state_ := InitialState.init config;
  delay_state_ := FilterDelay.init config;
  transparent_state_ := TransparentMode.init config;
  filter_quality_state_ := FilteringQualityAnalyzer.init config;
  saturation_detector_ := SaturationDetector.init;
  erl_estimator_ := ErlEstimator_new (size_t_mul 2 kNumBlocksPerSecond);
  erle_estimator_ :=
    ErleEstimator_new (size_t_mul 2 kNumBlocksPerSecond) config
                      num_capture_channels;
  strong_not_saturated_render_blocks_ := 0;
  blocks_with_active_render_ := 0;
  capture_signal_saturation_ := false;
  filter_analyzers_ := replicate num_capture_channels (FilterAnalyzer_new config);
  echo_audibility_ :=
    EchoAudibility_new
      (echo_audibility_use_stationarity_properties_at_init config);
  reverb_model_ := ReverbModel_new;
  reverb_model_estimator_ := ReverbModelEstimator_new config;
  subtractor_output_analyzers_ :=
    replicate num_capture_channels SubtractorOutputAnalyzer_new
|}.

(** Modelled from the spec: the accessors are declared in [aec_state.h],
    which is not among the sources; each one returns the flag of the
    member the spec names for it (capture saturation, usable linear
    estimate, transparent mode active, echo saturated, reverb decay). *)
Definition SaturatedCapture (s : t) : bool := capture_signal_saturation_ s.

Definition UsableLinearEstimate (s : t) : bool :=
  FilteringQualityAnalyzer.LinearFilterUsable (filter_quality_state_ s).

Definition TransparentMode (s : t) : bool :=
  TransparentMode.Active (transparent_state_ s).

Definition SaturatedEcho (s : t) : bool :=
  SaturationDetector.SaturatedEcho (saturation_detector_ s).

Definition ReverbDecay (s : t) : float :=
  ReverbModelEstimator_ReverbDecay (reverb_model_estimator_ s).

(** [ErleUncertainty]: [1.f] when the echo is saturated, else nothing. *)
Definition ErleUncertainty (s : t) : option float :=
  if SaturatedEcho s then Some Float32.one else None.

(** *** [HandleEchoPathChange] *)

(** The lambda [full_reset]. *)
Definition full_reset (s : t) : t := {|
  config_ := config_ s;
  initial_state_ := InitialState.Reset (initial_state_ s);
  delay_state_ := delay_state_ s;
  transparent_state_ := TransparentMode.Reset (transparent_state_ s);
  filter_quality_state_ :=
    FilteringQualityAnalyzer.Reset (filter_quality_state_ s);
  saturation_detector_ := saturation_detector_ s;
  erl_estimator_ := ErlEstimator_Reset (erl_estimator_ s);
  erle_estimator_ := ErleEstimator_Reset (erle_estimator_ s) true;
  strong_not_saturated_render_blocks_ := 0;
  blocks_with_active_render_ := 0;
  capture_signal_saturation_ := false;
  filter_analyzers_ := map FilterAnalyzer_Reset (filter_analyzers_ s);
  echo_audibility_ := echo_audibility_ s;
  reverb_model_ := reverb_model_ s;
  reverb_model_estimator_ := reverb_model_estimator_ s;
  subtractor_output_analyzers_ := subtractor_output_analyzers_ s
|}.

Definition with_erle_estimator (s : t) (e : ErleEstimator) : t := {|
  config_ := config_ s;
  initial_state_ := initial_state_ s;
  delay_state_ := delay_state_ s;
  transparent_state_ := transparent_state_ s;
  filter_quality_state_ := filter_quality_state_ s;
  saturation_detector_ := saturation_detector_ s;
  erl_estimator_ := erl_estimator_ s;
  erle_estimator_ := e;
  strong_not_saturated_render_blocks_ := strong_not_saturated_render_blocks_ s;
  blocks_with_active_render_ := blocks_with_active_render_ s;
  capture_signal_saturation_ := capture_signal_saturation_ s;
  filter_analyzers_ := filter_analyzers_ s;
  echo_audibility_ := echo_audibility_ s;
  reverb_model_ := reverb_model_ s;
  reverb_model_estimator_ := reverb_model_estimator_ s;
  subtractor_output_analyzers_ := subtractor_output_analyzers_ s
|}.

Definition with_subtractor_output_analyzers (s : t)
    (analyzers : list SubtractorOutputAnalyzer) : t := {|
  config_ := config_ s;
  initial_state_ := initial_state_ s;
  delay_state_ := delay_state_ s;
  transparent_state_ := transparent_state_ s;
  filter_quality_state_ := filter_quality_state_ s;
  saturation_detector_ := saturation_detector_ s;
  erl_estimator_ := erl_estimator_ s;
  erle_estimator_ := erle_estimator_ s;
  strong_not_saturated_render_blocks_ := strong_not_saturated_render_blocks_ s;
  blocks_with_active_render_ := blocks_with_active_render_ s;
  capture_signal_saturation_ := capture_signal_saturation_ s;
  filter_analyzers_ := filter_analyzers_ s;
  echo_audibility_ := echo_audibility_ s;
  reverb_model_ := reverb_model_ s;
  reverb_model_estimator_ := reverb_model_estimator_ s;
  subtractor_output_analyzers_ := analyzers
|}.

Definition HandleEchoPathChange (s : t)
    (echo_path_variability : EchoPathVariability) : t :=
  let s1 :=
    if negb (is_kNone (delay_change echo_path_variability))
    then full_reset s
    else if gain_change echo_path_variability
    then with_erle_estimator s (ErleEstimator_Reset (erle_estimator_ s) false)
    else s in
  with_subtractor_output_analyzers s1
    (map SubtractorOutputAnalyzer_HandleEchoPathChange
         (subtractor_output_analyzers_ s1)).

(** *** [Update] *)

(** What the loop over the capture channels accumulates. *)
Record filter_analysis : Type := {
  any_filter_converged : bool;
  all_filters_diverged : bool;
  any_filter_consistent : bool;
  max_echo_path_gain : float
}.

Definition filter_analysis_init : filter_analysis := {|
  any_filter_converged := false;
  all_filters_diverged := true;
  any_filter_consistent := false;
  max_echo_path_gain := Float32.zero
|}.

(** The loop [for ch < subtractor_output.size()]: it updates analyzer [ch]
    of both vectors and accumulates the flags. *)
Fixpoint analyze_filters (subtractor_output : list SubtractorOutput)
    (output_analyzers : list SubtractorOutputAnalyzer)
    (filter_analyzers : list FilterAnalyzer)
    (adaptive_filter_impulse_response : list (list float))
    (render_buffer : RenderBuffer) (acc : filter_analysis)
  : option (list SubtractorOutputAnalyzer * list FilterAnalyzer
            * filter_analysis) :=
  match subtractor_output with
  | [] => Some (output_analyzers, filter_analyzers, acc)
  | output :: subtractor_output' =>
      match output_analyzers, filter_analyzers,
            adaptive_filter_impulse_response with
      | oa :: output_analyzers', fa :: filter_analyzers', ir :: responses' =>
          let oa' := SubtractorOutputAnalyzer_Update oa output in
          let fa' := FilterAnalyzer_Update fa ir render_buffer in
          let acc' := {|
            any_filter_converged :=
              any_filter_converged acc || ConvergedFilter oa';
            all_filters_diverged :=
              all_filters_diverged acc && DivergedFilter oa';
            any_filter_consistent :=
              any_filter_consistent acc || Consistent fa';
            max_echo_path_gain :=
              Float32.max (max_echo_path_gain acc) (Gain fa')
          |} in
          '(oas, fas, r) ←
            analyze_filters subtractor_output' output_analyzers'
              filter_analyzers' responses' render_buffer acc';
          Some (oa' :: oas, fa' :: fas, r)
      | _, _, _ => None
      end
  end.

(** [std::inner_product(v.begin(), v.end(), v.begin(), 0.f)]. *)
Definition render_energy (v : list float) : float :=
  fold_left (fun acc x => Float32.add acc (Float32.mul x x)) v Float32.zero.

(** The loop that sets [active_render] (it stops at the first active
    channel). *)
Definition is_active_render (config : EchoCanceller3Config)
    (aligned_render_block : list (list float)) : bool :=
  existsb
    (fun channel =>
       Float32.gt (render_energy channel)
         (Float32.mul
            (Float32.mul (render_levels_active_render_limit config)
                         (render_levels_active_render_limit config))
            (Float32.of_Z kFftLengthBy2)))
    aligned_render_block.

Definition Update (s : t) (external_delay : option DelayEstimate)
    (adaptive_filter_frequency_response : list (list (list float)))
    (adaptive_filter_impulse_response : list (list float))
    (render_buffer : RenderBuffer) (E2_main Y2 : list float)
    (subtractor_output : list SubtractorOutput) : option t :=
  let config := config_ s in
  let num_capture_channels := length (filter_analyzers_ s) in
  guard (num_capture_channels = length subtractor_output);;
  guard (num_capture_channels = length (subtractor_output_analyzers_ s));;
  guard (num_capture_channels = length adaptive_filter_frequency_response);;
  guard (num_capture_channels = length adaptive_filter_impulse_response);;
  (* Analyze the filter outputs and filters. *)
  '(output_analyzers, filter_analyzers, fa) ←
    analyze_filters subtractor_output (subtractor_output_analyzers_ s)
      (filter_analyzers_ s) adaptive_filter_impulse_response render_buffer
      filter_analysis_init;
  (* Estimate the direct path delay of the filter. *)
  delay_state ←
    (if filter_use_linear_filter config
     then FilterDelay.Update (delay_state_ s) filter_analyzers external_delay
                             (strong_not_saturated_render_blocks_ s)
     else Some (delay_state_ s));
  let filter_delay := FilterDelay.DirectPathFilterDelay delay_state in
  aligned_render_block ← Block render_buffer (- filter_delay) !! 0%nat;
  (* Update render counters. *)
  let active_render := is_active_render config aligned_render_block in
  let blocks_with_active_render :=
    size_t_add (blocks_with_active_render_ s) (b2z active_render) in
  let strong_not_saturated_render_blocks :=
    size_t_add (strong_not_saturated_render_blocks_ s)
               (b2z (active_render && negb (SaturatedCapture s))) in
  '(reverb_model, X2_reverb) ←
    UpdateAndComputeReverb (GetSpectrumBuffer render_buffer) filter_delay
                           (ReverbDecay s) (reverb_model_ s);
  (* Every bin of the local array [X2_reverb] has to have been written. *)
  guard (Z.of_nat (length X2_reverb) = kFftLengthBy2Plus1);;
  (* Update the echo audibility evaluator. *)
  let echo_audibility :=
    if echo_audibility_use_stationarity_properties config
    then EchoAudibility_Update (echo_audibility_ s) render_buffer
           (reverb reverb_model) filter_delay
           (FilterDelay.ExternalDelayReported delay_state)
    else echo_audibility_ s in
  (* Update the ERL and ERLE measures. *)
  let erle_1 :=
    if InitialState.TransitionTriggered (initial_state_ s)
    then ErleEstimator_Reset (erle_estimator_ s) false
    else erle_estimator_ s in
  let X2 := Spectrum render_buffer filter_delay 0 in
  response_0 ← adaptive_filter_frequency_response !! 0%nat;
  output_analyzer_0 ← output_analyzers !! 0%nat;
  let erle_estimator :=
    ErleEstimator_Update erle_1 render_buffer response_0 X2_reverb Y2 E2_main
      (ConvergedFilter output_analyzer_0) (erle_onset_detection config) in
  let erl_estimator :=
    ErlEstimator_Update (erl_estimator_ s)
      (ConvergedFilter output_analyzer_0) X2 Y2 in
  (* Detect and flag echo saturation. *)
  let saturation_detector :=
    SaturationDetector.Update (saturation_detector_ s) aligned_render_block
      (SaturatedCapture s) (UsableLinearEstimate s) subtractor_output
      (max_echo_path_gain fa) in
  (* Update the decision on whether to use the initial state parameter set. *)
  let initial_state :=
    InitialState.Update (initial_state_ s) active_render (SaturatedCapture s) in
  (* Detect whether the transparent mode should be activated. *)
  let transparent_state :=
    TransparentMode.Update (transparent_state_ s)
      {| TransparentMode.filter_delay_blocks := filter_delay;
         TransparentMode.any_filter_consistent := any_filter_consistent fa;
         TransparentMode.any_filter_converged := any_filter_converged fa;
         TransparentMode.all_filters_diverged := all_filters_diverged fa;
         TransparentMode.active_render := active_render;
         TransparentMode.saturated_capture := SaturatedCapture s |} in
  (* Analyze the quality of the filter. *)
  let filter_quality_state :=
    FilteringQualityAnalyzer.Update (filter_quality_state_ s)
      {| FilteringQualityAnalyzer.active_render := active_render;
         FilteringQualityAnalyzer.transparent_mode :=
           TransparentMode.Active transparent_state;
         FilteringQualityAnalyzer.saturated_capture := SaturatedCapture s;
         FilteringQualityAnalyzer.external_delay := external_delay;
         FilteringQualityAnalyzer.any_filter_converged :=
           any_filter_converged fa |} in
  (* Update the reverb estimate. *)
  let stationary_block :=
    echo_audibility_use_stationarity_properties config
    && IsBlockStationary echo_audibility in
  filter_analyzer_0 ← filter_analyzers !! 0%nat;
  let reverb_model_estimator :=
    ReverbModelEstimator_Update (reverb_model_estimator_ s)
      (GetAdjustedFilter filter_analyzer_0) response_0
      (GetInstLinearQualityEstimate erle_estimator) filter_delay
      (FilteringQualityAnalyzer.LinearFilterUsable filter_quality_state)
      stationary_block in
  Some {| config_ := config;
          initial_state_ := initial_state;
          delay_state_ := delay_state;
          transparent_state_ := transparent_state;
          filter_quality_state_ := filter_quality_state;
          saturation_detector_ := saturation_detector;
          erl_estimator_ := erl_estimator;
          erle_estimator_ := erle_estimator;
          strong_not_saturated_render_blocks_ :=
            strong_not_saturated_render_blocks;
          blocks_with_active_render_ := blocks_with_active_render;
          capture_signal_saturation_ := capture_signal_saturation_ s;
          filter_analyzers_ := filter_analyzers;
          echo_audibility_ := echo_audibility;
          reverb_model_ := reverb_model;
          reverb_model_estimator_ := reverb_model_estimator;
          subtractor_output_analyzers_ := output_analyzers |}.

(** The arguments of one call of [Update]. *)
Record update_args : Type := {
  external_delay : option DelayEstimate;
  adaptive_filter_frequency_response : list (list (list float));
  adaptive_filter_impulse_response : list (list float);
  render_buffer : RenderBuffer;
  E2_main : list float;
  Y2 : list float;
  subtractor_output : list SubtractorOutput
}.

(** The two operations that change an [AecState]. *)
Inductive call : Type :=
| CallUpdate (a : update_args)
| CallHandleEchoPathChange (echo_path_variability : EchoPathVariability).

Definition step (s : t) (c : call) : option t :=
  match c with
  | CallUpdate a =>
      Update s (external_delay a) (adaptive_filter_frequency_response a)
        (adaptive_filter_impulse_response a) (render_buffer a) (E2_main a)
        (Y2 a) (subtractor_output a)
  | CallHandleEchoPathChange v => Some (HandleEchoPathChange s v)
  end.

Fixpoint run (s : t) (calls : list call) : option t :=
  match calls with
  | [] => Some s
  | c :: calls' => s' ← step s c; run s' calls'
  end.

(** A call that performs the full reset. *)
Definition is_full_reset (c : call) : bool :=
  match c with
  | CallUpdate _ => false
  | CallHandleEchoPathChange v => negb (is_kNone (delay_change v))
  end.

End WithCollaborators.

End AecState.

(** ** Vocabulary of the properties *)

(** Whether an optional value is present, as a [bool]. *)
Definition has_value {A : Type} (o : option A) : bool :=
  match o with Some _ => true | None => false end.

(** [m] is the minimum of the list [l]. *)
Definition is_minimum (m : Z) (l : list Z) : Prop :=
  m ∈ l /\ forall x, x ∈ l -> m <= x.

(** [m] is the maximum of the absolute values of the samples of all
    channels of [x], and 0 when no sample is above 0 (an empty block, or
    samples that are zeros or NaNs). *)
Definition is_max_abs_sample (m : float) (x : list (list float)) : Prop :=
  (m = Float32.zero
   \/ exists channel sample,
        channel ∈ x /\ sample ∈ channel /\ m = Float32.fabsf sample)
  /\ Float32.lt m Float32.zero = false
  /\ forall channel sample,
       channel ∈ x -> sample ∈ channel ->
       Float32.lt m (Float32.fabsf sample) = false.

(** A residual peak above the threshold of 20000, in either filter. *)
Definition residual_saturated (output : SubtractorOutput) : bool :=
  Float32.gt (s_main_max_abs output) (Float32.of_Z 20000)
  || Float32.gt (s_shadow_max_abs output) (Float32.of_Z 20000).

(** The running maximum of a list of floats, from a start value. *)
Definition running_max (l : list float) (m : float) : float :=
  fold_left Float32.max l m.

(** The power of a slot of the spectrum buffer, per frequency bin: the sum
    over the render channels, in their order and from [0.f], and the
    spectrum itself when the slot has a single channel. *)
Definition summed_power {K : Aec3Common} (slot : list (list float)) : list float :=
  map (fun k =>
         fold_left (fun sum spectrum =>
                      Float32.add sum (nth k spectrum Float32.zero))
                   slot Float32.zero)
      (seq 0 (Z.to_nat kFftLengthBy2Plus1)).

Definition render_power {K : Aec3Common} (slot : list (list float)) : list float :=
  match slot with
  | [spectrum] => spectrum
  | _ => summed_power slot
  end.

(** A slot with [n] channels of [kFftLengthBy2Plus1] bins each. *)
Definition well_formed_slot {K : Aec3Common} (n : nat) (slot : list (list float))
  : Prop :=
  length slot = n
  /\ Forall (fun spectrum => Z.of_nat (length spectrum) = kFftLengthBy2Plus1) slot.

(** Counting the blocks that count as a filter update: render active and
    capture not saturated. *)
Fixpoint count_filter_updates (calls : list (bool * bool)) : Z :=
  match calls with
  | [] => 0
  | (active_render, saturated_capture) :: calls' =>
      b2z (active_render && negb saturated_capture)
      + count_filter_updates calls'
  end.

(** [p] is a non-empty prefix of [l]. *)
Definition nonempty_prefix {A : Type} (p l : list A) : Prop :=
  p <> [] /\ exists q, l = p ++ q.

(** The history of a [FilteringQualityAnalyzer]: the number of filter-update
    blocks since the start, the number since the last [Reset], and whether
    some update saw a converged filter. *)
Definition is_filter_update (a : FilteringQualityAnalyzer.args) : bool :=
  FilteringQualityAnalyzer.active_render a
  && negb (FilteringQualityAnalyzer.saturated_capture a).

Fixpoint blocks_since_start (calls : list FilteringQualityAnalyzer.call) : Z :=
  match calls with
  | [] => 0
  | FilteringQualityAnalyzer.CallUpdate a :: calls' =>
      b2z (is_filter_update a) + blocks_since_start calls'
  | FilteringQualityAnalyzer.CallReset :: calls' => blocks_since_start calls'
  end.

(** The calls are scanned from the oldest; [n] is the count so far. *)
Fixpoint blocks_since_reset_from (n : Z)
    (calls : list FilteringQualityAnalyzer.call) : Z :=
  match calls with
  | [] => n
  | FilteringQualityAnalyzer.CallUpdate a :: calls' =>
      blocks_since_reset_from (n + b2z (is_filter_update a)) calls'
  | FilteringQualityAnalyzer.CallReset :: calls' =>
      blocks_since_reset_from 0 calls'
  end.

Definition blocks_since_reset (calls : list FilteringQualityAnalyzer.call) : Z :=
  blocks_since_reset_from 0 calls.

Definition convergence_seen_in (calls : list FilteringQualityAnalyzer.call) : bool :=
  existsb (fun c => match c with
                    | FilteringQualityAnalyzer.CallUpdate a =>
                        FilteringQualityAnalyzer.any_filter_converged a
                    | FilteringQualityAnalyzer.CallReset => false
                    end) calls.

(** The reading of the usability conditions with "at least": a count [c]
    of blocks is at least [p / q] times the number [k] of blocks per
    second. *)
Definition at_least (c p q k : Z) : bool := p * k <=? q * c.

(** ** Sample inputs *)

(** A configuration with the default values of WebRTC that matter here:
    2.5 seconds of initial state, 32 samples of delay headroom. *)
Definition default_config : EchoCanceller3Config := {|
  filter_conservative_initial_phase := false;
  filter_initial_state_seconds := Float32.div (Float32.of_Z 5) (Float32.of_Z 2);
  filter_use_linear_filter := true;
  delay_delay_headroom_samples := 32;
  ep_strength_bounded_erl := false;
  echo_removal_control_linear_and_stable_echo_path := false;
  echo_audibility_use_stationarity_properties := false;
  echo_audibility_use_stationarity_properties_at_init := false;
  render_levels_active_render_limit := Float32.of_Z 100;
  erle_onset_detection := true
|}.

(** A block in which a consistent filter with a delay of two blocks is
    seen. *)
Definition sane_block : TransparentMode.args := {|
  TransparentMode.filter_delay_blocks := 2;
  TransparentMode.any_filter_consistent := true;
  TransparentMode.any_filter_converged := false;
  TransparentMode.all_filters_diverged := false;
  TransparentMode.active_render := true;
  TransparentMode.saturated_capture := false
|}.

(** A small implementation of the collaborators, on which the
    orchestrator can be run: a render buffer that holds one block and a
    ring of spectra, analyzers that hold the values they report. *)
Record SampleRenderBuffer : Type := {
  sample_block : list (list float);
  sample_spectrum_buffer : SpectrumBuffer
}.

Record SampleErleEstimator : Type := {
  hard_resets : nat;
  soft_resets : nat;
  erle_updates : nat
}.

Definition sample_collaborators : Collaborators := {|
  RenderBuffer := SampleRenderBuffer;
  Block := fun rb _ => [sample_block rb];
  GetSpectrumBuffer := sample_spectrum_buffer;
  Spectrum := fun rb delay_blocks channel =>
    let sb := sample_spectrum_buffer rb in
    let size := Z.of_nat (length (buffer sb)) in
    default [] (slot ← at_index (buffer sb) ((size + read sb + delay_blocks) mod size);
                at_index slot channel);
  OffsetIndex := fun sb index offset =>
    let size := Z.of_nat (length (buffer sb)) in (size + index + offset) mod size;
  IncIndex := fun sb index =>
    let size := Z.of_nat (length (buffer sb)) in
    if index <? size - 1 then index + 1 else 0;
  FilterAnalyzer := Z;
  FilterAnalyzer_new := fun _ => 0;
  FilterAnalyzer_Reset := fun _ => 0;
  FilterAnalyzer_Update := fun fa _ _ => fa;
  DelayBlocks := fun fa => fa;
  Consistent := fun fa => 0 <? fa;
  Gain := fun _ => Float32.one;
  GetAdjustedFilter := fun _ => [];
  SubtractorOutputAnalyzer := bool;
  SubtractorOutputAnalyzer_new := false;
  SubtractorOutputAnalyzer_Update := fun _ output =>
    Float32.lt (s_main_max_abs output) (s_shadow_max_abs output);
  SubtractorOutputAnalyzer_HandleEchoPathChange := fun _ => false;
  ConvergedFilter := fun oa => oa;
  DivergedFilter := fun _ => false;
  ErlEstimator := nat;
  ErlEstimator_new := fun _ => 0%nat;
  ErlEstimator_Reset := fun _ => 0%nat;
  ErlEstimator_Update := fun erl _ _ _ => S erl;
  ErleEstimator := SampleErleEstimator;
  ErleEstimator_new := fun _ _ _ =>
    {| hard_resets := 0; soft_resets := 0; erle_updates := 0 |};
  ErleEstimator_Reset := fun erle hard =>
    if hard
    then {| hard_resets := S (hard_resets erle); soft_resets := soft_resets erle;
            erle_updates := erle_updates erle |}
    else {| hard_resets := hard_resets erle; soft_resets := S (soft_resets erle);
            erle_updates := erle_updates erle |};
  ErleEstimator_Update := fun erle _ _ _ _ _ _ _ =>
    {| hard_resets := hard_resets erle; soft_resets := soft_resets erle;
       erle_updates := S (erle_updates erle) |};
  GetInstLinearQualityEstimate := fun _ => None;
  EchoAudibility := bool;
  EchoAudibility_new := fun at_init => at_init;
  EchoAudibility_Update := fun ea _ _ _ _ => ea;
  IsBlockStationary := fun ea => ea;
  ReverbModel := list float;
  ReverbModel_new := replicate 65 Float32.zero;
  UpdateReverbNoFreqShaping := fun rm power_spectrum scaling reverb_decay =>
    zip_with (fun r x => Float32.mul (Float32.add r (Float32.mul x scaling))
                                     reverb_decay)
             rm power_spectrum;
  reverb := fun rm => rm;
  ReverbModelEstimator := unit;
  ReverbModelEstimator_new := fun _ => tt;
  ReverbModelEstimator_Update := fun rme _ _ _ _ _ _ => rme;
  ReverbModelEstimator_ReverbDecay := fun _ =>
    Float32.div (Float32.of_Z 83) (Float32.of_Z 100)
|}.

(** One block of input for a single capture channel and a single render
    channel: 64 render samples of amplitude [amplitude], spectra of
    constant power [power], and a ring of three spectra. *)
Definition sample_update (amplitude power : Z)
    (external_delay : option DelayEstimate)
  : AecState.update_args (C := sample_collaborators) :=
  let spectrum := replicate 65 (Float32.of_Z power) in
  @AecState.Build_update_args sample_collaborators
    external_delay
    [[spectrum]]
    [[Float32.one]]
    {| sample_block := [replicate 64 (Float32.of_Z amplitude)];
       sample_spectrum_buffer :=
         {| buffer := [[spectrum]; [spectrum]; [spectrum]]; read := 0 |} |}
    spectrum
    spectrum
    [{| s_main_max_abs := Float32.of_Z 10;
        s_shadow_max_abs := Float32.of_Z 20 |}].

Definition sample_delay : DelayEstimate := {| quality := kRefined; delay := 5 |}.

Definition delay_changed : EchoPathVariability :=
  {| gain_change := false; delay_change := kNewDetectedDelay |}.

Definition gain_changed : EchoPathVariability :=
  {| gain_change := true; delay_change := kNone |}.

(** An [AecState] for one capture channel after two active blocks, the
    first of which brought an external delay. *)
Definition sample_state : option (AecState.t (C := sample_collaborators)) :=
  AecState.run (K := webrtc_constants)
    (AecState.init (K := webrtc_constants) default_config 1)
    [AecState.CallUpdate (sample_update 1000 4 (Some sample_delay));
     AecState.CallUpdate (sample_update 1000 4 None)].

Definition sample_init : AecState.t (C := sample_collaborators) :=
  AecState.init (K := webrtc_constants) default_config 1.

(** [sample_state], which is defined. *)
Definition sample_state_value : AecState.t (C := sample_collaborators) :=
  default sample_init sample_state.

(** The state one block after a full reset of [sample_state_value]. *)
Definition sample_after_reset : AecState.t (C := sample_collaborators) :=
  default sample_init
    (AecState.step (K := webrtc_constants)
       (AecState.HandleEchoPathChange sample_state_value delay_changed)
       (AecState.CallUpdate (sample_update 1000 4 None))).

(** Two active blocks with a gain change in between. *)
Definition sample_calls : list (AecState.call (C := sample_collaborators)) :=
  [AecState.CallUpdate (sample_update 1000 4 (Some sample_delay));
   AecState.CallHandleEchoPathChange gain_changed;
   AecState.CallUpdate (sample_update 1000 4 None)].

Definition sample_after_gain_change : AecState.t (C := sample_collaborators) :=
  default sample_init (AecState.run (K := webrtc_constants) sample_init sample_calls).

(** Two calls of [FilterDelay::Update] on three analyzers each (an analyzer
    of [sample_collaborators] is the delay it reports). *)
Definition sample_delay_calls
  : list (FilterDelay.args (C := sample_collaborators)) :=
  [ @FilterDelay.Build_args sample_collaborators [3; 1; 2] (Some sample_delay) 10 ].

Definition sample_delay_call : FilterDelay.args (C := sample_collaborators) :=
  @FilterDelay.Build_args sample_collaborators [4; 2; 7] None 600.

(** An update in a block with active render, an external delay, no
    saturation, no transparent mode and no converged filter. *)
Definition quality_update : FilteringQualityAnalyzer.args := {|
  FilteringQualityAnalyzer.active_render := true;
  FilteringQualityAnalyzer.transparent_mode := false;
  FilteringQualityAnalyzer.saturated_capture := false;
  FilteringQualityAnalyzer.external_delay := Some sample_delay;
  FilteringQualityAnalyzer.any_filter_converged := false
|}.

(** [n] updates as [quality_update], from the constructor. *)
Definition quality_history (n : nat) : list FilteringQualityAnalyzer.call :=
  replicate n (FilteringQualityAnalyzer.CallUpdate quality_update).

(** A slot with two render channels of constant power [a] and [b], and a
    ring of three such slots. *)
Definition sample_slot (a b : Z) : list (list float) :=
  [replicate 65 (Float32.of_Z a); replicate 65 (Float32.of_Z b)].

Definition sample_ring : SpectrumBuffer :=
  {| buffer := [sample_slot 1 2; sample_slot 3 4; sample_slot 5 6]; read := 0 |}.

Definition sample_decay : float := Float32.div (Float32.of_Z 1) (Float32.of_Z 2).

(** 624 active blocks without saturation. *)
Definition active_blocks : list (bool * bool) := replicate 624 (true, false).

(** ** [AecState::GetResidualEchoScaling] and further vocabulary *)

(** [a >= b] on [float]s, false as soon as one side is a NaN. *)
Definition Float32_ge (a b : float) : bool := SFleb b a.

(** The literals [1.5f] and [0.8f]: 3/2, and the float nearest to 4/5. *)
Definition Float32_lit_1_5 : float :=
  Float32.div (Float32.of_Z 3) (Float32.of_Z 2).
Definition Float32_lit_0_8 : float :=
  Float32.div (Float32.of_Z 4) (Float32.of_Z 5).

(** A float that is not below zero: a zero of either sign, a positive
    number or infinity, or a NaN. *)
Definition Float32_not_negative (a : float) : Prop :=
  match a with
  | S754_zero _ | S754_nan => True
  | S754_infinity s | S754_finite s _ _ => s = false
  end.

Definition Float32_is_zero (a : float) : bool :=
  match a with S754_zero _ => true | _ => false end.

Section AecStateQueries.
Context {K : Aec3Common} {C : Collaborators}.

(** The local [filter_has_had_time_to_converge] of
    [GetResidualEchoScaling]: the counter and the constant are converted
    to [float]. *)
Definition filter_has_had_time_to_converge
    (conservative_initial_phase : bool)
    (strong_not_saturated_render_blocks : Z) : bool :=
  if conservative_initial_phase
  then Float32_ge (Float32.of_Z strong_not_saturated_render_blocks)
         (Float32.mul Float32_lit_1_5 (Float32.of_Z kNumBlocksPerSecond))
  else Float32_ge (Float32.of_Z strong_not_saturated_render_blocks)
         (Float32.mul Float32_lit_0_8 (Float32.of_Z kNumBlocksPerSecond)).

(** [GetResidualEchoScaling]; the member function of [EchoAudibility]
    that fills the scaling is the parameter
    [EchoAudibility_GetResidualEchoScaling]. *)
Definition AecState_GetResidualEchoScaling
    (EchoAudibility_GetResidualEchoScaling :
       EchoAudibility -> bool -> list float -> list float)
    (s : AecState.t) (residual_scaling : list float) : list float :=
  EchoAudibility_GetResidualEchoScaling (AecState.echo_audibility_ s)
    (filter_has_had_time_to_converge
       (filter_conservative_initial_phase (AecState.config_ s))
       (AecState.strong_not_saturated_render_blocks_ s))
    residual_scaling.

(** The four counters of the blocks with active render and without
    saturated capture, in [AecState] and in three of its sub-trackers,
    hold the same value. *)
Definition counters_in_sync (s : AecState.t) : Prop :=
  InitialState.strong_not_saturated_render_blocks_ (AecState.initial_state_ s)
  = AecState.strong_not_saturated_render_blocks_ s
  /\ TransparentMode.strong_not_saturated_render_blocks_
       (AecState.transparent_state_ s)
     = AecState.strong_not_saturated_render_blocks_ s
  /\ FilteringQualityAnalyzer.filter_update_blocks_since_reset_
       (AecState.filter_quality_state_ s)
     = AecState.strong_not_saturated_render_blocks_ s.

(** No saturation has been flagged: neither of the capture nor of the
    echo, and so the two render counters agree. *)
Definition saturation_free (s : AecState.t) : Prop :=
  AecState.capture_signal_saturation_ s = false
  /\ AecState.SaturatedEcho s = false
  /\ AecState.blocks_with_active_render_ s
     = AecState.strong_not_saturated_render_blocks_ s.

(** The linear estimate is usable only with transparent mode off and with
    both counts of filter-update blocks above their thresholds. *)
Definition usable_is_justified (s : AecState.t) : Prop :=
  AecState.UsableLinearEstimate s = true ->
  AecState.TransparentMode s = false
  /\ FilteringQualityAnalyzer.exceeds
       (FilteringQualityAnalyzer.filter_update_blocks_since_start_
          (AecState.filter_quality_state_ s)) Float32.lit_0_4 = true
  /\ FilteringQualityAnalyzer.exceeds
       (FilteringQualityAnalyzer.filter_update_blocks_since_reset_
          (AecState.filter_quality_state_ s)) Float32.lit_0_2 = true.

(** Every band of every block of the render buffer holds only zeros. *)
Definition silent_render_buffer (render_buffer : RenderBuffer) : Prop :=
  forall offset block,
    Block render_buffer offset !! 0%nat = Some block ->
    Forall (Forall (fun sample => Float32_is_zero sample = true)) block.

End AecStateQueries.

(** The delay of the last external estimate that came with a call of
    [FilterDelay::Update], if any did. *)
Fixpoint last_external_delay {C : Collaborators}
    (calls : list FilterDelay.args) (stored : option Z) : option Z :=
  match calls with
  | [] => stored
  | a :: calls' =>
      last_external_delay calls'
        (match FilterDelay.external_delay a with
         | Some e => Some (delay e)
         | None => stored
         end)
  end.

(** The default configuration with the linear filter turned off. *)
Definition no_linear_filter_config : EchoCanceller3Config := {|
  filter_conservative_initial_phase := false;
  filter_initial_state_seconds := filter_initial_state_seconds default_config;
  filter_use_linear_filter := false;
  delay_delay_headroom_samples := 32;
  ep_strength_bounded_erl := false;
  echo_removal_control_linear_and_stable_echo_path := false;
  echo_audibility_use_stationarity_properties := false;
  echo_audibility_use_stationarity_properties_at_init := false;
  render_levels_active_render_limit := Float32.of_Z 100;
  erle_onset_detection := true
|}.

Definition sample_init_no_linear_filter
  : AecState.t (C := sample_collaborators) :=
  AecState.init (K := webrtc_constants) no_linear_filter_config 1.

Definition sample_after_no_linear_filter
  : AecState.t (C := sample_collaborators) :=
  default sample_init_no_linear_filter
    (AecState.run (K := webrtc_constants) sample_init_no_linear_filter
                  sample_calls).

(** The state after one block of silence that follows [sample_state_value]. *)
Definition sample_after_silence : AecState.t (C := sample_collaborators) :=
  default sample_init
    (AecState.step (K := webrtc_constants) sample_state_value
       (AecState.CallUpdate (sample_update 0 4 None))).

(** 101 active blocks with an external delay, from the constructor. *)
Definition sample_long_calls : list (AecState.call (C := sample_collaborators)) :=
  replicate 101 (AecState.CallUpdate (sample_update 1000 4 (Some sample_delay))).

Definition sample_after_long : AecState.t (C := sample_collaborators) :=
  default sample_init
    (AecState.run (K := webrtc_constants) sample_init sample_long_calls).

(** The state after the two sample calls of [FilterDelay::Update]
    followed by [sample_delay_call]. *)
Definition sample_delay_after : FilterDelay.t :=
  default (FilterDelay.init default_config)
    (FilterDelay.run (K := webrtc_constants) (FilterDelay.init default_config)
       (sample_delay_calls ++ [sample_delay_call])).

(** An update of [TransparentMode] in a block with active render and no
    saturated capture, and the number of them in a sequence of calls. *)
Definition is_strong_update (a : TransparentMode.args) : bool :=
  TransparentMode.active_render a && negb (TransparentMode.saturated_capture a).

Definition count_strong_updates (calls : list TransparentMode.args) : Z :=
  Z.of_nat (length (filter (fun a => is_strong_update a = true) calls)).

(** A block in which a filter has converged, with render that is not
    active. *)
Definition converged_block : TransparentMode.args := {|
  TransparentMode.filter_delay_blocks := 8;
  TransparentMode.any_filter_consistent := false;
  TransparentMode.any_filter_converged := true;
  TransparentMode.all_filters_diverged := false;
  TransparentMode.active_render := false;
  TransparentMode.saturated_capture := false
|}.

(** A block with active render in which no filter is consistent or has
    converged. *)
Definition unconverged_active_block : TransparentMode.args := {|
  TransparentMode.filter_delay_blocks := 8;
  TransparentMode.any_filter_consistent := false;
  TransparentMode.any_filter_converged := false;
  TransparentMode.all_filters_diverged := false;
  TransparentMode.active_render := true;
  TransparentMode.saturated_capture := false
|}.

(** Updates of [FilteringQualityAnalyzer] with which the linear estimate
    becomes usable when there are enough of them: active render, an
    external delay, no transparent mode. *)
Definition quality_updates (n : nat) : list FilteringQualityAnalyzer.args :=
  replicate n quality_update.

(** 400 active blocks from the constructor, and the sample calls after
    them. *)
Definition sample_converged_calls
  : list (AecState.call (C := sample_collaborators)) :=
  replicate 400 (AecState.CallUpdate (sample_update 1000 4 (Some sample_delay))).

Definition sample_after_converged : AecState.t (C := sample_collaborators) :=
  default sample_init
    (AecState.run (K := webrtc_constants) sample_init sample_converged_calls).

Definition sample_after_converged_gain_change
  : AecState.t (C := sample_collaborators) :=
  default sample_init
    (AecState.run (K := webrtc_constants) sample_after_converged sample_calls).

(** 50 active blocks with an external delay. *)
Definition sample_short_calls
  : list (AecState.call (C := sample_collaborators)) :=
  replicate 50 (AecState.CallUpdate (sample_update 1000 4 (Some sample_delay))).

(** The state 50 active blocks after a full reset that follows 400 active
    blocks. *)
Definition sample_after_recovery : AecState.t (C := sample_collaborators) :=
  default sample_init
    (AecState.run (K := webrtc_constants)
       (AecState.HandleEchoPathChange sample_after_converged delay_changed)
       sample_short_calls).

(** The default configuration in the conservative initial phase, and 1249
    active blocks: one fewer than five seconds of 250 blocks. *)
Definition conservative_config : EchoCanceller3Config := {|
  filter_conservative_initial_phase := true;
  filter_initial_state_seconds := Float32.div (Float32.of_Z 5) (Float32.of_Z 2);
  filter_use_linear_filter := true;
  delay_delay_headroom_samples := 32;
  ep_strength_bounded_erl := false;
  echo_removal_control_linear_and_stable_echo_path := false;
  echo_audibility_use_stationarity_properties := false;
  echo_audibility_use_stationarity_properties_at_init := false;
  render_levels_active_render_limit := Float32.of_Z 100;
  erle_onset_detection := true
|}.

Definition conservative_blocks : list (bool * bool) :=
  replicate 1249 (true, false).

(** * Properties *)

(** ** Machine arithmetic *)

Lemma size_t_wrap_range z : is_size_t (size_t_wrap z).
Proof.
  unfold is_size_t, size_t_wrap, size_t_modulus.
  apply Z.mod_pos_bound. lia.
Qed.

Lemma size_t_wrap_small z : is_size_t z -> size_t_wrap z = z.
Proof. unfold is_size_t, size_t_wrap. intros Hz. apply Z.mod_small. exact Hz. Qed.

Lemma size_t_add_wrap_l a b : size_t_add (size_t_wrap a) b = size_t_wrap (a + b).
Proof.
  unfold size_t_add, size_t_wrap, size_t_modulus.
  rewrite Zplus_mod_idemp_l. reflexivity.
Qed.

Lemma int_wrap_small z : is_int z -> int_wrap z = z.
Proof.
  unfold is_int, int_wrap, int_modulus. intros Hz.
  rewrite Z.mod_small; lia.
Qed.

Lemma b2z_range c : 0 <= b2z c <= 1.
Proof. destruct c; simpl; lia. Qed.

Lemma default_Some {A : Type} (d : A) (o : option A) :
  has_value o = true -> o = Some (default d o).
Proof. destruct o; simpl; [reflexivity|discriminate]. Qed.

Lemma bool_decide_is_Some {A : Type} (o : option A) :
  bool_decide (is_Some o) = has_value o.
Proof.
  destruct o; reflexivity.
Qed.

Lemma size_t_mul_const {K : Aec3Common} (c : Z) :
  0 <= c <= 2 ^ 31 -> size_t_mul c kNumBlocksPerSecond = c * kNumBlocksPerSecond.
Proof.
  intros Hc. pose proof kNumBlocksPerSecond_range as Hk.
  apply size_t_wrap_small. unfold is_size_t, size_t_modulus. nia.
Qed.

Lemma size_t_add_small (a b : Z) :
  0 <= a -> 0 <= b -> a + b < 2 ^ 64 -> size_t_add a b = a + b.
Proof.
  intros Ha Hb Hab. apply size_t_wrap_small.
  unfold is_size_t, size_t_modulus. lia.
Qed.

(** ** The order of [float] *)

(** Case analysis on the signs and on the comparisons of exponents and
    mantissas that [SFcompare] makes. *)
Ltac compare_cases :=
  repeat match goal with
         | b : bool |- _ => destruct b
         | H : context [Z.compare ?x ?y] |- _ =>
             let c := fresh "c" in
             destruct (Z.compare_spec x y) as [c|c|c]
         | |- context [Z.compare ?x ?y] =>
             let c := fresh "c" in
             destruct (Z.compare_spec x y) as [c|c|c]
         | H : context [Pos.compare_cont Eq ?x ?y] |- _ =>
             let c := fresh "c" in
             change (Pos.compare_cont Eq x y) with (Pos.compare x y) in *;
             destruct (Pos.compare_spec x y) as [c|c|c]
         | |- context [Pos.compare_cont Eq ?x ?y] =>
             let c := fresh "c" in
             change (Pos.compare_cont Eq x y) with (Pos.compare x y) in *;
             destruct (Pos.compare_spec x y) as [c|c|c]
         end;
  simpl in *; try congruence; try lia.

Section Float32Order.
Import Float32.


Lemma Float32_lt_irrefl (a : float) : lt a a = false.
Proof.
  unfold lt, SFltb. destruct a as [s|s| |s m e]; simpl; try reflexivity;
    compare_cases.
Qed.

Lemma Float32_lt_trans (a b c : float) :
  lt a b = true -> lt b c = true -> lt a c = true.
Proof.
  unfold lt, SFltb.
  destruct a as [sa|sa| |sa ma ea], b as [sb|sb| |sb mb eb],
           c as [sc|sc| |sc mc ec]; simpl; try congruence;
    intros Hab Hbc; compare_cases.
Qed.

Lemma Float32_le_lt_trans (a b c : float) :
  Float32.le a b -> lt b c = true -> lt a c = true.
Proof.
  unfold Float32.le, lt, SFltb.
  destruct a as [sa|sa| |sa ma ea], b as [sb|sb| |sb mb eb],
           c as [sc|sc| |sc mc ec]; simpl; try congruence;
    intros [Hab|Hab] Hbc; try congruence; compare_cases.
Qed.

Lemma Float32_lt_le_trans (a b c : float) :
  lt a b = true -> Float32.le b c -> lt a c = true.
Proof.
  unfold Float32.le, lt, SFltb.
  destruct a as [sa|sa| |sa ma ea], b as [sb|sb| |sb mb eb],
           c as [sc|sc| |sc mc ec]; simpl; try congruence;
    intros Hab [Hbc|Hbc]; try congruence; compare_cases.
Qed.

End Float32Order.

Section Float32Max.
Import Float32.

(** Among floats that are not NaNs, [<] is the strict part of a total
    preorder. *)
Lemma Float32_lt_neg_trans (a b c : float) :
  is_nan b = false -> lt a b = false -> lt b c = false -> lt a c = false.
Proof.
  unfold lt, SFltb, is_nan.
  destruct a as [sa|sa| |sa ma ea], b as [sb|sb| |sb mb eb],
           c as [sc|sc| |sc mc ec]; simpl; try congruence;
    intros Hb Hab Hbc; compare_cases.
Qed.

Lemma Float32_lt_not_nan (a b : float) :
  lt a b = true -> is_nan a = false /\ is_nan b = false.
Proof.
  unfold lt, SFltb. destruct a, b; simpl; try discriminate; auto.
Qed.

Lemma Float32_max_not_nan (a b : float) :
  is_nan a = false -> is_nan (max a b) = false.
Proof.
  intros Ha. unfold max. destruct (lt a b) eqn:Hlt; [|exact Ha].
  apply (Float32_lt_not_nan a b Hlt).
Qed.

Lemma Float32_max_r (a b : float) : lt a b = true -> max a b = b.
Proof. unfold max. intros ->. reflexivity. Qed.

Lemma Float32_max_l (a b : float) : lt a b = false -> max a b = a.
Proof. unfold max. intros ->. reflexivity. Qed.

Lemma running_max_not_nan (l : list float) :
  forall m, is_nan m = false -> is_nan (running_max l m) = false.
Proof.
  unfold running_max.
  induction l as [|v l IH]; intros m Hm; simpl; [exact Hm|].
  apply IH, Float32_max_not_nan, Hm.
Qed.

Lemma running_max_start (l : list float) :
  forall m, is_nan m = false -> lt (running_max l m) m = false.
Proof.
  unfold running_max.
  induction l as [|v l IH]; intros m Hm; simpl.
  - apply Float32_lt_irrefl.
  - specialize (IH (max m v) (Float32_max_not_nan m v Hm)).
    destruct (lt m v) eqn:Hmv.
    + rewrite (Float32_max_r _ _ Hmv) in *.
      destruct (lt (fold_left max l v) m) eqn:Hr; [|reflexivity].
      rewrite (Float32_lt_trans _ _ _ Hr Hmv) in IH. discriminate.
    + rewrite (Float32_max_l _ _ Hmv) in *. exact IH.
Qed.

Lemma running_max_upper (l : list float) :
  forall m v, is_nan m = false -> v ∈ l -> lt (running_max l m) v = false.
Proof.
  induction l as [|w l IH]; intros m v Hm Hv.
  - apply elem_of_nil in Hv. contradiction.
  - apply elem_of_cons in Hv.
    pose proof (Float32_max_not_nan m w Hm) as Hmax.
    change (running_max (w :: l) m) with (running_max l (max m w)).
    destruct Hv as [->|Hv]; [|apply IH; assumption].
    apply (Float32_lt_neg_trans _ (max m w) _ Hmax).
    + apply running_max_start, Hmax.
    + destruct (lt m w) eqn:Hmw.
      * rewrite (Float32_max_r _ _ Hmw). apply Float32_lt_irrefl.
      * rewrite (Float32_max_l _ _ Hmw). exact Hmw.
Qed.

Lemma running_max_attained (l : list float) :
  forall m, running_max l m = m \/ running_max l m ∈ l.
Proof.
  induction l as [|v l IH]; intros m; [left; reflexivity|].
  change (running_max (v :: l) m) with (running_max l (max m v)).
  destruct (IH (max m v)) as [Heq|Hin].
  - rewrite Heq. destruct (lt m v) eqn:Hmv.
    + rewrite (Float32_max_r _ _ Hmv). right. apply list_elem_of_here.
    + rewrite (Float32_max_l _ _ Hmv). left. reflexivity.
  - right. apply list_elem_of_further. exact Hin.
Qed.

End Float32Max.

Lemma Float32_le_not_lt (a b : float) :
  Float32.le a b -> Float32.lt b a = false.
Proof.
  unfold Float32.le, Float32.lt, SFltb.
  destruct a as [sa|sa| |sa ma ea], b as [sb|sb| |sb mb eb]; simpl;
    intros [Hab|Hab]; try congruence; compare_cases.
Qed.

(** ** Conversion of integers to [float]

    The conversion of an integer below [2^127] is characterised through the
    shifts and the rounding of [SpecFloat], and shown to be monotone. *)

Section Float32Conversion.
Import Float32.

Lemma digits2_pos_size (p : positive) : digits2_pos p = Pos.size p.
Proof. induction p as [p IH|p IH|]; simpl; rewrite ?IH; reflexivity. Qed.

Lemma Zdigits2_log2 (p : positive) :
  Zpos (digits2_pos p) = Z.log2 (Zpos p) + 1.
Proof.
  rewrite digits2_pos_size.
  destruct p as [p|p|]; cbn [Pos.size Z.log2]; lia.
Qed.

Lemma iter_pos_comm {A} (f : A -> A) (p : positive) :
  forall x, SpecFloat.iter_pos f p (f x) = f (SpecFloat.iter_pos f p x).
Proof.
  induction p as [p IH|p IH|]; intros x; simpl; [|  |reflexivity].
  - rewrite !IH. reflexivity.
  - rewrite !IH. reflexivity.
Qed.

Lemma iter_pos_succ {A} (f : A -> A) (p : positive) :
  forall x, SpecFloat.iter_pos f (Pos.succ p) x = f (SpecFloat.iter_pos f p x).
Proof.
  induction p as [p IH|p IH|]; intros x; simpl.
  - rewrite !IH. rewrite <- !iter_pos_comm. reflexivity.
  - rewrite !iter_pos_comm. reflexivity.
  - reflexivity.
Qed.

(** shr_1 on a non-negative mantissa *)
Lemma shr_1_nonneg (m : Z) (r s : bool) :
  0 <= m ->
  shr_1 {| shr_m := m; shr_r := r; shr_s := s |}
  = {| shr_m := m / 2; shr_r := Z.odd m; shr_s := r || s |}.
Proof.
  intros Hm. destruct m as [|p|p]; [reflexivity| |lia].
  destruct p as [p|p|]; simpl; f_equal.
  - rewrite Pos2Z.inj_xI. apply Z.div_unique with 1; lia.
  - rewrite Pos2Z.inj_xO. apply Z.div_unique with 0; lia.
Qed.

Lemma shifted_succ (m n : Z) :
  0 <= m -> 1 <= n -> shr_1 (shifted m n) = shifted m (n + 1).
Proof.
  intros Hm Hn. unfold shifted.
  assert (Hp : 0 < 2 ^ (n - 1)) by (apply Z.pow_pos_nonneg; lia).
  assert (H2 : 2 ^ n = 2 ^ (n - 1) * 2).
  { rewrite Z.mul_comm, <- Z.pow_succ_r by lia. f_equal. lia. }
  assert (H3 : 2 ^ (n + 1) = 2 ^ n * 2)
    by (rewrite Z.mul_comm, <- Z.pow_succ_r by lia; f_equal; lia).
  rewrite shr_1_nonneg by (apply Z.div_pos; lia).
  replace (n + 1 - 1) with n by lia.
  f_equal.
  - rewrite H3. rewrite Z.div_div by lia. reflexivity.
  - rewrite H2.
    rewrite (Z.rem_mul_r m (2 ^ (n - 1)) 2) by lia.
    rewrite Zmod_odd.
    pose proof (Z.mod_pos_bound m (2 ^ (n - 1)) Hp) as Hb.
    destruct (Z.odd (m / 2 ^ (n - 1))), (Z.eqb_spec (m mod 2 ^ (n - 1)) 0);
      simpl; symmetry; try (apply Z.eqb_eq; lia);
      try (apply negb_true_iff, Z.eqb_neq; lia);
      try (apply negb_false_iff, Z.eqb_eq; lia); try reflexivity.
Qed.

Lemma shifted_one (m : Z) :
  0 <= m ->
  shr_1 {| shr_m := m; shr_r := false; shr_s := false |} = shifted m 1.
Proof.
  intros Hm. rewrite shr_1_nonneg by exact Hm. unfold shifted. simpl.
  rewrite Z.div_1_r, Z.mod_1_r. reflexivity.
Qed.

Lemma iter_shr_1 (m : Z) (n : positive) :
  0 <= m ->
  SpecFloat.iter_pos shr_1 n {| shr_m := m; shr_r := false; shr_s := false |}
  = shifted m (Zpos n).
Proof.
  intros Hm. induction n as [|n IH] using Pos.peano_ind.
  - apply shifted_one, Hm.
  - rewrite iter_pos_succ, IH, shifted_succ by lia.
    f_equal. lia.
Qed.

Lemma round_nearest_even_shifted (m n : Z) :
  round_nearest_even (shr_m (shifted m n)) (loc_of_shr_record (shifted m n))
  = round_shifted m n.
Proof.
  unfold round_shifted, shifted. simpl.
  destruct (Z.odd (m / 2 ^ (n - 1))), (m mod 2 ^ (n - 1) =? 0); simpl;
    try reflexivity.
  rewrite <- Z.negb_even. destruct (Z.even (m / 2 ^ n)); reflexivity.
Qed.

Lemma round_shifted_mono (a b n : Z) :
  0 <= a <= b -> 1 <= n -> round_shifted a n <= round_shifted b n.
Proof.
  intros Hab Hn. unfold round_shifted.
  assert (Hp : 0 < 2 ^ (n - 1)) by (apply Z.pow_pos_nonneg; lia).
  assert (H2 : 2 ^ n = 2 ^ (n - 1) * 2).
  { rewrite Z.mul_comm, <- Z.pow_succ_r by lia. f_equal. lia. }
  set (h := 2 ^ (n - 1)) in *.
  assert (Hqa : a / 2 ^ n = a / h / 2) by (rewrite H2, Z.div_div; lia).
  assert (Hqb : b / 2 ^ n = b / h / 2) by (rewrite H2, Z.div_div; lia).
  rewrite Hqa, Hqb.
  pose proof (Z.div_mod a h ltac:(lia)) as Ha.
  pose proof (Z.div_mod b h ltac:(lia)) as Hb.
  pose proof (Z.mod_pos_bound a h Hp) as Hma.
  pose proof (Z.mod_pos_bound b h Hp) as Hmb.
  assert (Hle : a / h <= b / h) by (apply Z.div_le_mono; lia).
  pose proof (Z.div_mod (a / h) 2 ltac:(lia)) as Ha2.
  pose proof (Z.div_mod (b / h) 2 ltac:(lia)) as Hb2.
  rewrite !Zmod_odd in Ha2, Hb2.
  set (qa := a / h) in *. set (qb := b / h) in *.
  set (ta := a mod h) in *. set (tb := b mod h) in *.
  pose proof (Zmod_odd (qa / 2)) as Hoa. pose proof (Zmod_odd (qb / 2)) as Hob.
  pose proof (Z.mod_pos_bound (qa / 2) 2 ltac:(lia)) as Hba.
  pose proof (Z.mod_pos_bound (qb / 2) 2 ltac:(lia)) as Hbb.
  pose proof (Z.div_mod (qa / 2) 2 ltac:(lia)) as Ha4.
  pose proof (Z.div_mod (qb / 2) 2 ltac:(lia)) as Hb4.
  destruct (Z.odd qa), (Z.odd qb), (Z.eqb_spec ta 0), (Z.eqb_spec tb 0),
    (Z.odd (qa / 2)), (Z.odd (qb / 2)); simpl; try lia; try nia.
Qed.

Lemma pos_iter_xO (p k : positive) :
  Zpos (Pos.iter xO p k) = Zpos p * 2 ^ Zpos k.
Proof.
  induction k as [|k IH] using Pos.peano_ind.
  - simpl. lia.
  - rewrite Pos.iter_succ, Pos2Z.inj_xO, IH, Pos2Z.inj_succ, Z.pow_succ_r by lia.
    lia.
Qed.

Lemma fexp_digits (d : Z) : 1 <= d -> fexp 24 128 d = d - 24.
Proof. intros Hd. unfold fexp, emin. lia. Qed.

Lemma binary_round_aux_exact (m : positive) (e : Z) :
  Z.log2 (Zpos m) = 23 -> -149 <= e <= 104 ->
  binary_round_aux 24 128 false (Zpos m) e loc_Exact = S754_finite false m e.
Proof.
  intros Hm He.
  assert (Hf : fexp 24 128 (Zdigits2 (Zpos m) + e) - e = 0).
  { simpl Zdigits2. rewrite Zdigits2_log2, Hm. unfold fexp, emin. lia. }
  unfold binary_round_aux, shr_fexp. rewrite Hf. simpl shr.
  cbn [shr_m loc_of_shr_record round_nearest_even shr_record_of_loc].
  rewrite Hf. simpl.
  replace (e <=? 128 - 24) with true by (symmetry; apply Z.leb_le; lia).
  reflexivity.
Qed.

Lemma of_Z_small (z : Z) :
  0 < z -> Z.log2 z + 1 <= 24 ->
  of_Z z = S754_finite false (Z.to_pos (z * 2 ^ (24 - (Z.log2 z + 1))))
                       (Z.log2 z + 1 - 24).
Proof.
  intros Hz Hd. destruct z as [|p|p]; try lia.
  pose proof (Z.log2_nonneg (Zpos p)) as Hl.
  unfold of_Z, prec, emax, binary_normalize, binary_round.
  rewrite Z.add_0_r, Zdigits2_log2, fexp_digits by lia.
  unfold shl_align. rewrite Z.sub_0_r.
  destruct (Z.log2 (Zpos p) + 1 - 24) as [|k|k] eqn:Hk; try lia.
  - replace (24 - (Z.log2 (Z.pos p) + 1)) with 0 by lia.
    rewrite Z.mul_1_r. simpl Z.to_pos.
    apply binary_round_aux_exact; lia.
  - replace (24 - (Z.log2 (Z.pos p) + 1)) with (Zpos k) by lia.
    rewrite <- pos_iter_xO. simpl Z.to_pos.
    apply binary_round_aux_exact; [|lia].
    rewrite pos_iter_xO, Z.log2_mul_pow2 by lia. lia.
Qed.

Lemma Zdigits2_pos (m : Z) : 0 < m -> Zdigits2 m = Z.log2 m + 1.
Proof. intros Hm. destruct m as [|p|p]; try lia. apply Zdigits2_log2. Qed.

Lemma round_shifted_bounds (z : Z) :
  0 < z -> 24 < Z.log2 z + 1 ->
  2 ^ 23 <= round_shifted z (Z.log2 z + 1 - 24) <= 2 ^ 24.
Proof.
  intros Hz Hd. pose proof (Z.log2_spec z Hz) as [Hlo Hhi].
  set (n := Z.log2 z + 1 - 24) in *.
  assert (Hn : 0 < 2 ^ n) by (apply Z.pow_pos_nonneg; lia).
  assert (Hlo' : 2 ^ 23 * 2 ^ n <= z).
  { rewrite <- Z.pow_add_r by lia. replace (23 + n) with (Z.log2 z) by lia.
    exact Hlo. }
  assert (Hhi' : z < 2 ^ 24 * 2 ^ n).
  { rewrite <- Z.pow_add_r by lia. replace (24 + n) with (Z.succ (Z.log2 z)) by lia.
    exact Hhi. }
  assert (Hq : 2 ^ 23 <= z / 2 ^ n < 2 ^ 24).
  { split.
    - apply Z.div_le_lower_bound; lia.
    - apply Z.div_lt_upper_bound; lia. }
  unfold round_shifted.
  destruct (Z.odd (z / 2 ^ (n - 1))
            && (negb (z mod 2 ^ (n - 1) =? 0) || Z.odd (z / 2 ^ n))); lia.
Qed.

Lemma of_Z_large (z : Z) :
  0 < z -> 24 < Z.log2 z + 1 <= 127 ->
  of_Z z =
    let m := round_shifted z (Z.log2 z + 1 - 24) in
    if m <? 2 ^ 24
    then S754_finite false (Z.to_pos m) (Z.log2 z + 1 - 24)
    else S754_finite false (Z.to_pos (2 ^ 23)) (Z.log2 z + 1 - 24 + 1).
Proof.
  intros Hz Hd. pose proof (round_shifted_bounds z Hz ltac:(lia)) as Hm.
  destruct z as [|p|p]; try lia.
  unfold of_Z, prec, emax, binary_normalize, binary_round.
  rewrite Z.add_0_r, Zdigits2_log2, fexp_digits by lia.
  unfold shl_align. rewrite Z.sub_0_r.
  remember (Z.log2 (Zpos p) + 1 - 24) as n eqn:Hn.
  destruct n as [|n'|n']; try lia.
  unfold binary_round_aux.
  assert (H1 : shr_fexp 24 128 (Zpos p) 0 loc_Exact
               = (shifted (Zpos p) (Zpos n'), Zpos n')).
  { unfold shr_fexp. rewrite Z.add_0_r, Z.sub_0_r.
    simpl Zdigits2. rewrite Zdigits2_log2, fexp_digits by lia.
    rewrite <- Hn. unfold shr. simpl shr_record_of_loc.
    rewrite iter_shr_1 by lia. reflexivity. }
  rewrite H1, round_nearest_even_shifted.
  set (m := round_shifted (Zpos p) (Zpos n')) in *.
  cbv zeta.
  destruct (m <? 2 ^ 24) eqn:Hlt.
  - apply Z.ltb_lt in Hlt.
    assert (Hl : Z.log2 m = 23).
    { apply Z.log2_unique; [lia|]. simpl Z.succ. lia. }
    unfold shr_fexp. rewrite Zdigits2_pos, Hl by lia.
    replace (fexp 24 128 (23 + 1 + Zpos n') - Zpos n') with 0
      by (unfold fexp, emin; lia).
    simpl shr. cbn [shr_m shr_record_of_loc].
    destruct m as [|pm|pm]; try lia.
    replace (Zpos n' <=? 128 - 24) with true by (symmetry; apply Z.leb_le; lia).
    reflexivity.
  - apply Z.ltb_ge in Hlt. replace m with 16777216 by lia.
    unfold shr_fexp. change (Zdigits2 16777216) with 25.
    replace (fexp 24 128 (25 + Zpos n') - Zpos n') with 1
      by (unfold fexp, emin; lia).
    unfold shr. cbn [shr_record_of_loc SpecFloat.iter_pos].
    rewrite shr_1_nonneg by lia. cbn [shr_m].
    change (16777216 / 2) with 8388608. cbv iota beta.
    rewrite (proj2 (Z.leb_le (Zpos n' + 1) (128 - 24))) by lia.
    reflexivity.
Qed.

Lemma of_Z_nearest (z : Z) :
  0 < z < 2 ^ 127 ->
  of_Z z = S754_finite false (Z.to_pos (fst (nearest z))) (snd (nearest z)).
Proof.
  intros [Hz Hlt].
  assert (Hd : Z.log2 z + 1 <= 127) by (apply Z.log2_lt_pow2 in Hlt; lia).
  unfold nearest. destruct (Z.leb_spec (Z.log2 z + 1) 24) as [Hs|Hl].
  - apply of_Z_small; assumption.
  - rewrite of_Z_large by lia. cbv zeta.
    destruct (round_shifted z (Z.log2 z + 1 - 24) <? 2 ^ 24); reflexivity.
Qed.

Lemma nearest_mantissa (z : Z) :
  0 < z -> 2 ^ 23 <= fst (nearest z) < 2 ^ 24.
Proof.
  intros Hz. unfold nearest. pose proof (Z.log2_spec z Hz) as [Hlo Hhi].
  pose proof (Z.log2_nonneg z) as Hl.
  destruct (Z.leb_spec (Z.log2 z + 1) 24) as [Hs|Hg]; cbn [fst].
  - set (k := 24 - (Z.log2 z + 1)).
    assert (Hk : 0 < 2 ^ k) by (apply Z.pow_pos_nonneg; lia).
    assert (H23 : 2 ^ 23 = 2 ^ Z.log2 z * 2 ^ k).
    { rewrite <- Z.pow_add_r by lia. f_equal. lia. }
    assert (H24 : 2 ^ 24 = 2 ^ Z.succ (Z.log2 z) * 2 ^ k).
    { rewrite <- Z.pow_add_r by lia. f_equal. lia. }
    rewrite H23, H24. nia.
  - pose proof (round_shifted_bounds z Hz Hg) as Hb.
    destruct (Z.ltb_spec (round_shifted z (Z.log2 z + 1 - 24)) (2 ^ 24));
      cbn [fst]; lia.
Qed.

(** The exponent, then the mantissa, grow with the integer. *)
Lemma nearest_mono (a b : Z) :
  0 < a <= b ->
  snd (nearest a) < snd (nearest b)
  \/ (snd (nearest a) = snd (nearest b) /\ fst (nearest a) <= fst (nearest b)).
Proof.
  intros [Ha Hab].
  pose proof (Z.log2_le_mono a b Hab) as Hl.
  pose proof (Z.log2_nonneg a) as Hla.
  pose proof (nearest_mantissa a Ha) as Hma.
  pose proof (nearest_mantissa b ltac:(lia)) as Hmb.
  revert Hma Hmb. unfold nearest.
  destruct (Z.leb_spec (Z.log2 a + 1) 24) as [Hsa|Hga],
           (Z.leb_spec (Z.log2 b + 1) 24) as [Hsb|Hgb]; cbn [fst snd];
    try lia.
  - intros Hma Hmb.
    destruct (Z.eq_dec (Z.log2 a) (Z.log2 b)) as [He|Hne]; [|lia].
    right. rewrite He. split; [reflexivity|].
    apply Z.mul_le_mono_nonneg_r; [apply Z.pow_nonneg|]; lia.
  - intros Hma Hmb. left.
    destruct (round_shifted b (Z.log2 b + 1 - 24) <? 2 ^ 24); cbn [snd]; lia.
  - pose proof (round_shifted_bounds a Ha Hga) as Hba.
    pose proof (round_shifted_bounds b ltac:(lia) Hgb) as Hbb.
    destruct (Z.eq_dec (Z.log2 a) (Z.log2 b)) as [He|Hne].
    + rewrite He in *.
      pose proof (round_shifted_mono a b (Z.log2 b + 1 - 24) ltac:(lia) ltac:(lia))
        as Hmono.
      destruct (Z.ltb_spec (round_shifted a (Z.log2 b + 1 - 24)) (2 ^ 24)),
               (Z.ltb_spec (round_shifted b (Z.log2 b + 1 - 24)) (2 ^ 24));
        cbn [fst snd]; intros; lia.
    + destruct (Z.ltb_spec (round_shifted a (Z.log2 a + 1 - 24)) (2 ^ 24)),
               (Z.ltb_spec (round_shifted b (Z.log2 b + 1 - 24)) (2 ^ 24));
        cbn [fst snd]; intros; lia.
Qed.

Lemma of_Z_mono (a b : Z) :
  0 <= a <= b -> b < 2 ^ 127 -> Float32.le (of_Z a) (of_Z b).
Proof.
  intros [Ha Hab] Hb. unfold Float32.le.
  destruct (Z.eq_dec b 0) as [->|Hb0].
  { replace a with 0 by lia. right. reflexivity. }
  rewrite (of_Z_nearest b) by lia.
  destruct (Z.eq_dec a 0) as [->|Ha0]; [left; reflexivity|].
  rewrite (of_Z_nearest a) by lia.
  pose proof (nearest_mantissa a ltac:(lia)) as Hma.
  pose proof (nearest_mantissa b ltac:(lia)) as Hmb.
  cbn [SFcompare].
  destruct (nearest_mono a b ltac:(lia)) as [Hlt|[Heq Hle]].
  - left. apply Z.compare_lt_iff in Hlt. rewrite Hlt. reflexivity.
  - apply Z.compare_eq_iff in Heq. rewrite Heq.
    change (Pos.compare_cont Eq ?x ?y) with (Pos.compare x y).
    destruct (Pos.compare_spec (Z.to_pos (fst (nearest a)))
                               (Z.to_pos (fst (nearest b)))) as [c|c|c];
      [right; reflexivity|left; reflexivity|lia].
Qed.

End Float32Conversion.

(** A comparison [c > threshold] of a converted [size_t] with a float
    that is the conversion of the integer [n] is the comparison of the
    integers. *)
Lemma Float32_gt_of_Z (c n : Z) :
  0 <= c < 2 ^ 64 -> 0 <= n < 2 ^ 64 - 1 ->
  Float32.lt (Float32.of_Z n) (Float32.of_Z (n + 1)) = true ->
  Float32.gt (Float32.of_Z c) (Float32.of_Z n) = (n <? c).
Proof.
  intros Hc Hn Hnext. unfold Float32.gt. fold (Float32.lt (Float32.of_Z n) (Float32.of_Z c)).
  destruct (Z.ltb_spec n c) as [Hlt|Hge].
  - apply (Float32_lt_le_trans _ _ _ Hnext).
    apply of_Z_mono; lia.
  - apply Float32_le_not_lt, of_Z_mono; lia.
Qed.

(** A comparison [c < threshold] of a converted [size_t] with a float
    that is the conversion of the integer [n] is the comparison of the
    integers. *)
Lemma Float32_lt_of_Z (c n : Z) :
  0 <= c < 2 ^ 64 -> 0 < n < 2 ^ 64 ->
  Float32.lt (Float32.of_Z (n - 1)) (Float32.of_Z n) = true ->
  Float32.lt (Float32.of_Z c) (Float32.of_Z n) = (c <? n).
Proof.
  intros Hc Hn Hprev. destruct (Z.ltb_spec c n) as [Hlt|Hge].
  - apply (Float32_le_lt_trans _ (Float32.of_Z (n - 1))); [|exact Hprev].
    apply of_Z_mono; lia.
  - apply Float32_le_not_lt, of_Z_mono; lia.
Qed.

(** ** InitialState *)

Section InitialStateProperties.
Context {K : Aec3Common}.
Import InitialState.

Lemma Float32_of_Z_size_t_mono (a b : Z) :
  0 <= a <= b -> b < 2 ^ 64 -> Float32.le (Float32.of_Z a) (Float32.of_Z b).
Proof. intros Hab Hb. apply of_Z_mono; lia. Qed.

(** Once the counter is not below the threshold it stays so while it
    grows. *)
Lemma InitialState_below_threshold_mono (conservative : bool) (seconds : float)
    (c c' : Z) :
  0 <= c <= c' -> c' < 2 ^ 64 ->
  below_threshold conservative seconds c' = true ->
  below_threshold conservative seconds c = true.
Proof.
  intros Hc Hc'. unfold below_threshold. destruct conservative.
  - intros Hlt. apply Z.ltb_lt in Hlt. apply Z.ltb_lt. lia.
  - apply Float32_le_lt_trans, Float32_of_Z_size_t_mono; assumption.
Qed.

Lemma count_filter_updates_app (l1 l2 : list (bool * bool)) :
  count_filter_updates (l1 ++ l2)
  = count_filter_updates l1 + count_filter_updates l2.
Proof.
  induction l1 as [|[a c] l1 IH]; simpl; [reflexivity|]. rewrite IH. lia.
Qed.

Lemma count_filter_updates_range (l : list (bool * bool)) :
  0 <= count_filter_updates l <= Z.of_nat (length l).
Proof.
  induction l as [|[a c] l IH]; simpl; [lia|].
  pose proof (b2z_range (a && negb c)). lia.
Qed.

Lemma InitialState_run_snoc (s : t) (calls : list (bool * bool)) (c : bool * bool) :
  run s (calls ++ [c]) = Update (run s calls) (fst c) (snd c).
Proof. unfold run. rewrite fold_left_app. reflexivity. Qed.

Lemma InitialState_run_app (s : t) (l1 l2 : list (bool * bool)) :
  run s (l1 ++ l2) = run (run s l1) l2.
Proof. unfold run. apply fold_left_app. Qed.

Lemma InitialState_run_config (calls : list (bool * bool)) :
  forall s,
    conservative_initial_phase_ (run s calls) = conservative_initial_phase_ s
    /\ initial_state_seconds_ (run s calls) = initial_state_seconds_ s.
Proof.
  unfold run. induction calls as [|c calls IH]; intros s; simpl; [auto|].
  destruct (IH (Update s (fst c) (snd c))) as [-> ->]. auto.
Qed.

(** The counter counts the filter-update blocks. *)
Lemma InitialState_run_counter (calls : list (bool * bool)) :
  forall s,
    0 <= strong_not_saturated_render_blocks_ s ->
    strong_not_saturated_render_blocks_ s + Z.of_nat (length calls) < 2 ^ 64 ->
    strong_not_saturated_render_blocks_ (run s calls)
    = strong_not_saturated_render_blocks_ s + count_filter_updates calls.
Proof.
  unfold run. induction calls as [|[a c] calls IH]; intros s H0 Hlen.
  - simpl. lia.
  - cbn [fold_left count_filter_updates fst snd].
    rewrite length_cons, Nat2Z.inj_succ in Hlen.
    pose proof (b2z_range (a && negb c)).
    assert (Hstep : strong_not_saturated_render_blocks_ (Update s a c)
                    = strong_not_saturated_render_blocks_ s
                      + b2z (a && negb c)).
    { cbn [Update strong_not_saturated_render_blocks_].
      apply size_t_add_small; lia. }
    rewrite IH; rewrite Hstep; lia.
Qed.

(** After at least one update the flag is the comparison of the counter
    with the threshold. *)
Lemma InitialState_active_after (s : t) (calls : list (bool * bool)) :
  initial_state_ s = true ->
  initial_state_ (run s calls)
  = match calls with
    | [] => true
    | _ => below_threshold (conservative_initial_phase_ s)
             (initial_state_seconds_ s)
             (strong_not_saturated_render_blocks_ (run s calls))
    end.
Proof.
  intros Hs. destruct calls as [|c calls] using rev_ind; [exact Hs|].
  rewrite InitialState_run_snoc.
  destruct (InitialState_run_config calls s) as [Hc Hsec].
  destruct (calls ++ [c]) eqn:Happ; [destruct calls; discriminate|].
  cbn [Update initial_state_ strong_not_saturated_render_blocks_].
  rewrite Hc, Hsec. reflexivity.
Qed.

End InitialStateProperties.

Section InitialStateTransition.
Context {K : Aec3Common}.
Import InitialState.

Lemma count_filter_updates_prefix (p l : list (bool * bool)) :
  nonempty_prefix p l -> 0 <= count_filter_updates p <= count_filter_updates l.
Proof.
  intros [_ [q ->]]. rewrite count_filter_updates_app.
  pose proof (count_filter_updates_range p).
  pose proof (count_filter_updates_range q). lia.
Qed.

(** The state after the updates [calls] that follow a [Reset]. *)
Lemma InitialState_after_Reset (s0 : t) (calls : list (bool * bool)) :
  Z.of_nat (length calls) < 2 ^ 64 ->
  strong_not_saturated_render_blocks_ (run (Reset s0) calls)
  = count_filter_updates calls
  /\ initial_state_ (run (Reset s0) calls)
     = match calls with
       | [] => true
       | _ => below_threshold (conservative_initial_phase_ s0)
                (initial_state_seconds_ s0) (count_filter_updates calls)
       end.
Proof.
  intros Hlen.
  assert (Hcount : strong_not_saturated_render_blocks_ (run (Reset s0) calls)
                   = count_filter_updates calls).
  { rewrite InitialState_run_counter; cbn [Reset strong_not_saturated_render_blocks_];
      lia. }
  split; [exact Hcount|].
  rewrite InitialState_active_after by reflexivity.
  rewrite Hcount. reflexivity.
Qed.

(** The flags after the updates that follow a [Reset], in terms of the
    comparison that [Update] makes. *)
Lemma InitialState_after_Reset_transition
    (s0 : t) (pre : list (bool * bool)) (c : bool * bool) :
  Z.of_nat (length (pre ++ [c])) < 2 ^ 64 ->
  let below :=
    below_threshold (conservative_initial_phase_ s0) (initial_state_seconds_ s0) in
  let s' := run (Reset s0) (pre ++ [c]) in
  strong_not_saturated_render_blocks_ s' = count_filter_updates (pre ++ [c])
  /\ count_filter_updates (pre ++ [c])
     = count_filter_updates pre + b2z (fst c && negb (snd c))
  /\ initial_state_ s' = below (count_filter_updates (pre ++ [c]))
  /\ (transition_triggered_ s' = true <->
      below (count_filter_updates (pre ++ [c])) = false
      /\ forall p, nonempty_prefix p pre ->
                   below (count_filter_updates p) = true)
  /\ (transition_triggered_ s' = true ->
      forall post,
        post <> [] ->
        Z.of_nat (length ((pre ++ [c]) ++ post)) < 2 ^ 64 ->
        transition_triggered_ (run s' post) = false).
Proof.
  intros Hlen below s'.
  assert (Hpre : Z.of_nat (length pre) < 2 ^ 64)
    by (rewrite length_app in Hlen; lia).
  destruct (InitialState_after_Reset s0 (pre ++ [c]) Hlen) as [Hcnt Hact].
  destruct (InitialState_after_Reset s0 pre Hpre) as [Hcnt0 Hact0].
  assert (Hne : forall (l : list (bool * bool)) x, l ++ [x] <> [])
    by (intros [|? ?] ? ?; discriminate).
  assert (Hact' : initial_state_ s' = below (count_filter_updates (pre ++ [c]))).
  { subst s'. rewrite Hact. destruct (pre ++ [c]) eqn:E; [|reflexivity].
    exfalso. eapply Hne, E. }
  assert (Htrans : transition_triggered_ s'
                   = negb (below (count_filter_updates (pre ++ [c])))
                     && initial_state_ (run (Reset s0) pre)).
  { rewrite <- Hact'. subst s'. rewrite InitialState_run_snoc. reflexivity. }
  split; [exact Hcnt|]. split.
  { rewrite count_filter_updates_app. destruct c as [a sat]. simpl. lia. }
  split; [exact Hact'|].
  assert (Hrange : 0 <= count_filter_updates (pre ++ [c]) < 2 ^ 64).
  { pose proof (count_filter_updates_range (pre ++ [c])). lia. }
  split; [split|].
  - rewrite Htrans. intros Ht. apply andb_prop in Ht. destruct Ht as [Hb Hi].
    apply negb_true_iff in Hb. split; [exact Hb|].
    intros p Hp. destruct pre as [|x pre'].
    + destruct Hp as [Hp [q Hq]]. symmetry in Hq.
      apply app_eq_nil in Hq. destruct Hq. contradiction.
    + rewrite Hact0 in Hi.
      pose proof (count_filter_updates_prefix p _ Hp) as Hle.
      pose proof (count_filter_updates_range (x :: pre')) as Hr.
      eapply InitialState_below_threshold_mono; [| |exact Hi]; lia.
  - intros [Hb Hall]. rewrite Htrans, Hb, Hact0. simpl.
    destruct pre as [|x pre']; [reflexivity|].
    apply Hall. split; [discriminate|]. exists []. rewrite app_nil_r. reflexivity.
  - rewrite Htrans. intros Ht post Hpost Hlen'.
    apply andb_prop in Ht. destruct Ht as [Hb _]. apply negb_true_iff in Hb.
    destruct post as [|x post'] using rev_ind; [contradiction|]. clear IHpost'.
    subst s'. rewrite <- InitialState_run_app, app_assoc, InitialState_run_snoc.
    cbn [Update transition_triggered_].
    assert (Hlen2 : Z.of_nat (length ((pre ++ [c]) ++ post')) < 2 ^ 64).
    { rewrite app_assoc, length_app in Hlen'. simpl in Hlen'. lia. }
    destruct (InitialState_after_Reset s0 ((pre ++ [c]) ++ post') Hlen2)
      as [_ Hact2].
    assert (Hfalse : below (count_filter_updates ((pre ++ [c]) ++ post')) = false).
    { destruct (below (count_filter_updates ((pre ++ [c]) ++ post'))) eqn:Hb2;
        [|reflexivity].
      rewrite <- Hb. symmetry.
      pose proof (count_filter_updates_range ((pre ++ [c]) ++ post')) as Hr.
      pose proof (count_filter_updates_range post') as Hr'.
      eapply InitialState_below_threshold_mono; [| |exact Hb2].
      - rewrite (count_filter_updates_app (pre ++ [c]) post'). lia.
      - lia. }
    rewrite Hact2.
    destruct ((pre ++ [c]) ++ post') eqn:E.
    { exfalso. apply app_eq_nil in E. destruct E as [E _]. eapply Hne, E. }
    fold below. rewrite Hfalse. apply andb_false_r.
Qed.

(** The comparison of [Update], written out: the integer comparison with
    [5 * kNumBlocksPerSecond], which does not wrap, or the [float]
    comparison with [initial_state_seconds_ * kNumBlocksPerSecond]. *)
Lemma InitialState_below_threshold_explicit
    (conservative : bool) (seconds : float) (counter : Z) :
  below_threshold conservative seconds counter
  = if conservative
    then counter <? 5 * kNumBlocksPerSecond
    else Float32.lt (Float32.of_Z counter)
           (Float32.mul seconds (Float32.of_Z kNumBlocksPerSecond)).
Proof.
  unfold below_threshold. rewrite size_t_mul_const by lia. reflexivity.
Qed.

(** C5. After a [Reset] and along every sequence of updates (shorter than
    [2^64]): the counter is the number of updates with [active_render] and
    without [saturated_capture]; [initial_state_] is true exactly while
    the counter is below the threshold, which is
    [5 * kNumBlocksPerSecond] (compared as integers) when
    [conservative_initial_phase_] is set and
    [initial_state_seconds_ * kNumBlocksPerSecond] (compared as [float]s)
    otherwise; [transition_triggered_] is true on the first update whose
    counter is not below the threshold, and only there: it is false on
    every later update. *)
Theorem InitialState_transition_once
    (s0 : t) (pre : list (bool * bool)) (c : bool * bool) :
  Z.of_nat (length (pre ++ [c])) < 2 ^ 64 ->
  let below := fun counter : Z =>
    if conservative_initial_phase_ s0
    then counter <? 5 * kNumBlocksPerSecond
    else Float32.lt (Float32.of_Z counter)
           (Float32.mul (initial_state_seconds_ s0)
                        (Float32.of_Z kNumBlocksPerSecond)) in
  let s' := run (Reset s0) (pre ++ [c]) in
  strong_not_saturated_render_blocks_ s' = count_filter_updates (pre ++ [c])
  /\ count_filter_updates (pre ++ [c])
     = count_filter_updates pre + b2z (fst c && negb (snd c))
  /\ initial_state_ s' = below (count_filter_updates (pre ++ [c]))
  /\ (transition_triggered_ s' = true <->
      below (count_filter_updates (pre ++ [c])) = false
      /\ forall p, nonempty_prefix p pre ->
                   below (count_filter_updates p) = true)
  /\ (transition_triggered_ s' = true ->
      forall post,
        post <> [] ->
        Z.of_nat (length ((pre ++ [c]) ++ post)) < 2 ^ 64 ->
        transition_triggered_ (run s' post) = false).
Proof.
  intros Hlen below s'.
  assert (Hbelow : forall counter,
             below_threshold (conservative_initial_phase_ s0)
                             (initial_state_seconds_ s0) counter
             = below counter)
    by (intros counter; apply InitialState_below_threshold_explicit).
  destruct (InitialState_after_Reset_transition s0 pre c Hlen)
    as (Hcount & Hsplit & Hactive & Htrans & Hlater).
  fold s' in Hcount, Hactive, Htrans, Hlater.
  split; [exact Hcount|]. split; [exact Hsplit|].
  split; [rewrite <- Hbelow; exact Hactive|].
  split; [|exact Hlater].
  rewrite Htrans, Hbelow. split.
  - intros [Hnow Hbefore]. split; [exact Hnow|].
    intros p Hp. rewrite <- Hbelow. apply Hbefore, Hp.
  - intros [Hnow Hbefore]. split; [exact Hnow|].
    intros p Hp. rewrite Hbelow. apply Hbefore, Hp.
Qed.

End InitialStateTransition.

(** C5, at an input: with 2.5 seconds of initial state at 250 blocks per
    second the threshold is 625 blocks, and the 625th active block ends
    the initial state and triggers the transition; in the conservative
    initial phase the threshold is 1250 blocks whatever the seconds are,
    and it is the 1250th active block that does so. *)
Lemma InitialState_transition_once_witness :
  let s' := InitialState.run (K := webrtc_constants)
              (InitialState.Reset (InitialState.init default_config))
              (active_blocks ++ [(true, false)]) in
  let c' := InitialState.run (K := webrtc_constants)
              (InitialState.Reset (InitialState.init conservative_config))
              (conservative_blocks ++ [(true, false)]) in
  (InitialState.strong_not_saturated_render_blocks_ s' = 625
   /\ InitialState.initial_state_ s' = false
   /\ InitialState.transition_triggered_ s' = true)
  /\ (InitialState.strong_not_saturated_render_blocks_ c' = 1250
      /\ InitialState.initial_state_ c' = false
      /\ InitialState.initial_state_
           (InitialState.run (K := webrtc_constants)
              (InitialState.Reset (InitialState.init conservative_config))
              conservative_blocks) = true
      /\ InitialState.transition_triggered_ c' = true).
Proof.
  pose proof (InitialState_transition_once (K := webrtc_constants)
                (InitialState.init default_config) active_blocks (true, false)
                eq_refl) as (Hcount & _ & Hactive & _ & _).
  pose proof (InitialState_transition_once (K := webrtc_constants)
                (InitialState.init conservative_config) conservative_blocks
                (true, false) eq_refl) as (Hcount' & _ & Hactive' & _ & _).
  cbv zeta. rewrite Hcount, Hactive, Hcount', Hactive'.
  vm_compute. repeat split.
Defined.

(** Around the threshold: the transition is triggered on the 625th block,
    not on the blocks before it nor on those after it. *)
Lemma InitialState_transition_at_625 :
  map (fun n => InitialState.transition_triggered_
                  (InitialState.run (K := webrtc_constants)
                     (InitialState.init default_config)
                     (replicate n (true, false))))
      (seq 621 8)
  = [false; false; false; false; true; false; false; false].
Proof. vm_compute. reflexivity. Qed.

(** At 250 blocks per second and with the default 2.5 seconds of initial
    state, the threshold of [InitialState] is 625 blocks. *)
Lemma InitialState_below_threshold_webrtc (c : Z) :
  0 <= c < 2 ^ 64 ->
  InitialState.below_threshold (K := webrtc_constants) false
    (filter_initial_state_seconds default_config) c
  = (c <? 625).
Proof.
  intros Hc. unfold InitialState.below_threshold.
  change (Float32.mul (filter_initial_state_seconds default_config)
                      (Float32.of_Z kNumBlocksPerSecond))
    with (Float32.of_Z 625).
  apply Float32_lt_of_Z; [lia|lia|reflexivity].
Qed.

(** ** FilterDelay *)

Section FilterDelayProperties.
Context {K : Aec3Common} {C : Collaborators}.
Import FilterDelay.

Lemma FilterDelay_min_delay_spec (others : list FilterAnalyzer) :
  forall first,
    is_minimum (min_delay first others) (map DelayBlocks (first :: others)).
Proof.
  unfold min_delay, is_minimum.
  induction others as [|fa others IH] using rev_ind; intros first.
  - simpl. split; [apply list_elem_of_here|].
    intros x Hx. apply list_elem_of_singleton in Hx. lia.
  - rewrite fold_left_app. cbn [fold_left].
    destruct (IH first) as [Hin Hle].
    rewrite app_comm_cons, map_app. cbn [map]. split.
    + apply elem_of_app.
      destruct (Z.min_spec (fold_left (fun d a => Z.min d (DelayBlocks a))
                                      others (DelayBlocks first))
                           (DelayBlocks fa)) as [[_ ->]|[_ ->]].
      * left. exact Hin.
      * right. apply list_elem_of_here.
    + intros x Hx. apply elem_of_app in Hx. destruct Hx as [Hx|Hx].
      * specialize (Hle x Hx). lia.
      * apply list_elem_of_singleton in Hx. lia.
Qed.

Lemma FilterDelay_headroom_blocks_nonneg (h : Z) :
  0 <= h < 2 ^ 31 -> headroom_blocks h = h / kBlockSize.
Proof.
  intros Hh. pose proof kBlockSize_range as Hb. unfold headroom_blocks.
  rewrite size_t_wrap_small by (unfold is_size_t, size_t_modulus; lia).
  apply int_wrap_small. unfold is_int.
  assert (0 <= h / kBlockSize) by (apply Z.div_pos; lia).
  assert (h / kBlockSize <= h) by (apply Z.div_le_upper_bound; nia).
  lia.
Qed.

(** One call: when it succeeds and what it stores. *)
Lemma FilterDelay_Update_spec (s : t) (a : args) :
  filter_analyzers a <> [] ->
  exists s',
    Update_with s a = Some s'
    /\ delay_headroom_samples_ s' = delay_headroom_samples_ s
    /\ has_value (external_delay_ s')
       = has_value (external_delay_ s) || has_value (external_delay a)
    /\ (if (blocks_with_proper_filter_adaptation a <? 2 * kNumBlocksPerSecond)
           && has_value (external_delay_ s')
        then filter_delay_blocks_ s'
             = headroom_blocks (delay_headroom_samples_ s)
        else is_minimum (filter_delay_blocks_ s')
                        (map DelayBlocks (filter_analyzers a))).
Proof.
  intros Hne. unfold Update_with, Update.
  rewrite size_t_mul_const by lia.
  set (latch := match external_delay a with
                | Some e => latches (external_delay_ s) e
                | None => false
                end).
  set (ext' := if latch then external_delay a else external_delay_ s).
  assert (Hext : has_value ext'
                 = has_value (external_delay_ s) || has_value (external_delay a)).
  { subst ext' latch. unfold latches.
    destruct (external_delay a) as [e|], (external_delay_ s) as [e0|]; simpl;
      try reflexivity.
    destruct (negb (delay e0 =? delay e)); reflexivity. }
  rewrite bool_decide_is_Some.
  destruct ((blocks_with_proper_filter_adaptation a <? 2 * kNumBlocksPerSecond)
            && has_value ext') eqn:Hc; simpl.
  - eexists. split; [reflexivity|]. cbn [delay_headroom_samples_ external_delay_
      filter_delay_blocks_]. rewrite Hc. auto.
  - destruct (filter_analyzers a) as [|first others]; [congruence|].
    eexists. split; [reflexivity|]. cbn [delay_headroom_samples_ external_delay_
      filter_delay_blocks_]. rewrite Hc.
    split; [reflexivity|]. split; [exact Hext|].
    apply FilterDelay_min_delay_spec.
Qed.

(** A sequence of calls, each with at least one analyzer, succeeds; the
    headroom is the configured one and an external delay is stored at the
    end exactly if one was stored at the start or came with a call. *)
Lemma FilterDelay_run_spec (calls : list args) :
  forall s,
    Forall (fun c => filter_analyzers c <> []) calls ->
    exists s',
      run s calls = Some s'
      /\ delay_headroom_samples_ s' = delay_headroom_samples_ s
      /\ has_value (external_delay_ s')
         = has_value (external_delay_ s)
           || existsb (fun c => has_value (external_delay c)) calls.
Proof.
  induction calls as [|c calls IH]; intros s Hne.
  - exists s. simpl. rewrite orb_false_r. auto.
  - inversion Hne as [|? ? Hc Hcalls]; subst.
    destruct (FilterDelay_Update_spec s c Hc) as (s1 & Hs1 & Hh1 & He1 & _).
    destruct (IH s1 Hcalls) as (s' & Hs' & Hh' & He').
    exists s'. simpl. rewrite Hs1. simpl. split; [exact Hs'|].
    split; [congruence|]. rewrite He', He1, orb_assoc. reflexivity.
Qed.

Lemma FilterDelay_run_snoc (calls : list args) (a : args) :
  forall s, run s (calls ++ [a]) = s' ← run s calls; Update_with s' a.
Proof.
  induction calls as [|c calls IH]; intros s; simpl.
  - destruct (Update_with s a); reflexivity.
  - destruct (Update_with s c) as [s1|]; simpl; [apply IH|reflexivity].
Qed.

(** C3. After every call of [FilterDelay::Update] with at least one
    filter analyzer (the calls before it having had one as well): if
    [blocks_with_proper_filter_adaptation < 2 * kNumBlocksPerSecond] and an
    external delay was latched, by this call or by any call before it,
    [filter_delay_blocks_] is [delay_headroom_samples_ / kBlockSize]
    whatever the analyzers report; otherwise it is the minimum of
    [DelayBlocks()] over the analyzers of the call.  The quotient is the
    one of the integers when the headroom is not negative. *)
Theorem FilterDelay_Update_selects (s : t) (calls : list args) (a : args) :
  Forall (fun c => filter_analyzers c <> []) (calls ++ [a]) ->
  exists s',
    run s (calls ++ [a]) = Some s'
    /\ (if (blocks_with_proper_filter_adaptation a <? 2 * kNumBlocksPerSecond)
           && (has_value (external_delay_ s)
               || existsb (fun c => has_value (external_delay c)) (calls ++ [a]))
        then filter_delay_blocks_ s'
             = headroom_blocks (delay_headroom_samples_ s)
        else is_minimum (filter_delay_blocks_ s')
                        (map DelayBlocks (filter_analyzers a)))
    /\ (0 <= delay_headroom_samples_ s < 2 ^ 31 ->
        headroom_blocks (delay_headroom_samples_ s)
        = delay_headroom_samples_ s / kBlockSize).
Proof.
  intros Hne. apply Forall_app in Hne. destruct Hne as [Hcalls Ha].
  apply Forall_inv in Ha.
  destruct (FilterDelay_run_spec calls s Hcalls) as (s1 & Hs1 & Hh1 & He1).
  destruct (FilterDelay_Update_spec s1 a Ha) as (s' & Hs' & _ & He' & Hsel).
  exists s'. rewrite FilterDelay_run_snoc, Hs1. simpl.
  split; [exact Hs'|]. split; [|apply FilterDelay_headroom_blocks_nonneg].
  rewrite existsb_app. simpl. rewrite orb_false_r, orb_assoc, <- He1, <- He', <- Hh1.
  exact Hsel.
Qed.

End FilterDelayProperties.

(** C3, at an input: an external delay came with the first call; the
    second call, after 600 blocks of proper adaptation (more than two
    seconds of 250 blocks), takes the minimum 2 of the delays 4, 2, 7. *)
Lemma FilterDelay_Update_selects_witness :
  exists s',
    FilterDelay.run (K := webrtc_constants)
      (FilterDelay.init default_config)
      (sample_delay_calls ++ [sample_delay_call]) = Some s'
    /\ is_minimum (FilterDelay.filter_delay_blocks_ s') [4; 2; 7].
Proof.
  destruct (FilterDelay_Update_selects (K := webrtc_constants)
              (FilterDelay.init default_config)
              sample_delay_calls sample_delay_call) as (s' & Hrun & Hsel & _).
  - repeat constructor; discriminate.
  - exists s'. split; [exact Hrun|exact Hsel].
Defined.

(** ** TransparentMode *)

Section TransparentModeProperties.
Context {K : Aec3Common}.
Import TransparentMode.

Lemma TransparentMode_run_snoc s calls a :
  run s (calls ++ [a]) = Update (run s calls) a.
Proof. unfold run. rewrite fold_left_app. reflexivity. Qed.

Lemma TransparentMode_Update_bounded_erl s a :
  bounded_erl_ (Update s a) = bounded_erl_ s.
Proof. reflexivity. Qed.

Lemma TransparentMode_run_bounded_erl calls :
  forall s, bounded_erl_ (run s calls) = bounded_erl_ s.
Proof.
  unfold run. induction calls as [|a calls IH]; intros s; simpl; [reflexivity|].
  rewrite IH. reflexivity.
Qed.

(** One call: the flag written is the priority chain read on the members
    as the call leaves them. *)
Lemma TransparentMode_Update_decision s a :
  transparency_activated_ (Update s a) = decision (Update s a).
Proof.
  unfold decision, sane_filter_recently_seen_in, Update; cbn [transparency_activated_
    bounded_erl_ finite_erl_recently_detected_ sane_filter_observed_
    capture_block_counter_ active_blocks_since_sane_filter_
    recent_convergence_during_activity_ strong_not_saturated_render_blocks_].
  unfold sane_filter_recently_seen.
  rewrite !size_t_mul_const by lia. reflexivity.
Qed.

(** C1. After every call of [TransparentMode::Update], whatever calls came
    before it, [transparency_activated_] is the priority chain
    [decision]: false if [bounded_erl_], else false if
    [finite_erl_recently_detected_], else false if the filter was sane
    recently and converged recently during activity, else
    [strong_not_saturated_render_blocks_ > 6 * kNumBlocksPerSecond].
    With [bounded_erl_] set it is therefore false after every update of
    every input sequence. *)
Theorem TransparentMode_transparency_activated s calls a :
  let s' := run s (calls ++ [a]) in
  transparency_activated_ s' = decision s'
  /\ transparency_activated_ s'
     = (if bounded_erl_ s then false
        else if finite_erl_recently_detected_ s' then false
        else if sane_filter_recently_seen_in s'
                && recent_convergence_during_activity_ s' then false
        else strong_not_saturated_render_blocks_ s' >? 6 * kNumBlocksPerSecond)
  /\ (bounded_erl_ s = true -> transparency_activated_ s' = false).
Proof.
  intros s'. subst s'. rewrite TransparentMode_run_snoc.
  set (s0 := run s calls).
  assert (Hb : bounded_erl_ s0 = bounded_erl_ s)
    by apply TransparentMode_run_bounded_erl.
  pose proof (TransparentMode_Update_decision s0 a) as Hd.
  split; [exact Hd|]. split.
  - rewrite Hd. unfold decision.
    rewrite TransparentMode_Update_bounded_erl, Hb. reflexivity.
  - intros Htrue. rewrite Hd. unfold decision.
    rewrite TransparentMode_Update_bounded_erl, Hb, Htrue. reflexivity.
Qed.

(** C7 (corrected). [TransparentMode::Reset] sets
    [non_converged_sequence_size_] to 10000, zeroes
    [diverged_sequence_size_] and [strong_not_saturated_render_blocks_],
    clears [recent_convergence_during_activity_] when the
    linear-and-stable-echo-path flag is set and keeps it otherwise, and
    leaves every other member as it was, [active_blocks_since_sane_filter_]
    included. *)
Theorem TransparentMode_Reset_effect s :
  let s' := Reset s in
  non_converged_sequence_size_ s' = 10000
  /\ diverged_sequence_size_ s' = 0
  /\ strong_not_saturated_render_blocks_ s' = 0
  /\ recent_convergence_during_activity_ s'
     = (if linear_and_stable_echo_path_ s then false
        else recent_convergence_during_activity_ s)
  /\ active_blocks_since_sane_filter_ s' = active_blocks_since_sane_filter_ s
  /\ bounded_erl_ s' = bounded_erl_ s
  /\ linear_and_stable_echo_path_ s' = linear_and_stable_echo_path_ s
  /\ capture_block_counter_ s' = capture_block_counter_ s
  /\ transparency_activated_ s' = transparency_activated_ s
  /\ sane_filter_observed_ s' = sane_filter_observed_ s
  /\ finite_erl_recently_detected_ s' = finite_erl_recently_detected_ s
  /\ active_non_converged_sequence_size_ s'
     = active_non_converged_sequence_size_ s
  /\ num_converged_blocks_ s' = num_converged_blocks_ s.
Proof. cbv zeta. repeat split. Qed.

End TransparentModeProperties.

(** C1, at an input: a tracker configured with a bounded ERL, after three
    blocks. *)
Lemma TransparentMode_transparency_activated_witness :
  let s := TransparentMode.init
             {| filter_conservative_initial_phase := false;
                filter_initial_state_seconds := Float32.one;
                filter_use_linear_filter := true;
                delay_delay_headroom_samples := 32;
                ep_strength_bounded_erl := true;
                echo_removal_control_linear_and_stable_echo_path := false;
                echo_audibility_use_stationarity_properties := false;
                echo_audibility_use_stationarity_properties_at_init := false;
                render_levels_active_render_limit := Float32.one;
                erle_onset_detection := true |} in
  TransparentMode.transparency_activated_
    (TransparentMode.run (K := webrtc_constants) s
       ([sane_block; sane_block] ++ [sane_block])) = false.
Proof.
  intros s.
  apply (TransparentMode_transparency_activated (K := webrtc_constants)
           s [sane_block; sane_block] sane_block).
  reflexivity.
Defined.

(** C7 as the specification words it does not hold: after a block with a
    sane filter [active_blocks_since_sane_filter_] is 0, and [Reset]
    leaves it at 0 instead of putting the 10000 sentinel back. *)
Lemma TransparentMode_Reset_keeps_sane_filter_age :
  TransparentMode.active_blocks_since_sane_filter_
    (TransparentMode.Reset
       (TransparentMode.Update (K := webrtc_constants)
          (TransparentMode.init default_config) sane_block))
  <> kBlocksSinceConsistentEstimateInit.
Proof. vm_compute. discriminate. Qed.

(** ** FilteringQualityAnalyzer *)

Section FilteringQualityAnalyzerProperties.
Context {K : Aec3Common}.
Import FilteringQualityAnalyzer.

Lemma FilteringQualityAnalyzer_run_snoc (s : t) (calls : list call) (c : call) :
  run s (calls ++ [c]) = step (run s calls) c.
Proof. unfold run. rewrite fold_left_app. reflexivity. Qed.

Lemma blocks_since_start_snoc (calls : list call) (c : call) :
  blocks_since_start (calls ++ [c])
  = blocks_since_start calls
    + match c with
      | CallUpdate a => b2z (is_filter_update a)
      | CallReset => 0
      end.
Proof.
  induction calls as [|[a'|] calls IH]; simpl.
  - destruct c; lia.
  - rewrite IH. lia.
  - exact IH.
Qed.

Lemma blocks_since_reset_from_snoc (calls : list call) (c : call) :
  forall n,
    blocks_since_reset_from n (calls ++ [c])
    = match c with
      | CallUpdate a => blocks_since_reset_from n calls + b2z (is_filter_update a)
      | CallReset => 0
      end.
Proof.
  induction calls as [|[a'|] calls IH]; intros n; simpl.
  - destruct c; reflexivity.
  - apply IH.
  - apply IH.
Qed.

Lemma blocks_since_start_range (calls : list call) :
  0 <= blocks_since_start calls <= Z.of_nat (length calls).
Proof.
  induction calls as [|[a|] calls IH]; simpl; [lia| |lia].
  pose proof (b2z_range (is_filter_update a)). lia.
Qed.

Lemma blocks_since_reset_from_range (calls : list call) :
  forall n, 0 <= n ->
    0 <= blocks_since_reset_from n calls <= n + Z.of_nat (length calls).
Proof.
  induction calls as [|[a|] calls IH]; intros n Hn; simpl; [lia| |].
  - pose proof (b2z_range (is_filter_update a)).
    specialize (IH (n + b2z (is_filter_update a))). lia.
  - specialize (IH 0). lia.
Qed.

(** The members after any sequence of calls from the constructor. *)
Lemma FilteringQualityAnalyzer_run_members
    (config : EchoCanceller3Config) (calls : list call) :
  Z.of_nat (length calls) < 2 ^ 64 ->
  let s := run (init config) calls in
  filter_update_blocks_since_start_ s = blocks_since_start calls
  /\ filter_update_blocks_since_reset_ s = blocks_since_reset calls
  /\ convergence_seen_ s = convergence_seen_in calls.
Proof.
  induction calls as [|c calls IH] using rev_ind; intros Hlen; [repeat split|].
  rewrite length_app in Hlen. simpl in Hlen.
  destruct IH as (Hs & Hr & Hc); [lia|].
  cbv zeta. rewrite FilteringQualityAnalyzer_run_snoc.
  rewrite blocks_since_start_snoc. unfold blocks_since_reset.
  rewrite blocks_since_reset_from_snoc.
  unfold convergence_seen_in in *. rewrite existsb_app. cbn [existsb].
  rewrite orb_false_r.
  pose proof (blocks_since_start_range calls) as Hsr.
  pose proof (blocks_since_reset_from_range calls 0 ltac:(lia)) as Hrr.
  destruct c as [a|].
  - cbn [step Update filter_update_blocks_since_start_
         filter_update_blocks_since_reset_ convergence_seen_].
    rewrite Hs, Hr, Hc. fold (is_filter_update a).
    pose proof (b2z_range (is_filter_update a)).
    unfold blocks_since_reset.
    rewrite !size_t_add_small by lia. repeat split.
  - cbn [step Reset filter_update_blocks_since_start_
         filter_update_blocks_since_reset_ convergence_seen_].
    rewrite orb_false_r. repeat split; [lia|exact Hc].
Qed.

(** C4 (corrected). After every call of
    [FilteringQualityAnalyzer::Update], at the end of any sequence of calls
    since construction (shorter than [2^64]), [usable_linear_estimate_] is
    true exactly if: the number of filter-update blocks since the start is
    greater than [kNumBlocksPerSecond * 0.4f]; the number since the last
    reset is greater than [kNumBlocksPerSecond * 0.2f] (both compared as
    [float]s, and strictly); an external delay comes with the call or a
    converged filter has been seen by some update; and transparent mode is
    off in the call.  So it is false as long as the first count does not
    exceed its threshold, whatever the other arguments. *)
Theorem FilteringQualityAnalyzer_usable_linear_estimate
    (config : EchoCanceller3Config) (calls : list call) (a : args) :
  Z.of_nat (length (calls ++ [CallUpdate a])) < 2 ^ 64 ->
  let history := calls ++ [CallUpdate a] in
  let s' := run (init config) history in
  usable_linear_estimate_ s'
  = exceeds (blocks_since_start history) Float32.lit_0_4
    && exceeds (blocks_since_reset history) Float32.lit_0_2
    && (has_value (external_delay a) || convergence_seen_in history)
    && negb (transparent_mode a)
  /\ (exceeds (blocks_since_start history) Float32.lit_0_4 = false ->
      usable_linear_estimate_ s' = false).
Proof.
  intros Hlen history s'.
  destruct (FilteringQualityAnalyzer_run_members config history Hlen)
    as (Hs & Hr & Hc).
  fold s' in Hs, Hr, Hc.
  assert (Heq : usable_linear_estimate_ s'
                = exceeds (filter_update_blocks_since_start_ s') Float32.lit_0_4
                  && exceeds (filter_update_blocks_since_reset_ s') Float32.lit_0_2
                  && (has_value (external_delay a) || convergence_seen_ s')
                  && negb (transparent_mode a)).
  { subst s' history. rewrite FilteringQualityAnalyzer_run_snoc.
    cbn [step Update usable_linear_estimate_ filter_update_blocks_since_start_
         filter_update_blocks_since_reset_ convergence_seen_].
    rewrite bool_decide_is_Some.
    destruct (exceeds _ Float32.lit_0_4); reflexivity. }
  rewrite Heq, Hs, Hr, Hc. split; [reflexivity|].
  intros ->. reflexivity.
Qed.

End FilteringQualityAnalyzerProperties.

(** At 250 blocks per second the two thresholds are 100 and 50 blocks. *)
Lemma FilteringQualityAnalyzer_exceeds_webrtc (c : Z) :
  0 <= c < 2 ^ 64 ->
  FilteringQualityAnalyzer.exceeds (K := webrtc_constants) c Float32.lit_0_4
  = (100 <? c)
  /\ FilteringQualityAnalyzer.exceeds (K := webrtc_constants) c Float32.lit_0_2
     = (50 <? c).
Proof.
  intros Hc. unfold FilteringQualityAnalyzer.exceeds. split.
  - change (Float32.mul (Float32.of_Z kNumBlocksPerSecond) Float32.lit_0_4)
      with (Float32.of_Z 100).
    apply Float32_gt_of_Z; [lia|lia|reflexivity].
  - change (Float32.mul (Float32.of_Z kNumBlocksPerSecond) Float32.lit_0_2)
      with (Float32.of_Z 50).
    apply Float32_gt_of_Z; [lia|lia|reflexivity].
Qed.

(** C4, at an input: after 101 filter-update blocks with an external
    delay the linear estimate is usable. *)
Lemma FilteringQualityAnalyzer_usable_linear_estimate_witness :
  FilteringQualityAnalyzer.usable_linear_estimate_
    (FilteringQualityAnalyzer.run (K := webrtc_constants)
       (FilteringQualityAnalyzer.init default_config)
       (quality_history 100
        ++ [FilteringQualityAnalyzer.CallUpdate quality_update]))
  = true.
Proof.
  rewrite (proj1 (FilteringQualityAnalyzer_usable_linear_estimate
                    (K := webrtc_constants) default_config
                    (quality_history 100) quality_update eq_refl)).
  vm_compute. reflexivity.
Defined.

(** C4 as the specification words it does not hold: after exactly 100
    filter-update blocks at 250 blocks per second (the rate of WebRTC),
    all with an external delay and without transparent mode, at least 0.4
    seconds of blocks have been counted since the start and at least 0.2
    seconds since the last reset, yet the linear estimate is not usable. *)
Lemma FilteringQualityAnalyzer_not_usable_at_threshold :
  let s := FilteringQualityAnalyzer.run (K := webrtc_constants)
             (FilteringQualityAnalyzer.init default_config)
             (quality_history 100) in
  at_least (FilteringQualityAnalyzer.filter_update_blocks_since_start_ s)
           2 5 (kNumBlocksPerSecond (Aec3Common := webrtc_constants)) = true
  /\ at_least (FilteringQualityAnalyzer.filter_update_blocks_since_reset_ s)
              1 5 (kNumBlocksPerSecond (Aec3Common := webrtc_constants)) = true
  /\ has_value (FilteringQualityAnalyzer.external_delay quality_update) = true
  /\ FilteringQualityAnalyzer.transparent_mode quality_update = false
  /\ FilteringQualityAnalyzer.usable_linear_estimate_ s = false.
Proof. vm_compute. repeat split. Qed.

(** ** SaturationDetector *)

Section SaturationDetectorProperties.
Import SaturationDetector.

Lemma any_residual_saturated_existsb (subtractor_output : list SubtractorOutput) :
  forall saturated_echo,
    any_residual_saturated subtractor_output saturated_echo
    = saturated_echo || existsb residual_saturated subtractor_output.
Proof.
  unfold any_residual_saturated.
  induction subtractor_output as [|output outputs IH]; intros acc; simpl.
  - rewrite orb_false_r. reflexivity.
  - rewrite IH. unfold residual_saturated, kSaturationThreshold.
    rewrite !orb_assoc. reflexivity.
Qed.

Lemma channel_running_max (channel : list float) :
  forall m,
    fold_left (fun max_sample sample =>
                 Float32.max max_sample (Float32.fabsf sample)) channel m
    = running_max (map Float32.fabsf channel) m.
Proof.
  unfold running_max.
  induction channel as [|sample channel IH]; intros m; simpl;
    [reflexivity|apply IH].
Qed.

Lemma max_abs_sample_running_max (x : list (list float)) :
  forall m,
    max_abs_sample x m = running_max (map Float32.fabsf (concat x)) m.
Proof.
  unfold max_abs_sample.
  induction x as [|channel x IH]; intros m; simpl; [reflexivity|].
  rewrite IH, channel_running_max, map_app.
  unfold running_max. rewrite fold_left_app. reflexivity.
Qed.

(** The value left by the two loops is the maximum absolute sample. *)
Lemma max_abs_sample_is_max (x : list (list float)) :
  is_max_abs_sample (max_abs_sample x Float32.zero) x.
Proof.
  rewrite max_abs_sample_running_max. unfold is_max_abs_sample.
  split; [|split].
  - destruct (running_max_attained (map Float32.fabsf (concat x)) Float32.zero)
      as [Heq|Hin]; [left; exact Heq|right].
    apply list_elem_of_In, in_map_iff in Hin.
    destruct Hin as (sample & Heq & Hin).
    apply in_concat in Hin. destruct Hin as (channel & Hc & Hs).
    exists channel, sample. rewrite !list_elem_of_In. auto.
  - apply running_max_start. reflexivity.
  - intros channel sample Hc Hs. apply running_max_upper; [reflexivity|].
    apply list_elem_of_In, in_map, in_concat. exists channel.
    rewrite <- !list_elem_of_In. auto.
Qed.

(** C2. [SaturationDetector::Update]: with no saturated capture
    [saturated_echo_] is false whatever the other arguments; with a
    saturated capture and a usable linear estimate it is true exactly if
    the main or the shadow residual peak of some capture channel is above
    20000; with a saturated capture and no usable linear estimate it is
    true exactly if (maximum absolute render sample) * [echo_path_gain] *
    10 is above 32000.  With gain 1, a peak sample of 4000 gives true and
    one of 3000 gives false. *)
Theorem SaturationDetector_Update_saturated_echo
    (s : t) (x : list (list float)) (saturated_capture usable_linear_estimate : bool)
    (subtractor_output : list SubtractorOutput) (echo_path_gain : float) :
  let s' := Update s x saturated_capture usable_linear_estimate
                   subtractor_output echo_path_gain in
  (saturated_capture = false -> saturated_echo_ s' = false)
  /\ (saturated_capture = true -> usable_linear_estimate = true ->
      saturated_echo_ s' = existsb residual_saturated subtractor_output)
  /\ (saturated_capture = true -> usable_linear_estimate = false ->
      exists max_sample,
        is_max_abs_sample max_sample x
        /\ saturated_echo_ s'
           = Float32.gt (Float32.mul (Float32.mul max_sample echo_path_gain)
                                     (Float32.of_Z 10))
                        (Float32.of_Z 32000))
  /\ saturated_echo_
       (Update s [[Float32.of_Z 100; Float32.of_Z (-4000)]; [Float32.of_Z 30]]
               true false subtractor_output Float32.one) = true
  /\ saturated_echo_
       (Update s [[Float32.of_Z 100; Float32.of_Z (-3000)]; [Float32.of_Z 30]]
               true false subtractor_output Float32.one) = false.
Proof.
  cbv zeta. unfold Update. repeat split.
  - intros ->. reflexivity.
  - intros -> ->. simpl. apply any_residual_saturated_existsb.
  - intros -> ->. exists (max_abs_sample x Float32.zero).
    split; [apply max_abs_sample_is_max|reflexivity].
Qed.

End SaturationDetectorProperties.

(** C2, at an input: a saturated capture without usable linear estimate,
    one channel holding the samples 100 and -2000, and a gain of 2. *)
Lemma SaturationDetector_Update_saturated_echo_witness :
  exists max_sample,
    is_max_abs_sample max_sample [[Float32.of_Z 100; Float32.of_Z (-2000)]]
    /\ SaturationDetector.saturated_echo_
         (SaturationDetector.Update SaturationDetector.init
            [[Float32.of_Z 100; Float32.of_Z (-2000)]] true false []
            (Float32.of_Z 2))
       = Float32.gt (Float32.mul (Float32.mul max_sample (Float32.of_Z 2))
                                 (Float32.of_Z 10))
                    (Float32.of_Z 32000).
Proof.
  exact (proj1 (proj2 (proj2
           (SaturationDetector_Update_saturated_echo SaturationDetector.init
              [[Float32.of_Z 100; Float32.of_Z (-2000)]] true false []
              (Float32.of_Z 2))))
           eq_refl eq_refl).
Defined.

(** ** The reverb power combiner *)

Section ReverbProperties.
Context {K : Aec3Common} {C : Collaborators}.

Lemma accumulate_zip_with (render_power spectrum : list float) :
  (length render_power <= length spectrum)%nat ->
  accumulate render_power spectrum
  = Some (zip_with Float32.add render_power spectrum).
Proof.
  revert spectrum.
  induction render_power as [|p ps IH]; intros [|x xs] Hlen; simpl in *;
    try reflexivity; try lia.
  rewrite IH by lia. reflexivity.
Qed.

Lemma add_reverb_zip_with (X2 reverb_power : list float) :
  (length X2 <= length reverb_power)%nat ->
  add_reverb X2 reverb_power = Some (zip_with Float32.add X2 reverb_power).
Proof.
  revert reverb_power.
  induction X2 as [|x xs IH]; intros [|r rs] Hlen; simpl in *;
    try reflexivity; try lia.
  rewrite IH by lia. reflexivity.
Qed.

Lemma kFftLengthBy2Plus1_nat :
  Z.of_nat (Z.to_nat kFftLengthBy2Plus1) = kFftLengthBy2Plus1.
Proof.
  pose proof kFftLengthBy2_range. unfold kFftLengthBy2Plus1. lia.
Qed.

Lemma sum_channels_from_fold (post : list (list float)) :
  forall pre render_power,
    Forall (fun spectrum => Z.of_nat (length spectrum) = kFftLengthBy2Plus1) post ->
    Z.of_nat (length render_power) = kFftLengthBy2Plus1 ->
    sum_channels_from (length post) (length pre) (pre ++ post) render_power
    = Some (fold_left (zip_with Float32.add) post render_power).
Proof.
  induction post as [|spectrum post IH]; intros pre acc Hpost Hacc;
    [reflexivity|].
  inversion Hpost as [|? ? Hspectrum Hpost']; subst.
  cbn [length sum_channels_from fold_left].
  rewrite list_lookup_middle by reflexivity. cbn [mbind option_bind].
  rewrite option_guard_True by exact Hspectrum.
  rewrite accumulate_zip_with by lia. cbn [mbind option_bind].
  replace (S (length pre)) with (length (pre ++ [spectrum]))
    by (rewrite length_app; simpl; lia).
  replace (pre ++ spectrum :: post) with ((pre ++ [spectrum]) ++ post)
    by (rewrite <- app_assoc; reflexivity).
  apply IH; [exact Hpost'|].
  rewrite length_zip_with_l_eq; lia.
Qed.

Lemma fold_zip_with_length (slot : list (list float)) :
  forall sums n,
    Forall (fun spectrum => length spectrum = n) slot ->
    length sums = n ->
    length (fold_left (zip_with Float32.add) slot sums) = n.
Proof.
  induction slot as [|spectrum slot IH]; intros sums n Hslot Hsums;
    [exact Hsums|].
  inversion Hslot; subst. simpl. apply IH; [assumption|].
  rewrite length_zip_with_l_eq; lia.
Qed.

Lemma fold_zip_with_lookup (slot : list (list float)) :
  forall sums n k,
    Forall (fun spectrum => length spectrum = n) slot ->
    length sums = n ->
    (k < n)%nat ->
    fold_left (zip_with Float32.add) slot sums !! k
    = Some (fold_left (fun sum spectrum =>
                         Float32.add sum (nth k spectrum Float32.zero))
                      slot (nth k sums Float32.zero)).
Proof.
  induction slot as [|spectrum slot IH]; intros sums n k Hslot Hsums Hk.
  - simpl. rewrite nth_lookup.
    destruct (lookup_lt_is_Some_2 sums k) as [x Hx]; [lia|].
    rewrite Hx. reflexivity.
  - inversion Hslot as [|? ? Hspectrum Hslot']; subst. simpl.
    rewrite (IH _ (length sums) k Hslot') by
      (try rewrite length_zip_with_l_eq; lia).
    f_equal. f_equal.
    destruct (lookup_lt_is_Some_2 sums k) as [x Hx]; [lia|].
    destruct (lookup_lt_is_Some_2 spectrum k) as [y Hy]; [lia|].
    rewrite !nth_lookup, lookup_zip_with, Hx, Hy. reflexivity.
Qed.

(** The lambda [sum_channels] computes the channel-summed power. *)
Lemma sum_channels_summed_power (slot : list (list float)) :
  Forall (fun spectrum => Z.of_nat (length spectrum) = kFftLengthBy2Plus1) slot ->
  sum_channels (length slot) slot = Some (summed_power slot).
Proof.
  intros Hslot. unfold sum_channels.
  pose proof kFftLengthBy2Plus1_nat as Hn.
  rewrite (sum_channels_from_fold slot [] _ Hslot)
    by (rewrite length_replicate; exact Hn).
  f_equal. unfold summed_power.
  set (n := Z.to_nat kFftLengthBy2Plus1) in *.
  assert (Hslot' : Forall (fun spectrum => length spectrum = n) slot).
  { eapply Forall_impl; [exact Hslot|]. simpl. intros spectrum Hs. lia. }
  apply list_eq. intros k.
  destruct (decide (k < n)%nat) as [Hk|Hk].
  - rewrite (fold_zip_with_lookup slot _ n k Hslot')
      by (try rewrite length_replicate; lia).
    rewrite nth_lookup, lookup_replicate_2 by lia. simpl.
    change (map ?f ?l) with (f <$> l).
    rewrite list_lookup_fmap.
    assert (Hseq : seq 0 n !! k = Some k) by (apply lookup_seq; lia).
    rewrite Hseq. reflexivity.
  - rewrite !lookup_ge_None_2; [reflexivity| |].
    + rewrite length_map, length_seq. lia.
    + rewrite (fold_zip_with_length slot _ n Hslot')
        by (rewrite length_replicate; reflexivity). lia.
Qed.

Lemma summed_power_length (slot : list (list float)) :
  Z.of_nat (length (summed_power slot)) = kFftLengthBy2Plus1.
Proof.
  unfold summed_power. rewrite length_map, length_seq.
  apply kFftLengthBy2Plus1_nat.
Qed.

Lemma render_power_length (n : nat) (slot : list (list float)) :
  well_formed_slot n slot ->
  Z.of_nat (length (render_power slot)) = kFftLengthBy2Plus1.
Proof.
  intros [_ Hslot]. unfold render_power.
  destruct slot as [|spectrum [|spectrum' slot]];
    try apply summed_power_length.
  inversion Hslot; assumption.
Qed.

(** C8. On a buffer whose slots hold the same number (at least one) of
    render channels of [kFftLengthBy2Plus1] bins: the reverb model is
    updated, with scaling 1 and the given decay, from the power of the slot
    [idx_past] that [IncIndex] gives from the delayed slot (the block
    before the delayed one), that power being the sum over the channels,
    or the spectrum itself for a single channel; and the spectrum returned
    is, bin by bin, the power of the delayed slot plus the reverb power of
    the updated model. *)
Theorem UpdateAndComputeReverb_spec
    (spectrum_buffer : SpectrumBuffer) (delay_blocks : Z) (reverb_decay : float)
    (reverb_model : ReverbModel) (slot_0 slot_past slot_at_delay : list (list float)) :
  let idx_at_delay :=
    OffsetIndex spectrum_buffer (read spectrum_buffer) delay_blocks in
  let idx_past := IncIndex spectrum_buffer idx_at_delay in
  let reverb_model' :=
    UpdateReverbNoFreqShaping reverb_model (render_power slot_past)
                              Float32.one reverb_decay in
  buffer spectrum_buffer !! 0%nat = Some slot_0 ->
  at_index (buffer spectrum_buffer) idx_past = Some slot_past ->
  at_index (buffer spectrum_buffer) idx_at_delay = Some slot_at_delay ->
  (1 <= length slot_0)%nat ->
  well_formed_slot (length slot_0) slot_past ->
  well_formed_slot (length slot_0) slot_at_delay ->
  Z.of_nat (length (reverb reverb_model')) = kFftLengthBy2Plus1 ->
  UpdateAndComputeReverb spectrum_buffer delay_blocks reverb_decay reverb_model
  = Some (reverb_model',
          zip_with Float32.add (render_power slot_at_delay)
                   (reverb reverb_model')).
Proof.
  intros idx_at_delay idx_past reverb_model' Hslot0 Hpast Hat Hn Hwp Hwa Hrev.
  pose proof (render_power_length _ _ Hwa) as Hlen.
  unfold UpdateAndComputeReverb. rewrite Hslot0. cbn [mbind option_bind].
  fold idx_at_delay. fold idx_past. rewrite Hpast, Hat.
  destruct Hwp as [Hlp Hfp], Hwa as [Hla Hfa].
  cbn [mbind option_bind].
  destruct (1 <? length slot_0)%nat eqn:Hmany.
  - apply Nat.ltb_lt in Hmany.
    rewrite <- Hlp at 1. rewrite (sum_channels_summed_power _ Hfp).
    cbn [mbind option_bind].
    rewrite <- Hla at 1. rewrite (sum_channels_summed_power _ Hfa).
    cbn [mbind option_bind].
    assert (Hrp : forall slot, (1 < length slot)%nat ->
                               render_power slot = summed_power slot).
    { intros [|x [|y slot]] Hs; simpl in Hs; try lia; reflexivity. }
    rewrite <- (Hrp slot_past) by lia. fold reverb_model'.
    rewrite <- (Hrp slot_at_delay) by lia.
    rewrite option_guard_True by lia.
    rewrite add_reverb_zip_with by lia. reflexivity.
  - apply Nat.ltb_ge in Hmany.
    subst reverb_model'.
    destruct slot_past as [|past_0 [|? ?]]; simpl in Hlp; try lia.
    destruct slot_at_delay as [|X2 [|? ?]]; simpl in Hla; try lia.
    simpl in Hlen, Hrev |- *.
    rewrite option_guard_True by lia.
    rewrite add_reverb_zip_with by lia. reflexivity.
Qed.

End ReverbProperties.

(** C8, at an input: two render channels, a delay of one block in a ring
    of three slots; the model is updated from the slot of index 2 and the
    spectrum returned adds the reverb to the power of the slot of index
    1. *)
Lemma UpdateAndComputeReverb_spec_witness :
  let reverb_model' :=
    UpdateReverbNoFreqShaping (Collaborators := sample_collaborators)
      ReverbModel_new (render_power (K := webrtc_constants) (sample_slot 5 6))
      Float32.one sample_decay in
  UpdateAndComputeReverb (K := webrtc_constants) (C := sample_collaborators)
    sample_ring 1 sample_decay ReverbModel_new
  = Some (reverb_model',
          zip_with Float32.add
            (render_power (K := webrtc_constants) (sample_slot 3 4))
            (reverb reverb_model')).
Proof.
  apply (UpdateAndComputeReverb_spec (K := webrtc_constants)
           (C := sample_collaborators) sample_ring 1 sample_decay
           ReverbModel_new (sample_slot 1 2) (sample_slot 5 6)
           (sample_slot 3 4)).
  - reflexivity.
  - reflexivity.
  - reflexivity.
  - simpl. lia.
  - split; [reflexivity|]. repeat constructor.
  - split; [reflexivity|]. repeat constructor.
  - vm_compute. reflexivity.
Defined.

(** ** AecState: echo path changes *)

Section AecStateProperties.
Context {K : Aec3Common} {C : Collaborators}.
Import AecState.

(** C6. [HandleEchoPathChange]: every subtractor-output analyzer is
    notified, whatever the variability.  When a delay change is reported
    the full reset runs: every filter analyzer is reset, the
    capture-saturation flag is cleared, both render counters are 0,
    [InitialState] is reset (so the initial state is active again),
    [TransparentMode] is reset, the ERLE estimator is hard-reset, the ERL
    estimator and [FilteringQualityAnalyzer] are reset.  When only a gain
    change is reported the ERLE estimator is soft-reset and nothing else
    changes; with no change reported nothing changes but the
    notification. *)
Theorem AecState_HandleEchoPathChange_effect (s : t) (v : EchoPathVariability) :
  let s' := HandleEchoPathChange s v in
  (if is_kNone (delay_change v)
   then subtractor_output_analyzers_ s'
        = map SubtractorOutputAnalyzer_HandleEchoPathChange
              (subtractor_output_analyzers_ s)
        /\ erle_estimator_ s'
           = (if gain_change v
              then ErleEstimator_Reset (erle_estimator_ s) false
              else erle_estimator_ s)
        /\ filter_analyzers_ s' = filter_analyzers_ s
        /\ capture_signal_saturation_ s' = capture_signal_saturation_ s
        /\ strong_not_saturated_render_blocks_ s'
           = strong_not_saturated_render_blocks_ s
        /\ blocks_with_active_render_ s' = blocks_with_active_render_ s
        /\ initial_state_ s' = initial_state_ s
        /\ transparent_state_ s' = transparent_state_ s
        /\ erl_estimator_ s' = erl_estimator_ s
        /\ filter_quality_state_ s' = filter_quality_state_ s
   else subtractor_output_analyzers_ s'
        = map SubtractorOutputAnalyzer_HandleEchoPathChange
              (subtractor_output_analyzers_ s)
        /\ erle_estimator_ s' = ErleEstimator_Reset (erle_estimator_ s) true
        /\ filter_analyzers_ s' = map FilterAnalyzer_Reset (filter_analyzers_ s)
        /\ capture_signal_saturation_ s' = false
        /\ strong_not_saturated_render_blocks_ s' = 0
        /\ blocks_with_active_render_ s' = 0
        /\ initial_state_ s' = InitialState.Reset (initial_state_ s)
        /\ InitialState.InitialStateActive (initial_state_ s') = true
        /\ transparent_state_ s' = TransparentMode.Reset (transparent_state_ s)
        /\ erl_estimator_ s' = ErlEstimator_Reset (erl_estimator_ s)
        /\ filter_quality_state_ s'
           = FilteringQualityAnalyzer.Reset (filter_quality_state_ s))
  /\ config_ s' = config_ s
  /\ delay_state_ s' = delay_state_ s
  /\ saturation_detector_ s' = saturation_detector_ s
  /\ echo_audibility_ s' = echo_audibility_ s
  /\ reverb_model_ s' = reverb_model_ s
  /\ reverb_model_estimator_ s' = reverb_model_estimator_ s.
Proof.
  cbv zeta. unfold HandleEchoPathChange.
  destruct (is_kNone (delay_change v)); simpl.
  - destruct (gain_change v); simpl; repeat split.
  - repeat split.
Qed.

Lemma AecState_HandleEchoPathChange_delay_state (s : t) (v : EchoPathVariability) :
  delay_state_ (HandleEchoPathChange s v) = delay_state_ s.
Proof.
  unfold HandleEchoPathChange.
  destruct (is_kNone (delay_change v)); simpl;
    [destruct (gain_change v)|]; reflexivity.
Qed.

Lemma AecState_HandleEchoPathChange_config (s : t) (v : EchoPathVariability) :
  config_ (HandleEchoPathChange s v) = config_ s.
Proof.
  unfold HandleEchoPathChange.
  destruct (is_kNone (delay_change v)); simpl;
    [destruct (gain_change v)|]; reflexivity.
Qed.

(** What [Update] does to the delay state. *)
Lemma AecState_Update_delay_state (s s' : t) (a : update_args) :
  step s (CallUpdate a) = Some s' ->
  if filter_use_linear_filter (config_ s)
  then exists analyzers,
         FilterDelay.Update (delay_state_ s) analyzers (external_delay a)
           (strong_not_saturated_render_blocks_ s) = Some (delay_state_ s')
  else delay_state_ s' = delay_state_ s.
Proof.
  unfold step, Update. intros Hs.
  repeat (apply bind_Some in Hs; destruct Hs as (? & ? & Hs)).
  repeat match goal with
         | x : _ * _ |- _ => destruct x
         end.
  repeat (apply bind_Some in Hs; destruct Hs as (? & ? & Hs)).
  repeat match goal with
         | x : _ * _ |- _ => destruct x
         end.
  repeat (apply bind_Some in Hs; destruct Hs as (? & ? & Hs)).
  injection Hs as <-. cbn [delay_state_].
  destruct (filter_use_linear_filter (config_ s)).
  - eexists. eassumption.
  - congruence.
Qed.

(** C10. [HandleEchoPathChange] never touches the [FilterDelay] state:
    the latched external delay, the sticky reported flag and the current
    delay estimate are the same after it, for every variability.  So the
    first [Update] after a full reset, when it brings no external delay
    itself, still has the delay latched before the reset, and (the render
    counter being back at 0) it sets the filter delay from the headroom. *)
Theorem AecState_HandleEchoPathChange_keeps_delay_state
    (s : t) (v : EchoPathVariability) :
  let s' := HandleEchoPathChange s v in
  FilterDelay.external_delay_ (delay_state_ s')
  = FilterDelay.external_delay_ (delay_state_ s)
  /\ FilterDelay.external_delay_reported_ (delay_state_ s')
     = FilterDelay.external_delay_reported_ (delay_state_ s)
  /\ FilterDelay.filter_delay_blocks_ (delay_state_ s')
     = FilterDelay.filter_delay_blocks_ (delay_state_ s)
  /\ (forall e a s'',
        FilterDelay.external_delay_ (delay_state_ s) = Some e ->
        is_kNone (delay_change v) = false ->
        filter_use_linear_filter (config_ s) = true ->
        external_delay a = None ->
        step s' (CallUpdate a) = Some s'' ->
        FilterDelay.external_delay_ (delay_state_ s'') = Some e
        /\ FilterDelay.filter_delay_blocks_ (delay_state_ s'')
           = FilterDelay.headroom_blocks
               (FilterDelay.delay_headroom_samples_ (delay_state_ s))).
Proof.
  intros s'. subst s'.
  rewrite AecState_HandleEchoPathChange_delay_state.
  do 3 (split; [reflexivity|]).
  intros e a s'' Hlatched Hreset Hlinear Hnone Hstep.
  pose proof (AecState_Update_delay_state _ _ _ Hstep) as Hd.
  rewrite AecState_HandleEchoPathChange_config, Hlinear in Hd.
  destruct Hd as [analyzers Hd].
  rewrite AecState_HandleEchoPathChange_delay_state in Hd.
  assert (Hzero : strong_not_saturated_render_blocks_ (HandleEchoPathChange s v) = 0).
  { unfold HandleEchoPathChange. rewrite Hreset. reflexivity. }
  assert (Hlt : (0 <? size_t_mul 2 kNumBlocksPerSecond) = true).
  { rewrite size_t_mul_const by lia. pose proof kNumBlocksPerSecond_range.
    apply Z.ltb_lt. lia. }
  unfold FilterDelay.Update in Hd.
  rewrite Hzero, Hnone, Hlatched, Hlt in Hd. simpl in Hd.
  injection Hd as <-. split; reflexivity.
Qed.

End AecStateProperties.

(** ** AecState: the render counters *)

Section AecStateCounters.
Context {K : Aec3Common} {C : Collaborators}.
Import AecState.

(** [Update] adds [active_render ? 1 : 0] to the first counter and
    [active_render && !SaturatedCapture() ? 1 : 0] to the second, for the
    one value of [active_render] computed in the call. *)
Lemma AecState_Update_counters (s s' : t) (a : update_args) :
  step s (CallUpdate a) = Some s' ->
  exists active_render : bool,
    blocks_with_active_render_ s'
    = size_t_add (blocks_with_active_render_ s) (b2z active_render)
    /\ strong_not_saturated_render_blocks_ s'
       = size_t_add (strong_not_saturated_render_blocks_ s)
                    (b2z (active_render && negb (SaturatedCapture s))).
Proof.
  unfold step, Update. intros Hs.
  repeat (apply bind_Some in Hs; destruct Hs as (? & ? & Hs);
          repeat match goal with x : _ * _ |- _ => destruct x end).
  injection Hs as <-.
  cbn [blocks_with_active_render_ strong_not_saturated_render_blocks_].
  eexists. split; reflexivity.
Qed.

(** One call that is not a full reset, away from the overflow of the
    counters: each counter grows by 0 or by 1. *)
Lemma AecState_step_counters (s s' : t) (c : call) :
  step s c = Some s' ->
  is_full_reset c = false ->
  0 <= blocks_with_active_render_ s < 2 ^ 64 - 1 ->
  0 <= strong_not_saturated_render_blocks_ s < 2 ^ 64 - 1 ->
  blocks_with_active_render_ s <= blocks_with_active_render_ s'
    <= blocks_with_active_render_ s + 1
  /\ strong_not_saturated_render_blocks_ s
     <= strong_not_saturated_render_blocks_ s'
     <= strong_not_saturated_render_blocks_ s + 1.
Proof.
  intros Hstep Hfull Hb Hs. destruct c as [a|v].
  - destruct (AecState_Update_counters _ _ _ Hstep) as (active & -> & ->).
    pose proof (b2z_range active).
    pose proof (b2z_range (active && negb (SaturatedCapture s))).
    rewrite !size_t_add_small by lia. lia.
  - simpl in Hstep, Hfull. injection Hstep as <-.
    unfold HandleEchoPathChange.
    destruct (is_kNone (delay_change v)); [|discriminate].
    simpl. destruct (gain_change v); simpl; lia.
Qed.

Lemma AecState_run_counters (calls : list call) :
  forall s s',
    run s calls = Some s' ->
    forallb (fun c => negb (is_full_reset c)) calls = true ->
    0 <= blocks_with_active_render_ s ->
    blocks_with_active_render_ s + Z.of_nat (length calls) < 2 ^ 64 ->
    0 <= strong_not_saturated_render_blocks_ s ->
    strong_not_saturated_render_blocks_ s + Z.of_nat (length calls) < 2 ^ 64 ->
    blocks_with_active_render_ s <= blocks_with_active_render_ s'
      <= blocks_with_active_render_ s + Z.of_nat (length calls)
    /\ strong_not_saturated_render_blocks_ s
       <= strong_not_saturated_render_blocks_ s'
       <= strong_not_saturated_render_blocks_ s + Z.of_nat (length calls).
Proof.
  induction calls as [|c calls IH]; intros s s' Hrun Hno Hb Hbl Hs Hsl.
  - simpl in *. injection Hrun as <-. lia.
  - simpl in Hrun. apply bind_Some in Hrun. destruct Hrun as (s1 & Hstep & Hrun).
    simpl in Hno. apply andb_prop in Hno. destruct Hno as [Hc Hno].
    apply negb_true_iff in Hc.
    rewrite length_cons, Nat2Z.inj_succ in *.
    destruct (AecState_step_counters _ _ _ Hstep Hc) as [Hb1 Hs1]; [lia|lia|].
    destruct (IH _ _ Hrun Hno) as [Hb2 Hs2]; lia.
Qed.

(** C9. Away from the overflow of [size_t]: an [Update] adds 0 or 1 to
    [blocks_with_active_render_] and to
    [strong_not_saturated_render_blocks_], the latter growing only if the
    former does and the capture is not saturated; a
    [HandleEchoPathChange] without delay change leaves both as they are,
    one with a delay change sets both to 0; and along every sequence of
    calls without such a full reset both counters never decrease. *)
Theorem AecState_render_counters_monotone (s : t) :
  0 <= blocks_with_active_render_ s ->
  0 <= strong_not_saturated_render_blocks_ s ->
  (forall a s',
     step s (CallUpdate a) = Some s' ->
     blocks_with_active_render_ s < 2 ^ 64 - 1 ->
     strong_not_saturated_render_blocks_ s < 2 ^ 64 - 1 ->
     exists active_render : bool,
       blocks_with_active_render_ s'
       = blocks_with_active_render_ s + b2z active_render
       /\ strong_not_saturated_render_blocks_ s'
          = strong_not_saturated_render_blocks_ s
            + b2z (active_render && negb (SaturatedCapture s)))
  /\ (forall v,
        let s' := HandleEchoPathChange s v in
        if is_kNone (delay_change v)
        then blocks_with_active_render_ s' = blocks_with_active_render_ s
             /\ strong_not_saturated_render_blocks_ s'
                = strong_not_saturated_render_blocks_ s
        else blocks_with_active_render_ s' = 0
             /\ strong_not_saturated_render_blocks_ s' = 0)
  /\ (forall calls s',
        run s calls = Some s' ->
        forallb (fun c => negb (is_full_reset c)) calls = true ->
        blocks_with_active_render_ s + Z.of_nat (length calls) < 2 ^ 64 ->
        strong_not_saturated_render_blocks_ s + Z.of_nat (length calls)
          < 2 ^ 64 ->
        blocks_with_active_render_ s <= blocks_with_active_render_ s'
        /\ strong_not_saturated_render_blocks_ s
           <= strong_not_saturated_render_blocks_ s').
Proof.
  intros Hb Hs. split; [|split].
  - intros a s' Hstep Hbl Hsl.
    destruct (AecState_Update_counters _ _ _ Hstep) as (active & Hb' & Hs').
    exists active. rewrite Hb', Hs'.
    pose proof (b2z_range active).
    pose proof (b2z_range (active && negb (SaturatedCapture s))).
    rewrite !size_t_add_small by lia. split; reflexivity.
  - intros v s'. subst s'. unfold HandleEchoPathChange.
    destruct (is_kNone (delay_change v)); simpl.
    + destruct (gain_change v); split; reflexivity.
    + split; reflexivity.
  - intros calls s' Hrun Hno Hbl Hsl.
    destruct (AecState_run_counters calls s s' Hrun Hno Hb Hbl Hs Hsl). lia.
Qed.

End AecStateCounters.

(** C10, at an input: the sample state has latched a delay of 5 blocks;
    after a full reset, a block without external delay still has it, and
    the filter delay is the one of the headroom. *)
Lemma AecState_HandleEchoPathChange_keeps_delay_state_witness :
  FilterDelay.external_delay_ (AecState.delay_state_ sample_after_reset)
  = Some sample_delay
  /\ FilterDelay.filter_delay_blocks_ (AecState.delay_state_ sample_after_reset)
     = FilterDelay.headroom_blocks (K := webrtc_constants)
         (FilterDelay.delay_headroom_samples_
            (AecState.delay_state_ sample_state_value)).
Proof.
  assert (Hlatched : FilterDelay.external_delay_
                       (AecState.delay_state_ sample_state_value)
                     = Some sample_delay) by (vm_compute; reflexivity).
  assert (Hstep : AecState.step (K := webrtc_constants)
                    (AecState.HandleEchoPathChange sample_state_value
                                                   delay_changed)
                    (AecState.CallUpdate (sample_update 1000 4 None))
                  = Some sample_after_reset)
    by (apply default_Some; vm_compute; reflexivity).
  exact (proj2 (proj2 (proj2
           (AecState_HandleEchoPathChange_keeps_delay_state
              (K := webrtc_constants) sample_state_value delay_changed)))
           sample_delay (sample_update 1000 4 None) sample_after_reset
           Hlatched eq_refl eq_refl eq_refl Hstep).
Defined.

(** C9, at an input: two active blocks with a gain change in between, from
    the constructor's state. *)
Lemma AecState_render_counters_monotone_witness :
  AecState.blocks_with_active_render_ sample_init
  <= AecState.blocks_with_active_render_ sample_after_gain_change
  /\ AecState.strong_not_saturated_render_blocks_ sample_init
     <= AecState.strong_not_saturated_render_blocks_ sample_after_gain_change.
Proof.
  assert (Hrun : AecState.run (K := webrtc_constants) sample_init sample_calls
                 = Some sample_after_gain_change)
    by (apply default_Some; vm_compute; reflexivity).
  assert (Hb : 0 <= AecState.blocks_with_active_render_ sample_init)
    by (vm_compute; discriminate).
  assert (Hs : 0 <= AecState.strong_not_saturated_render_blocks_ sample_init)
    by (vm_compute; discriminate).
  exact (proj2 (proj2
           (AecState_render_counters_monotone (K := webrtc_constants)
              sample_init Hb Hs))
           sample_calls sample_after_gain_change Hrun eq_refl eq_refl eq_refl).
Defined.

(** ** AecState: what one [Update] computes *)

Section AecStateUpdate.
Context {K : Aec3Common} {C : Collaborators}.
Import AecState.

(** The loop over the capture channels keeps the sizes of both vectors of
    analyzers. *)
Lemma analyze_filters_length
    (subtractor_output : list SubtractorOutput) :
  forall output_analyzers filter_analyzers responses render_buffer acc
         output_analyzers' filter_analyzers' acc',
    analyze_filters subtractor_output output_analyzers filter_analyzers
      responses render_buffer acc
    = Some (output_analyzers', filter_analyzers', acc') ->
    length output_analyzers' = length output_analyzers
    /\ length filter_analyzers' = length filter_analyzers.
Proof.
  induction subtractor_output as [|output outputs IH];
    intros oas fas irs rb acc oas' fas' acc' Hrun.
  - simpl in Hrun. injection Hrun as <- <- <-. auto.
  - simpl in Hrun.
    destruct oas as [|oa oas], fas as [|fa fas], irs as [|ir irs];
      try discriminate.
    apply bind_Some in Hrun. destruct Hrun as ([[oas1 fas1] r] & Hrec & Hrun).
    injection Hrun as <- <- <-.
    destruct (IH _ _ _ _ _ _ _ _ Hrec) as [Hoas Hfas]. simpl.
    rewrite Hoas, Hfas. auto.
Qed.

(** The components of the state that a successful [Update] returns. *)
Lemma AecState_Update_components (s s' : t) (a : update_args) :
  step s (CallUpdate a) = Some s' ->
  exists output_analyzers filter_analyzers analysis aligned_render_block,
    length (filter_analyzers_ s) = length (subtractor_output a)
    /\ length (filter_analyzers_ s) = length (subtractor_output_analyzers_ s)
    /\ length (filter_analyzers_ s)
       = length (adaptive_filter_frequency_response a)
    /\ length (filter_analyzers_ s)
       = length (adaptive_filter_impulse_response a)
    /\ analyze_filters (subtractor_output a) (subtractor_output_analyzers_ s)
         (filter_analyzers_ s) (adaptive_filter_impulse_response a)
         (render_buffer a) filter_analysis_init
       = Some (output_analyzers, filter_analyzers, analysis)
    /\ (if filter_use_linear_filter (config_ s)
        then FilterDelay.Update (delay_state_ s) filter_analyzers
               (external_delay a) (strong_not_saturated_render_blocks_ s)
             = Some (delay_state_ s')
        else delay_state_ s' = delay_state_ s)
    /\ Block (render_buffer a)
         (- FilterDelay.DirectPathFilterDelay (delay_state_ s')) !! 0%nat
       = Some aligned_render_block
    /\ is_Some (adaptive_filter_frequency_response a !! 0%nat)
    /\ config_ s' = config_ s
    /\ capture_signal_saturation_ s' = capture_signal_saturation_ s
    /\ filter_analyzers_ s' = filter_analyzers
    /\ subtractor_output_analyzers_ s' = output_analyzers
    /\ let active_render :=
         is_active_render (config_ s) aligned_render_block in
       blocks_with_active_render_ s'
       = size_t_add (blocks_with_active_render_ s) (b2z active_render)
       /\ strong_not_saturated_render_blocks_ s'
          = size_t_add (strong_not_saturated_render_blocks_ s)
                       (b2z (active_render && negb (SaturatedCapture s)))
       /\ saturation_detector_ s'
          = SaturationDetector.Update (saturation_detector_ s)
              aligned_render_block (SaturatedCapture s)
              (UsableLinearEstimate s) (subtractor_output a)
              (max_echo_path_gain analysis)
       /\ initial_state_ s'
          = InitialState.Update (initial_state_ s) active_render
                                (SaturatedCapture s)
       /\ transparent_state_ s'
          = TransparentMode.Update (transparent_state_ s)
              {| TransparentMode.filter_delay_blocks :=
                   FilterDelay.DirectPathFilterDelay (delay_state_ s');
                 TransparentMode.any_filter_consistent :=
                   any_filter_consistent analysis;
                 TransparentMode.any_filter_converged :=
                   any_filter_converged analysis;
                 TransparentMode.all_filters_diverged :=
                   all_filters_diverged analysis;
                 TransparentMode.active_render := active_render;
                 TransparentMode.saturated_capture := SaturatedCapture s |}
       /\ filter_quality_state_ s'
          = FilteringQualityAnalyzer.Update (filter_quality_state_ s)
              {| FilteringQualityAnalyzer.active_render := active_render;
                 FilteringQualityAnalyzer.transparent_mode :=
                   TransparentMode.Active (transparent_state_ s');
                 FilteringQualityAnalyzer.saturated_capture :=
                   SaturatedCapture s;
                 FilteringQualityAnalyzer.external_delay := external_delay a;
                 FilteringQualityAnalyzer.any_filter_converged :=
                   any_filter_converged analysis |}.
Proof.
  unfold step, Update. intros Hs.
  apply bind_Some in Hs. destruct Hs as (Hl1 & _ & Hs).
  apply bind_Some in Hs. destruct Hs as (Hl2 & _ & Hs).
  apply bind_Some in Hs. destruct Hs as (Hl3 & _ & Hs).
  apply bind_Some in Hs. destruct Hs as (Hl4 & _ & Hs).
  apply bind_Some in Hs. destruct Hs as ([[oas fas] analysis] & Han & Hs).
  apply bind_Some in Hs. destruct Hs as (delay_state & Hdelay & Hs).
  apply bind_Some in Hs. destruct Hs as (block & Hblock & Hs).
  apply bind_Some in Hs. destruct Hs as ([model X2] & Hreverb & Hs).
  apply bind_Some in Hs. destruct Hs as (HX2 & _ & Hs).
  apply bind_Some in Hs. destruct Hs as (response_0 & Hresponse & Hs).
  apply bind_Some in Hs. destruct Hs as (oa_0 & Hoa & Hs).
  apply bind_Some in Hs. destruct Hs as (fa_0 & Hfa & Hs).
  injection Hs as <-.
  cbn [config_ initial_state_ delay_state_ transparent_state_
       filter_quality_state_ saturation_detector_
       strong_not_saturated_render_blocks_ blocks_with_active_render_
       capture_signal_saturation_ filter_analyzers_
       subtractor_output_analyzers_].
  exists oas, fas, analysis, block.
  do 4 (split; [assumption|]). split; [exact Han|]. split.
  { destruct (filter_use_linear_filter (config_ s)); congruence. }
  split; [exact Hblock|]. split; [eauto|].
  repeat (split; [reflexivity|]). reflexivity.
Qed.

(** A property of the states that holds before a sequence of calls and
    that every call keeps holds after it. *)
Lemma AecState_run_invariant (P : t -> Prop) :
  (forall s s' c, P s -> step s c = Some s' -> P s') ->
  forall calls s s', P s -> run s calls = Some s' -> P s'.
Proof.
  intros Hstep. induction calls as [|c calls IH]; intros s s' Hs Hrun.
  - simpl in Hrun. injection Hrun as <-. exact Hs.
  - simpl in Hrun. apply bind_Some in Hrun.
    destruct Hrun as (s1 & Hc & Hrun). eauto.
Qed.

End AecStateUpdate.

(** ** AecState: invariants of the sequences of calls *)

Section AecStateInvariants.
Context {K : Aec3Common} {C : Collaborators}.
Import AecState.

Lemma AecState_HandleEchoPathChange_lengths (s : t) (v : EchoPathVariability) :
  length (filter_analyzers_ (HandleEchoPathChange s v))
  = length (filter_analyzers_ s)
  /\ length (subtractor_output_analyzers_ (HandleEchoPathChange s v))
     = length (subtractor_output_analyzers_ s).
Proof.
  unfold HandleEchoPathChange.
  destruct (is_kNone (delay_change v)); simpl;
    [destruct (gain_change v)|]; simpl; rewrite ?length_map; auto.
Qed.

Lemma AecState_step_lengths (s s' : t) (c : call) :
  step s c = Some s' ->
  length (filter_analyzers_ s') = length (filter_analyzers_ s)
  /\ length (subtractor_output_analyzers_ s')
     = length (subtractor_output_analyzers_ s).
Proof.
  destruct c as [a|v]; intros Hstep.
  - destruct (AecState_Update_components _ _ _ Hstep)
      as (oas & fas & an & blk & _ & _ & _ & _ & Han & _ & _ & _ & _ & _
          & Hfa & Hoa & _).
    destruct (analyze_filters_length _ _ _ _ _ _ _ _ _ Han) as [Hl1 Hl2].
    rewrite Hfa, Hoa. auto.
  - simpl in Hstep. injection Hstep as <-.
    apply AecState_HandleEchoPathChange_lengths.
Qed.

Lemma AecState_run_lengths (calls : list call) :
  forall s s',
    run s calls = Some s' ->
    (length (filter_analyzers_ s') = length (filter_analyzers_ s)
     /\ length (subtractor_output_analyzers_ s')
        = length (subtractor_output_analyzers_ s))
    /\ forall a,
         In (CallUpdate a) calls ->
         (1 <= length (filter_analyzers_ s))%nat
         /\ length (subtractor_output_analyzers_ s)
            = length (filter_analyzers_ s)
         /\ length (subtractor_output a) = length (filter_analyzers_ s)
         /\ length (adaptive_filter_frequency_response a)
            = length (filter_analyzers_ s)
         /\ length (adaptive_filter_impulse_response a)
            = length (filter_analyzers_ s).
Proof.
  induction calls as [|c calls IH]; intros s s' Hrun.
  - simpl in Hrun. injection Hrun as <-. split; [auto|]. intros a [].
  - simpl in Hrun. apply bind_Some in Hrun.
    destruct Hrun as (s1 & Hstep & Hrun).
    destruct (AecState_step_lengths _ _ _ Hstep) as [Hf1 Ho1].
    destruct (IH _ _ Hrun) as [[Hf Ho] Hall].
    split; [split; congruence|].
    intros a [->|Hin].
    + destruct (AecState_Update_components _ _ _ Hstep)
        as (oas & fas & an & blk & Hl1 & Hl2 & Hl3 & Hl4 & _ & _ & _
            & [r Hr] & _).
      apply lookup_lt_Some in Hr. repeat split; lia.
    + specialize (Hall a Hin). rewrite Hf1, Ho1 in Hall. exact Hall.
Qed.

(** X1. The two vectors of per-channel analyzers are sized by the
    constructor and never resized: after any sequence of [Update] and
    [HandleEchoPathChange] calls both still have [num_capture_channels]
    entries.  An [Update] can only have succeeded with at least one
    capture channel and with argument arrays of that same size. *)
Theorem AecState_channel_vectors_never_resized
    (config : EchoCanceller3Config) (num_capture_channels : nat)
    (calls : list call) (s' : t) :
  run (init config num_capture_channels) calls = Some s' ->
  length (filter_analyzers_ s') = num_capture_channels
  /\ length (subtractor_output_analyzers_ s') = num_capture_channels
  /\ forall a,
       In (CallUpdate a) calls ->
       (1 <= num_capture_channels)%nat
       /\ length (subtractor_output a) = num_capture_channels
       /\ length (adaptive_filter_frequency_response a) = num_capture_channels
       /\ length (adaptive_filter_impulse_response a) = num_capture_channels.
Proof.
  intros Hrun. destruct (AecState_run_lengths calls _ _ Hrun) as [[Hf Ho] Hall].
  cbn [init filter_analyzers_ subtractor_output_analyzers_] in Hf, Ho, Hall.
  rewrite !length_replicate in *.
  split; [exact Hf|]. split; [exact Ho|].
  intros a Hin. destruct (Hall a Hin) as (H1 & _ & H3 & H4 & H5). auto.
Qed.

(** *** Saturation *)

Lemma AecState_step_saturation_free (s s' : t) (c : call) :
  saturation_free s -> step s c = Some s' -> saturation_free s'.
Proof.
  unfold saturation_free. intros (Hcap & Hecho & Hcount) Hstep.
  destruct c as [a|v].
  - destruct (AecState_Update_components _ _ _ Hstep)
      as (oas & fas & an & blk & _ & _ & _ & _ & _ & _ & _ & _ & _ & Hcap'
          & _ & _ & Hb & Hs & Hsat & _).
    unfold SaturatedCapture in *. rewrite Hcap in *.
    split; [congruence|]. split.
    + unfold SaturatedEcho. rewrite Hsat. reflexivity.
    + rewrite Hb, Hs, Hcount, andb_true_r. reflexivity.
  - simpl in Hstep. injection Hstep as <-. unfold HandleEchoPathChange.
    destruct (is_kNone (delay_change v)); simpl;
      [destruct (gain_change v)|]; simpl; auto.
Qed.

(** X2. Neither [Update] nor [HandleEchoPathChange] ever sets the
    capture-saturation flag.  So from the constructor's state, or from any
    state without flagged saturation, every sequence of these calls ends
    in a state where the capture is not flagged saturated, the echo is not
    flagged saturated, [ErleUncertainty] has no value, and
    [blocks_with_active_render_] equals
    [strong_not_saturated_render_blocks_]. *)
Theorem AecState_saturation_never_flagged
    (config : EchoCanceller3Config) (num_capture_channels : nat) :
  saturation_free (init config num_capture_channels)
  /\ forall s calls s',
       saturation_free s ->
       run s calls = Some s' ->
       saturation_free s' /\ ErleUncertainty s' = None.
Proof.
  split; [repeat split|].
  intros s calls s' Hs Hrun.
  assert (Hs' : saturation_free s')
    by (eapply AecState_run_invariant;
        [apply AecState_step_saturation_free|exact Hs|exact Hrun]).
  split; [exact Hs'|]. destruct Hs' as (_ & Hecho & _).
  unfold ErleUncertainty. rewrite Hecho. reflexivity.
Qed.

(** *** The four counters *)

Lemma AecState_step_counters_in_sync (s s' : t) (c : call) :
  counters_in_sync s -> step s c = Some s' -> counters_in_sync s'.
Proof.
  unfold counters_in_sync. intros (Hi & Ht & Hq) Hstep.
  destruct c as [a|v].
  - destruct (AecState_Update_components _ _ _ Hstep)
      as (oas & fas & an & blk & _ & _ & _ & _ & _ & _ & _ & _ & _ & _
          & _ & _ & _ & Hs & _ & Hi' & Ht' & Hq').
    rewrite Hs, Hi', Ht', Hq'.
    cbn [InitialState.Update InitialState.strong_not_saturated_render_blocks_
         TransparentMode.Update
         TransparentMode.strong_not_saturated_render_blocks_
         FilteringQualityAnalyzer.Update
         FilteringQualityAnalyzer.filter_update_blocks_since_reset_
         TransparentMode.active_render TransparentMode.saturated_capture
         FilteringQualityAnalyzer.active_render
         FilteringQualityAnalyzer.saturated_capture].
    rewrite Hi, Ht, Hq. auto.
  - simpl in Hstep. injection Hstep as <-. unfold HandleEchoPathChange.
    destruct (is_kNone (delay_change v)); simpl;
      [destruct (gain_change v)|]; simpl; auto.
Qed.

(** X3. [AecState], [InitialState], [TransparentMode] and
    [FilteringQualityAnalyzer] each keep a counter of the blocks with
    active render and without saturated capture (the last one as its count
    since the last reset).  The four are advanced by the same amount in
    [Update] and zeroed together by the full reset: from the constructor,
    and from any state where they agree, they hold the same value after
    every sequence of calls, wrap-around included. *)
Theorem AecState_counters_stay_in_sync
    (config : EchoCanceller3Config) (num_capture_channels : nat) :
  counters_in_sync (init config num_capture_channels)
  /\ forall s calls s',
       counters_in_sync s -> run s calls = Some s' -> counters_in_sync s'.
Proof.
  split; [repeat split|].
  intros s calls s' Hs Hrun.
  eapply AecState_run_invariant;
    [apply AecState_step_counters_in_sync|exact Hs|exact Hrun].
Qed.

End AecStateInvariants.

Section AecStateUsability.
Context {K : Aec3Common} {C : Collaborators}.
Import AecState.

Lemma FilteringQualityAnalyzer_Update_usable
    (q : FilteringQualityAnalyzer.t) (a : FilteringQualityAnalyzer.args) :
  let q' := FilteringQualityAnalyzer.Update q a in
  FilteringQualityAnalyzer.usable_linear_estimate_ q' = true ->
  FilteringQualityAnalyzer.transparent_mode a = false
  /\ FilteringQualityAnalyzer.exceeds
       (FilteringQualityAnalyzer.filter_update_blocks_since_start_ q')
       Float32.lit_0_4 = true
  /\ FilteringQualityAnalyzer.exceeds
       (FilteringQualityAnalyzer.filter_update_blocks_since_reset_ q')
       Float32.lit_0_2 = true.
Proof.
  cbv zeta.
  cbn [FilteringQualityAnalyzer.Update
       FilteringQualityAnalyzer.usable_linear_estimate_
       FilteringQualityAnalyzer.filter_update_blocks_since_start_
       FilteringQualityAnalyzer.filter_update_blocks_since_reset_].
  intros Hu.
  apply andb_prop in Hu. destruct Hu as [Hu Htransparent].
  apply andb_prop in Hu. destruct Hu as [Hu _].
  apply andb_prop in Hu. destruct Hu as [Hstart Hreset].
  apply andb_prop in Hreset. destruct Hreset as [_ Hreset].
  apply negb_true_iff in Htransparent. auto.
Qed.

Lemma AecState_step_usable_is_justified (s s' : t) (c : call) :
  usable_is_justified s -> step s c = Some s' -> usable_is_justified s'.
Proof.
  unfold usable_is_justified, UsableLinearEstimate, TransparentMode.
  intros Hs Hstep. destruct c as [a|v].
  - destruct (AecState_Update_components _ _ _ Hstep)
      as (oas & fas & an & blk & _ & _ & _ & _ & _ & _ & _ & _ & _ & _
          & _ & _ & _ & _ & _ & _ & _ & Hq').
    rewrite Hq'. unfold FilteringQualityAnalyzer.LinearFilterUsable.
    intros Hu. apply FilteringQualityAnalyzer_Update_usable in Hu.
    exact Hu.
  - simpl in Hstep. injection Hstep as <-. unfold HandleEchoPathChange.
    destruct (is_kNone (delay_change v)); simpl;
      [destruct (gain_change v); exact Hs|discriminate].
Qed.

(** X4. In every state reached from the constructor by [Update] and
    [HandleEchoPathChange] calls, the linear estimate is never usable
    while transparent mode is active; and when it is usable, the count of
    filter-update blocks since the start exceeds
    [kNumBlocksPerSecond * 0.4f] and the counter
    [strong_not_saturated_render_blocks_] of [AecState] itself (zeroed by
    the full reset) exceeds [kNumBlocksPerSecond * 0.2f]. *)
Theorem AecState_usable_linear_estimate_justified
    (config : EchoCanceller3Config) (num_capture_channels : nat)
    (calls : list call) (s' : t) :
  run (init config num_capture_channels) calls = Some s' ->
  UsableLinearEstimate s' = true ->
  TransparentMode s' = false
  /\ FilteringQualityAnalyzer.exceeds
       (FilteringQualityAnalyzer.filter_update_blocks_since_start_
          (filter_quality_state_ s')) Float32.lit_0_4 = true
  /\ FilteringQualityAnalyzer.exceeds
       (strong_not_saturated_render_blocks_ s') Float32.lit_0_2 = true.
Proof.
  intros Hrun Hu.
  assert (Hj : usable_is_justified s').
  { eapply AecState_run_invariant;
      [apply AecState_step_usable_is_justified| |exact Hrun].
    intros Hinit. discriminate. }
  assert (Hsync : counters_in_sync s').
  { eapply AecState_run_invariant;
      [apply AecState_step_counters_in_sync| |exact Hrun].
    repeat split. }
  destruct (Hj Hu) as (Ht & Hstart & Hreset).
  destruct Hsync as (_ & _ & Hq). rewrite Hq in Hreset. auto.
Qed.

(** *** The linear filter turned off *)

Lemma AecState_step_config (s s' : t) (c : call) :
  step s c = Some s' -> config_ s' = config_ s.
Proof.
  destruct c as [a|v]; intros Hstep.
  - destruct (AecState_Update_components _ _ _ Hstep)
      as (oas & fas & an & blk & _ & _ & _ & _ & _ & _ & _ & _ & Hc & _).
    exact Hc.
  - simpl in Hstep. injection Hstep as <-.
    apply AecState_HandleEchoPathChange_config.
Qed.

Lemma AecState_step_no_linear_filter (d : FilterDelay.t) (s s' : t) (c : call) :
  filter_use_linear_filter (config_ s) = false /\ delay_state_ s = d ->
  step s c = Some s' ->
  filter_use_linear_filter (config_ s') = false /\ delay_state_ s' = d.
Proof.
  intros [Hoff Hd] Hstep. rewrite (AecState_step_config _ _ _ Hstep).
  split; [exact Hoff|]. destruct c as [a|v].
  - pose proof (AecState_Update_delay_state _ _ _ Hstep) as Hdelay.
    rewrite Hoff in Hdelay. congruence.
  - simpl in Hstep. injection Hstep as <-.
    rewrite AecState_HandleEchoPathChange_delay_state. exact Hd.
Qed.

(** X5. The configuration is never changed by a call, whatever it is; and
    with [filter.use_linear_filter] off the [FilterDelay] state is frozen:
    after any sequence of calls it is the one before the sequence.  From
    the constructor the filter delay therefore stays 0 and no external
    delay is ever latched or reported, whatever delays the calls bring. *)
Theorem AecState_no_linear_filter_freezes_delay
    (s : t) (calls : list call) (s' : t) :
  run s calls = Some s' ->
  config_ s' = config_ s
  /\ (filter_use_linear_filter (config_ s) = false ->
      delay_state_ s' = delay_state_ s
      /\ (delay_state_ s = FilterDelay.init (config_ s) ->
          FilterDelay.DirectPathFilterDelay (delay_state_ s') = 0
          /\ FilterDelay.ExternalDelayReported (delay_state_ s') = false
          /\ FilterDelay.external_delay_ (delay_state_ s') = None)).
Proof.
  intros Hrun.
  assert (Hc : config_ s' = config_ s).
  { apply (AecState_run_invariant (fun x => config_ x = config_ s))
      with (calls := calls) (s := s); [|reflexivity|exact Hrun].
    intros x x' c Hx Hstep. rewrite (AecState_step_config _ _ _ Hstep).
    exact Hx. }
  split; [exact Hc|]. intros Hoff.
  destruct (AecState_run_invariant _
              (AecState_step_no_linear_filter (delay_state_ s))
              calls s s' (conj Hoff eq_refl) Hrun) as [_ Hd].
  split; [exact Hd|].
  intros Hinit. rewrite Hd, Hinit. repeat split.
Qed.

End AecStateUsability.

(** ** Silence *)

Section Silence.

Lemma binary_round_aux_not_negative (m e : Z) (l : location) :
  Float32_not_negative
    (binary_round_aux Float32.prec Float32.emax false m e l).
Proof.
  unfold binary_round_aux.
  destruct (shr_fexp Float32.prec Float32.emax m e l) as [mrs e1].
  destruct (shr_fexp Float32.prec Float32.emax
              (round_nearest_even (shr_m mrs) (loc_of_shr_record mrs)) e1
              loc_Exact) as [mrs2 e2].
  destruct (shr_m mrs2); simpl; auto.
  destruct (e2 <=? Float32.emax - Float32.prec); simpl; auto.
Qed.

Lemma Float32_mul_self_not_negative (a : float) :
  Float32_not_negative (Float32.mul a a).
Proof.
  destruct a as [s|s| |s m e]; simpl; auto.
  - destruct s; reflexivity.
  - replace (xorb s s) with false by (destruct s; reflexivity).
    apply binary_round_aux_not_negative.
Qed.

Lemma Float32_mul_not_negative (a b : float) :
  Float32_not_negative a -> Float32_not_negative b ->
  Float32_not_negative (Float32.mul a b).
Proof.
  destruct a as [sa|sa| |sa ma ea], b as [sb|sb| |sb mb eb]; simpl; auto;
    try (intros -> ->; reflexivity).
  intros -> ->. apply binary_round_aux_not_negative.
Qed.

Lemma Float32_of_Z_not_negative (z : Z) :
  0 <= z -> Float32_not_negative (Float32.of_Z z).
Proof.
  intros Hz. destruct z as [|p|p]; [exact I| |lia].
  unfold Float32.of_Z, binary_normalize, binary_round.
  destruct (shl_align p 0 _) as [mz ez].
  apply binary_round_aux_not_negative.
Qed.

Lemma Float32_zero_not_above (t : float) :
  Float32_not_negative t -> Float32.gt Float32.zero t = false.
Proof.
  unfold Float32.gt, SFltb.
  destruct t as [s|s| |s m e]; simpl; try reflexivity; intros ->; reflexivity.
Qed.

Lemma render_energy_silent (v : list float) :
  Forall (fun sample => Float32_is_zero sample = true) v ->
  AecState.render_energy v = Float32.zero.
Proof.
  unfold AecState.render_energy. intros Hv.
  induction Hv as [|x v Hx Hv IH]; [reflexivity|].
  simpl. destruct x as [s| | |]; try discriminate.
  destruct s; exact IH.
Qed.

(** A block whose samples are all zeros is not active render, whatever
    the configured limit (a negative one or a NaN included). *)
Lemma is_active_render_silent {K : Aec3Common}
    (config : EchoCanceller3Config) (block : list (list float)) :
  Forall (Forall (fun sample => Float32_is_zero sample = true)) block ->
  AecState.is_active_render config block = false.
Proof.
  intros Hblock. unfold AecState.is_active_render.
  induction Hblock as [|channel block Hc Hb IH]; [reflexivity|].
  cbn [existsb]. rewrite IH, orb_false_r, (render_energy_silent _ Hc).
  apply Float32_zero_not_above, Float32_mul_not_negative.
  - apply Float32_mul_self_not_negative.
  - apply Float32_of_Z_not_negative. pose proof kFftLengthBy2_range. lia.
Qed.

End Silence.

Section AecStateSilence.
Context {K : Aec3Common} {C : Collaborators}.
Import AecState.

(** X6. A render buffer that holds only zeros is never active render,
    for every value of [render_levels.active_render_limit]: an [Update]
    on it leaves [blocks_with_active_render_] and
    [strong_not_saturated_render_blocks_] as they were, in [AecState] and
    in [InitialState] (so it cannot end the initial state on its own
    count). *)
Theorem AecState_Update_silence (s s' : t) (a : update_args) :
  silent_render_buffer (render_buffer a) ->
  is_size_t (blocks_with_active_render_ s) ->
  is_size_t (strong_not_saturated_render_blocks_ s) ->
  is_size_t (InitialState.strong_not_saturated_render_blocks_ (initial_state_ s)) ->
  step s (CallUpdate a) = Some s' ->
  blocks_with_active_render_ s' = blocks_with_active_render_ s
  /\ strong_not_saturated_render_blocks_ s'
     = strong_not_saturated_render_blocks_ s
  /\ InitialState.strong_not_saturated_render_blocks_ (initial_state_ s')
     = InitialState.strong_not_saturated_render_blocks_ (initial_state_ s).
Proof.
  intros Hsilent Hb Hs Hi Hstep.
  destruct (AecState_Update_components _ _ _ Hstep)
    as (oas & fas & an & blk & _ & _ & _ & _ & _ & _ & Hblk & _ & _ & _
        & _ & _ & Hb' & Hs' & _ & Hi' & _).
  rewrite (is_active_render_silent _ _ (Hsilent _ _ Hblk)) in Hb', Hs', Hi'.
  rewrite Hb', Hs', Hi'.
  cbn [InitialState.Update InitialState.strong_not_saturated_render_blocks_
       andb b2z].
  unfold size_t_add. rewrite !Z.add_0_r.
  rewrite !size_t_wrap_small by assumption. auto.
Qed.

End AecStateSilence.

Lemma sample_run_gain_change :
  AecState.run (K := webrtc_constants) sample_init sample_calls
  = Some sample_after_gain_change.
Proof. apply default_Some. vm_compute. reflexivity. Qed.

Lemma sample_run_no_linear_filter :
  AecState.run (K := webrtc_constants) sample_init_no_linear_filter sample_calls
  = Some sample_after_no_linear_filter.
Proof. apply default_Some. vm_compute. reflexivity. Qed.

Lemma sample_run_long :
  AecState.run (K := webrtc_constants) sample_init sample_long_calls
  = Some sample_after_long.
Proof. apply default_Some. vm_compute. reflexivity. Qed.

(** X1, at an input: one capture channel, two blocks and a gain change. *)
Lemma AecState_channel_vectors_never_resized_witness :
  length (AecState.filter_analyzers_ sample_after_gain_change) = 1%nat
  /\ length (AecState.subtractor_output_analyzers_ sample_after_gain_change)
     = 1%nat.
Proof.
  destruct (AecState_channel_vectors_never_resized (K := webrtc_constants)
              default_config 1 sample_calls sample_after_gain_change
              sample_run_gain_change) as (Hf & Ho & _).
  split; [exact Hf|exact Ho].
Defined.

(** X2, at an input. *)
Lemma AecState_saturation_never_flagged_witness :
  saturation_free sample_after_gain_change
  /\ AecState.ErleUncertainty sample_after_gain_change = None.
Proof.
  exact (proj2 (AecState_saturation_never_flagged (K := webrtc_constants)
                  default_config 1)
           sample_init sample_calls sample_after_gain_change
           (proj1 (AecState_saturation_never_flagged (K := webrtc_constants)
                     default_config 1))
           sample_run_gain_change).
Defined.

(** X3, at an input. *)
Lemma AecState_counters_stay_in_sync_witness :
  counters_in_sync sample_after_gain_change.
Proof.
  exact (proj2 (AecState_counters_stay_in_sync (K := webrtc_constants)
                  default_config 1)
           sample_init sample_calls sample_after_gain_change
           (proj1 (AecState_counters_stay_in_sync (K := webrtc_constants)
                     default_config 1))
           sample_run_gain_change).
Defined.

(** X4, at an input: after 101 active blocks with an external delay the
    linear estimate is usable. *)
Lemma AecState_usable_linear_estimate_justified_witness :
  AecState.TransparentMode sample_after_long = false
  /\ FilteringQualityAnalyzer.exceeds (K := webrtc_constants)
       (FilteringQualityAnalyzer.filter_update_blocks_since_start_
          (AecState.filter_quality_state_ sample_after_long))
       Float32.lit_0_4 = true
  /\ FilteringQualityAnalyzer.exceeds (K := webrtc_constants)
       (AecState.strong_not_saturated_render_blocks_ sample_after_long)
       Float32.lit_0_2 = true.
Proof.
  apply (AecState_usable_linear_estimate_justified (K := webrtc_constants)
           default_config 1 sample_long_calls sample_after_long
           sample_run_long).
  vm_compute. reflexivity.
Defined.

(** X5, at an input: the configuration is the same after the sample
    run, with the linear filter on and with it off, and with it off the
    external delay of the first block is not latched. *)
Lemma AecState_no_linear_filter_freezes_delay_witness :
  AecState.config_ sample_after_gain_change = AecState.config_ sample_init
  /\ AecState.config_ sample_after_no_linear_filter
     = AecState.config_ sample_init_no_linear_filter
  /\ AecState.delay_state_ sample_after_no_linear_filter
     = AecState.delay_state_ sample_init_no_linear_filter
  /\ FilterDelay.external_delay_
       (AecState.delay_state_ sample_after_no_linear_filter) = None.
Proof.
  pose proof (AecState_no_linear_filter_freezes_delay (K := webrtc_constants)
                sample_init sample_calls sample_after_gain_change
                sample_run_gain_change) as [Hon _].
  destruct (AecState_no_linear_filter_freezes_delay (K := webrtc_constants)
              sample_init_no_linear_filter sample_calls
              sample_after_no_linear_filter sample_run_no_linear_filter)
    as (Hc & Hoff).
  destruct (Hoff eq_refl) as (Hd & Hinit).
  destruct (Hinit eq_refl) as (_ & _ & Hnone).
  repeat split; assumption.
Defined.

(** X6, at an input: a block of 64 zero samples after two active blocks. *)
Lemma AecState_Update_silence_witness :
  AecState.blocks_with_active_render_ sample_after_silence
  = AecState.blocks_with_active_render_ sample_state_value
  /\ AecState.strong_not_saturated_render_blocks_ sample_after_silence
     = AecState.strong_not_saturated_render_blocks_ sample_state_value
  /\ InitialState.strong_not_saturated_render_blocks_
       (AecState.initial_state_ sample_after_silence)
     = InitialState.strong_not_saturated_render_blocks_
         (AecState.initial_state_ sample_state_value).
Proof.
  apply (AecState_Update_silence (K := webrtc_constants) sample_state_value
           sample_after_silence (sample_update 0 4 None)).
  - intros offset block Hblock. injection Hblock as <-.
    repeat constructor.
  - vm_compute. split; [discriminate|reflexivity].
  - vm_compute. split; [discriminate|reflexivity].
  - vm_compute. split; [discriminate|reflexivity].
  - apply default_Some. vm_compute. reflexivity.
Defined.

(** ** FilterDelay: the latched external delay *)

Section FilterDelayLatch.
Context {K : Aec3Common} {C : Collaborators}.
Import FilterDelay.

Lemma FilterDelay_Update_latch (s s' : t) (a : args) :
  Update_with s a = Some s' ->
  delay_headroom_samples_ s' = delay_headroom_samples_ s
  /\ delay <$> external_delay_ s'
     = match external_delay a with
       | Some e => Some (delay e)
       | None => delay <$> external_delay_ s
       end
  /\ (external_delay_reported_ s = has_value (external_delay_ s) ->
      external_delay_reported_ s' = has_value (external_delay_ s'))
  /\ (forall e0 e,
        external_delay_ s = Some e0 -> external_delay a = Some e ->
        delay e0 = delay e -> external_delay_ s' = Some e0).
Proof.
  unfold Update_with, Update. intros Hs.
  apply bind_Some in Hs. destruct Hs as (d & _ & Hs). injection Hs as <-.
  cbn [delay_headroom_samples_ external_delay_ external_delay_reported_].
  split; [reflexivity|].
  destruct (external_delay a) as [e|], (external_delay_ s) as [e0|] eqn:He0;
    cbn [latches].
  - destruct (Z.eqb_spec (delay e0) (delay e)) as [Heq|Hne]; cbn [negb];
      repeat split; auto; simpl; try congruence.
  - repeat split; auto; discriminate.
  - repeat split; auto; discriminate.
  - repeat split; auto; discriminate.
Qed.

(** X7. [FilterDelay::Update] over any sequence of calls that succeed:
    the stored external delay is never cleared and its delay value is the
    one of the last estimate supplied; [external_delay_reported_] is set
    exactly when an estimate is stored; the headroom is never changed.
    An estimate that has the delay value already stored is not stored
    anew: the estimate kept (its quality tag included) is the older
    one. *)
Theorem FilterDelay_latched_delay (calls : list args) :
  forall s s',
    run s calls = Some s' ->
    delay_headroom_samples_ s' = delay_headroom_samples_ s
    /\ delay <$> external_delay_ s'
       = last_external_delay calls (delay <$> external_delay_ s)
    /\ (external_delay_reported_ s = has_value (external_delay_ s) ->
        external_delay_reported_ s' = has_value (external_delay_ s'))
    /\ (has_value (external_delay_ s) = true ->
        has_value (external_delay_ s') = true)
    /\ (forall a e0 e,
          calls = [a] ->
          external_delay_ s = Some e0 -> external_delay a = Some e ->
          delay e0 = delay e -> external_delay_ s' = Some e0).
Proof.
  induction calls as [|a calls IH]; intros s s' Hrun.
  - simpl in Hrun. injection Hrun as <-.
    repeat split; auto; intros; discriminate.
  - simpl in Hrun. apply bind_Some in Hrun.
    destruct Hrun as (s1 & Hstep & Hrun).
    destruct (FilterDelay_Update_latch _ _ _ Hstep) as (Hh1 & Hd1 & Hr1 & Hk1).
    destruct (IH _ _ Hrun) as (Hh & Hd & Hr & Hv & _).
    split; [congruence|]. split.
    { cbn [last_external_delay]. rewrite Hd, Hd1. reflexivity. }
    split; [auto|]. split.
    { intros Hsome. apply Hv.
      destruct (external_delay_ s1) as [e1|] eqn:He1; [reflexivity|].
      destruct (external_delay_ s) as [e0|]; [|discriminate].
      simpl in Hd1. destruct (external_delay a); discriminate. }
    intros a' e0 e Hone He0 He Heq.
    injection Hone as <- ->. simpl in Hrun. injection Hrun as <-.
    eapply Hk1; eassumption.
Qed.

End FilterDelayLatch.

Lemma sample_run_delay :
  FilterDelay.run (K := webrtc_constants) (FilterDelay.init default_config)
    (sample_delay_calls ++ [sample_delay_call]) = Some sample_delay_after.
Proof. apply default_Some. vm_compute. reflexivity. Qed.

(** X7, at an input: the estimate of the first call stays the one
    stored. *)
Lemma FilterDelay_latched_delay_witness :
  delay <$> FilterDelay.external_delay_ sample_delay_after = Some 5.
Proof.
  exact (proj1 (proj2 (FilterDelay_latched_delay (K := webrtc_constants)
                         (sample_delay_calls ++ [sample_delay_call])
                         (FilterDelay.init default_config) sample_delay_after
                         sample_run_delay))).
Defined.

(** ** TransparentMode: what the counters allow *)

Section TransparentModeCounters.
Context {K : Aec3Common}.
Import TransparentMode.

Lemma count_strong_updates_cons (a : args) (calls : list args) :
  count_strong_updates (a :: calls)
  = Cxx.b2z (is_strong_update a) + count_strong_updates calls.
Proof.
  unfold count_strong_updates.
  destruct (is_strong_update a) eqn:E.
  - rewrite filter_cons_True by exact E. cbn [length Cxx.b2z]. lia.
  - rewrite filter_cons_False by (rewrite E; discriminate).
    cbn [Cxx.b2z]. lia.
Qed.

Lemma count_strong_updates_range (calls : list args) :
  0 <= count_strong_updates calls <= Z.of_nat (length calls).
Proof.
  induction calls as [|a calls IH].
  - unfold count_strong_updates. simpl. lia.
  - rewrite count_strong_updates_cons. cbn [length].
    pose proof (b2z_range (is_strong_update a)). lia.
Qed.

Lemma TransparentMode_run_strong_blocks (calls : list args) :
  forall s,
    0 <= strong_not_saturated_render_blocks_ s ->
    strong_not_saturated_render_blocks_ s + Z.of_nat (length calls) < 2 ^ 64 ->
    strong_not_saturated_render_blocks_ (run s calls)
    = strong_not_saturated_render_blocks_ s + count_strong_updates calls.
Proof.
  unfold run. induction calls as [|a calls IH]; intros s H0 Hlen.
  - unfold count_strong_updates. simpl. lia.
  - cbn [fold_left length] in *. rewrite count_strong_updates_cons.
    pose proof (b2z_range (is_strong_update a)) as Hb.
    pose proof (count_strong_updates_range calls) as Hc.
    assert (Hstep : strong_not_saturated_render_blocks_ (Update s a)
                    = strong_not_saturated_render_blocks_ s
                      + Cxx.b2z (is_strong_update a)).
    { unfold Update. cbn [strong_not_saturated_render_blocks_].
      apply size_t_add_small; lia. }
    rewrite IH; rewrite Hstep; lia.
Qed.

Lemma TransparentMode_strong_blocks_needed (s : t) (calls : list args) (a : args) :
  strong_not_saturated_render_blocks_ s = 0 ->
  Z.of_nat (length (calls ++ [a])) < 2 ^ 64 ->
  transparency_activated_ (run s (calls ++ [a])) = true ->
  6 * kNumBlocksPerSecond < count_strong_updates (calls ++ [a]).
Proof.
  intros Hzero Hlen Hact.
  pose proof (TransparentMode_run_strong_blocks (calls ++ [a]) s) as Hcount.
  rewrite Hzero in Hcount. specialize (Hcount ltac:(lia) ltac:(lia)).
  rewrite TransparentMode_run_snoc in *.
  rewrite TransparentMode_Update_decision in Hact.
  unfold decision in Hact.
  destruct (bounded_erl_ _); [discriminate|].
  destruct (finite_erl_recently_detected_ _); [discriminate|].
  destruct (_ && _); [discriminate|].
  rewrite Hcount in Hact. lia.
Qed.

(** X8. After [TransparentMode::Reset], and likewise after the
    constructor, transparent mode can be on after an update only if more
    than [6 * kNumBlocksPerSecond] of the updates since then came with
    active render and without saturated capture. So it is off after each
    of the first [6 * kNumBlocksPerSecond] updates, whatever it was
    before the reset. *)
Theorem TransparentMode_off_until_enough_render
    (config : EchoCanceller3Config) (s : t) (calls : list args) (a : args) :
  Z.of_nat (length (calls ++ [a])) < 2 ^ 64 ->
  (transparency_activated_ (run (Reset s) (calls ++ [a])) = true ->
   6 * kNumBlocksPerSecond < count_strong_updates (calls ++ [a]))
  /\ (transparency_activated_ (run (init config) (calls ++ [a])) = true ->
      6 * kNumBlocksPerSecond < count_strong_updates (calls ++ [a]))
  /\ (Z.of_nat (length (calls ++ [a])) <= 6 * kNumBlocksPerSecond ->
      transparency_activated_ (run (Reset s) (calls ++ [a])) = false
      /\ transparency_activated_ (run (init config) (calls ++ [a])) = false).
Proof.
  intros Hlen.
  assert (HR : transparency_activated_ (run (Reset s) (calls ++ [a])) = true ->
               6 * kNumBlocksPerSecond < count_strong_updates (calls ++ [a])).
  { apply TransparentMode_strong_blocks_needed; [reflexivity|exact Hlen]. }
  assert (HI : transparency_activated_ (run (init config) (calls ++ [a])) = true ->
               6 * kNumBlocksPerSecond < count_strong_updates (calls ++ [a])).
  { apply TransparentMode_strong_blocks_needed; [reflexivity|exact Hlen]. }
  split; [exact HR|]. split; [exact HI|].
  intros Hshort.
  pose proof (count_strong_updates_range (calls ++ [a])) as Hc.
  split.
  - destruct (transparency_activated_ (run (Reset s) (calls ++ [a])));
      [specialize (HR eq_refl); lia|reflexivity].
  - destruct (transparency_activated_ (run (init config) (calls ++ [a])));
      [specialize (HI eq_refl); lia|reflexivity].
Qed.

Lemma TransparentMode_run_converged_blocks (calls : list args) :
  forall s,
    Forall (fun a => any_filter_converged a = true) calls ->
    0 <= num_converged_blocks_ s ->
    num_converged_blocks_ s + Z.of_nat (length calls) < 2 ^ 64 ->
    num_converged_blocks_ (run s calls)
    = num_converged_blocks_ s + Z.of_nat (length calls).
Proof.
  unfold run. induction calls as [|a calls IH]; intros s Hall H0 Hlen.
  - simpl. lia.
  - cbn [fold_left length] in *.
    apply Forall_cons in Hall. destruct Hall as [Ha Hall].
    assert (Hstep : num_converged_blocks_ (Update s a)
                    = num_converged_blocks_ s + 1).
    { unfold Update. cbn [num_converged_blocks_]. rewrite Ha.
      apply size_t_add_small; lia. }
    rewrite IH; [rewrite Hstep; lia|exact Hall|lia|lia].
Qed.

Lemma TransparentMode_Update_finite_erl (s : t) (a : args) :
  50 < num_converged_blocks_ (Update s a) ->
  finite_erl_recently_detected_ (Update s a) = true.
Proof.
  unfold Update. cbn [num_converged_blocks_ finite_erl_recently_detected_].
  intros Hnum.
  match goal with
  | |- (if ?c then _ else _) = _ => replace c with true by (symmetry; lia)
  end.
  reflexivity.
Qed.

(** X9. More than 50 updates in a row in each of which a filter has
    converged leave [finite_erl_recently_detected_] and
    [recent_convergence_during_activity_] set, the sequence counter of
    active non-converged blocks at 0, and transparent mode off: a converging
    filter rules transparent mode out, whatever the render activity and
    the state before. *)
Theorem TransparentMode_converged_blocks_rule_out_transparency
    (s : t) (calls : list args) :
  Forall (fun a => any_filter_converged a = true) calls ->
  (50 < length calls)%nat ->
  0 <= num_converged_blocks_ s ->
  num_converged_blocks_ s + Z.of_nat (length calls) < 2 ^ 64 ->
  let s' := run s calls in
  num_converged_blocks_ s' = num_converged_blocks_ s + Z.of_nat (length calls)
  /\ finite_erl_recently_detected_ s' = true
  /\ recent_convergence_during_activity_ s' = true
  /\ active_non_converged_sequence_size_ s' = 0
  /\ transparency_activated_ s' = false.
Proof.
  intros Hall Hmany H0 Hlen s'.
  assert (Hnum : num_converged_blocks_ s'
                 = num_converged_blocks_ s + Z.of_nat (length calls)).
  { apply TransparentMode_run_converged_blocks; assumption. }
  split; [exact Hnum|].
  destruct (exists_last (l := calls)) as (pre & a & Hcalls).
  { intros ->. simpl in Hmany. lia. }
  assert (Ha : any_filter_converged a = true).
  { rewrite Forall_forall in Hall. apply Hall. rewrite Hcalls.
    apply elem_of_app. right. apply list_elem_of_here. }
  subst s'. rewrite Hcalls in *. rewrite TransparentMode_run_snoc in *.
  assert (Hfin : finite_erl_recently_detected_ (Update (run s pre) a) = true).
  { apply TransparentMode_Update_finite_erl. lia. }
  split; [exact Hfin|].
  split; [unfold Update; cbn [recent_convergence_during_activity_];
          rewrite Ha; reflexivity|].
  split; [unfold Update; cbn [active_non_converged_sequence_size_];
          rewrite Ha; reflexivity|].
  rewrite TransparentMode_Update_decision. unfold decision.
  rewrite Hfin. destruct (bounded_erl_ _); reflexivity.
Qed.

End TransparentModeCounters.

(** X8, at an input: 1500 updates with active render after a reset. *)
Lemma TransparentMode_off_until_enough_render_witness :
  TransparentMode.transparency_activated_
    (TransparentMode.run (K := webrtc_constants)
       (TransparentMode.Reset (TransparentMode.init default_config))
       (replicate 1499 unconverged_active_block ++ [unconverged_active_block]))
  = false.
Proof.
  refine (proj1 (proj2 (proj2
            (TransparentMode_off_until_enough_render (K := webrtc_constants)
               default_config (TransparentMode.init default_config)
               (replicate 1499 unconverged_active_block)
               unconverged_active_block _)) _)).
  - rewrite length_app, length_replicate. simpl. lia.
  - rewrite length_app, length_replicate. simpl. lia.
Defined.

(** X9, at an input: 51 converged blocks. *)
Lemma TransparentMode_converged_blocks_rule_out_transparency_witness :
  TransparentMode.transparency_activated_
    (TransparentMode.run (K := webrtc_constants)
       (TransparentMode.init default_config) (replicate 51 converged_block))
  = false.
Proof.
  refine (proj2 (proj2 (proj2 (proj2
            (TransparentMode_converged_blocks_rule_out_transparency
               (K := webrtc_constants)
               (TransparentMode.init default_config)
               (replicate 51 converged_block) _ _ _ _))))).
  - apply Forall_forall. intros a Ha.
    apply elem_of_replicate in Ha. destruct Ha as [-> _]. reflexivity.
  - rewrite length_replicate. lia.
  - simpl. lia.
  - rewrite length_replicate. simpl. lia.
Defined.

(** ** Float32: greater-or-equal *)

Section Float32GreaterEqual.
Import Float32.

Lemma Float32_ge_of_le (a b : float) :
  Float32.le b a -> Float32_ge a b = true.
Proof.
  unfold Float32_ge, SFleb, Float32.le. intros [H|H]; rewrite H; reflexivity.
Qed.

Lemma Float32_ge_le (a b : float) :
  Float32_ge a b = true -> Float32.le b a.
Proof.
  unfold Float32_ge, SFleb, Float32.le.
  destruct (SFcompare b a) as [[| |]|]; intros H; try discriminate; auto.
Qed.

Lemma Float32_lt_not_ge (a b : float) :
  lt a b = true -> Float32_ge a b = false.
Proof.
  unfold Float32_ge, SFleb, lt, SFltb.
  destruct a as [sa|sa| |sa ma ea], b as [sb|sb| |sb mb eb];
    simpl; try congruence; intros Hab; compare_cases.
Qed.

Lemma Float32_ge_of_Z (c n : Z) :
  0 <= c < 2 ^ 64 -> 0 < n < 2 ^ 64 ->
  lt (of_Z (n - 1)) (of_Z n) = true ->
  Float32_ge (of_Z c) (of_Z n) = (n <=? c).
Proof.
  intros Hc Hn Hstrict. destruct (Z.leb_spec n c) as [Hle|Hlt].
  - apply Float32_ge_of_le. apply of_Z_mono; lia.
  - apply Float32_lt_not_ge.
    apply Float32_le_lt_trans with (b := of_Z (n - 1)); [|exact Hstrict].
    apply of_Z_mono; lia.
Qed.

End Float32GreaterEqual.

(** ** FilteringQualityAnalyzer: after a reset *)

Section FilteringQualityAnalyzerReset.
Context {K : Aec3Common}.
Import FilteringQualityAnalyzer.

Lemma blocks_since_reset_from_app_reset (before rest : list call) :
  forall n,
    blocks_since_reset_from n (before ++ CallReset :: rest)
    = blocks_since_reset_from 0 rest.
Proof.
  induction before as [|c before IH]; intros n; [reflexivity|].
  destruct c; simpl; apply IH.
Qed.

Lemma FilteringQualityAnalyzer_exceeds_mono (c c' : Z) (factor : float) :
  0 <= c <= c' -> c' < 2 ^ 64 ->
  exceeds c' factor = false -> exceeds c factor = false.
Proof.
  unfold exceeds, Float32.gt. intros Hc Hc' Hfalse.
  destruct (SFltb _ (Float32.of_Z c)) eqn:E; [|reflexivity].
  rewrite <- Hfalse. symmetry.
  apply Float32_lt_le_trans with (b := Float32.of_Z c); [exact E|].
  apply of_Z_mono; lia.
Qed.

Lemma FilteringQualityAnalyzer_unusable_since_reset
    (config : EchoCanceller3Config) (before : list call) (updates : list args) :
  Z.of_nat (length (before ++ CallReset :: map CallUpdate updates)) < 2 ^ 64 ->
  exceeds (Z.of_nat (length updates)) Float32.lit_0_2 = false ->
  LinearFilterUsable
    (run (init config) (before ++ CallReset :: map CallUpdate updates))
  = false.
Proof.
  intros Hlen Hfew.
  destruct (FilteringQualityAnalyzer_run_members config _ Hlen)
    as (_ & Hreset & _).
  unfold blocks_since_reset in Hreset.
  rewrite blocks_since_reset_from_app_reset in Hreset.
  pose proof (blocks_since_reset_from_range (map CallUpdate updates) 0
                ltac:(lia)) as Hrange.
  rewrite length_app in Hlen. cbn [length] in Hlen.
  rewrite length_map in Hlen, Hrange.
  revert Hlen Hfew Hreset Hrange.
  induction updates as [|a pre _] using rev_ind; intros Hlen Hfew Hreset Hrange.
  - cbn [map]. rewrite FilteringQualityAnalyzer_run_snoc. reflexivity.
  - revert Hreset Hrange. rewrite map_app. cbn [map].
    change (before ++ CallReset :: map CallUpdate pre ++ [CallUpdate a])
      with (before ++ (CallReset :: map CallUpdate pre) ++ [CallUpdate a]).
    rewrite app_assoc, FilteringQualityAnalyzer_run_snoc. cbn [step].
    intros Hreset Hrange. unfold LinearFilterUsable.
    destruct (usable_linear_estimate_ _) eqn:Husable; [|reflexivity].
    pose proof (FilteringQualityAnalyzer_Update_usable _ _ Husable) as Hu.
    cbv zeta in Hu. destruct Hu as (_ & _ & Hmany).
    rewrite Hreset in Hmany. rewrite <- Hmany.
    apply FilteringQualityAnalyzer_exceeds_mono
      with (c' := Z.of_nat (length (pre ++ [a]))); [lia|lia|exact Hfew].
Qed.

End FilteringQualityAnalyzerReset.

(** X10. After a [FilteringQualityAnalyzer::Reset], whatever calls came
    before it, the linear estimate is not usable after any number [n] of
    updates that does not exceed [kNumBlocksPerSecond * 0.2f]; with 250
    blocks per second, after none of the first 50 updates, even when all
    of them have active render, an external delay and a converged
    filter. *)
Theorem FilteringQualityAnalyzer_unusable_after_Reset
    {K : Aec3Common} (config : EchoCanceller3Config)
    (before : list FilteringQualityAnalyzer.call)
    (updates : list FilteringQualityAnalyzer.args) :
  let calls :=
    before ++ FilteringQualityAnalyzer.CallReset
           :: map FilteringQualityAnalyzer.CallUpdate updates in
  Z.of_nat (length calls) < 2 ^ 64 ->
  (FilteringQualityAnalyzer.exceeds (Z.of_nat (length updates)) Float32.lit_0_2
   = false ->
   FilteringQualityAnalyzer.LinearFilterUsable
     (FilteringQualityAnalyzer.run (FilteringQualityAnalyzer.init config) calls)
   = false)
  /\ ((length updates <= 50)%nat ->
      FilteringQualityAnalyzer.LinearFilterUsable
        (FilteringQualityAnalyzer.run (K := webrtc_constants)
           (FilteringQualityAnalyzer.init config) calls)
      = false).
Proof.
  intros calls Hlen. split.
  - apply FilteringQualityAnalyzer_unusable_since_reset. exact Hlen.
  - intros Hfew.
    apply FilteringQualityAnalyzer_unusable_since_reset; [exact Hlen|].
    destruct (FilteringQualityAnalyzer_exceeds_webrtc
                (Z.of_nat (length updates)) ltac:(lia)) as [_ ->].
    lia.
Qed.

(** X10, at an input: 200 good updates, a reset, 50 good updates. *)
Lemma FilteringQualityAnalyzer_unusable_after_Reset_witness :
  FilteringQualityAnalyzer.LinearFilterUsable
    (FilteringQualityAnalyzer.run (K := webrtc_constants)
       (FilteringQualityAnalyzer.init default_config)
       (quality_history 200
        ++ FilteringQualityAnalyzer.CallReset
           :: map FilteringQualityAnalyzer.CallUpdate (quality_updates 50)))
  = false.
Proof.
  refine (proj2 (FilteringQualityAnalyzer_unusable_after_Reset
                   (K := webrtc_constants) default_config
                   (quality_history 200) (quality_updates 50) _) _).
  - vm_compute. reflexivity.
  - vm_compute. lia.
Defined.

(** ** AecState: GetResidualEchoScaling *)

Section ResidualEchoScaling.
Context {K : Aec3Common}.

Lemma Float32_ge_mono (c c' : Z) (threshold : float) :
  0 <= c <= c' -> c' < 2 ^ 64 ->
  Float32_ge (Float32.of_Z c) threshold = true ->
  Float32_ge (Float32.of_Z c') threshold = true.
Proof.
  intros Hc Hc' Hge. unfold Float32_ge in *.
  assert (Hle : Float32.le (Float32.of_Z c) (Float32.of_Z c'))
    by (apply of_Z_mono; lia).
  destruct (SFleb threshold (Float32.of_Z c')) eqn:E; [reflexivity|].
  assert (Hlt : Float32.lt (Float32.of_Z c') threshold = true).
  { revert Hge E Hle. unfold SFleb, Float32.lt, SFltb, Float32.le.
    destruct (Float32.of_Z c) as [sa|sa| |sa ma ea],
             (Float32.of_Z c') as [sb|sb| |sb mb eb],
             threshold as [sc|sc| |sc mc ec]; simpl; try congruence;
      intros Hge E [Hle|Hle]; try congruence; compare_cases. }
  pose proof (Float32_le_lt_trans _ _ _ Hle Hlt) as Hlt'.
  apply Float32_lt_not_ge in Hlt'. unfold Float32_ge in Hlt'. congruence.
Qed.

Lemma filter_has_had_time_to_converge_mono (conservative : bool) (c c' : Z) :
  0 <= c <= c' -> c' < 2 ^ 64 ->
  filter_has_had_time_to_converge conservative c = true ->
  filter_has_had_time_to_converge conservative c' = true.
Proof.
  unfold filter_has_had_time_to_converge.
  destruct conservative; apply Float32_ge_mono.
Qed.

End ResidualEchoScaling.

Lemma filter_has_had_time_to_converge_webrtc (c : Z) :
  0 <= c < 2 ^ 64 ->
  filter_has_had_time_to_converge (K := webrtc_constants) true c = (375 <=? c)
  /\ filter_has_had_time_to_converge (K := webrtc_constants) false c
     = (200 <=? c).
Proof.
  intros Hc. unfold filter_has_had_time_to_converge.
  change (Float32.mul Float32_lit_1_5
            (Float32.of_Z (kNumBlocksPerSecond (Aec3Common := webrtc_constants))))
    with (Float32.of_Z 375).
  change (Float32.mul Float32_lit_0_8
            (Float32.of_Z (kNumBlocksPerSecond (Aec3Common := webrtc_constants))))
    with (Float32.of_Z 200).
  split; apply Float32_ge_of_Z; try lia; vm_compute; reflexivity.
Qed.

Section ResidualEchoScalingRuns.
Context {K : Aec3Common} {C : Collaborators}.
Import AecState.

(** X11. [GetResidualEchoScaling] hands the audibility estimator the
    caller's buffer and the flag [filter_has_had_time_to_converge], which
    is [strong_not_saturated_render_blocks_ >= 1.5f * kNumBlocksPerSecond]
    in the conservative initial phase and
    [strong_not_saturated_render_blocks_ >= 0.8f * kNumBlocksPerSecond]
    otherwise, both compared as [float]s. With 250 blocks per second the
    flag handed over is [375 <= counter], respectively [200 <= counter].
    Along any sequence of calls without a full reset, and away from the
    overflow of the counter, the flag never goes back from true to
    false. *)
Theorem AecState_GetResidualEchoScaling_flag
    (s s' : t) (calls : list call)
    (EchoAudibility_GetResidualEchoScaling :
       EchoAudibility -> bool -> list float -> list float)
    (residual_scaling : list float) :
  let flag := fun st : t =>
    if filter_conservative_initial_phase (config_ st)
    then Float32_ge (Float32.of_Z (strong_not_saturated_render_blocks_ st))
           (Float32.mul Float32_lit_1_5 (Float32.of_Z kNumBlocksPerSecond))
    else Float32_ge (Float32.of_Z (strong_not_saturated_render_blocks_ st))
           (Float32.mul Float32_lit_0_8 (Float32.of_Z kNumBlocksPerSecond)) in
  AecState_GetResidualEchoScaling EchoAudibility_GetResidualEchoScaling
    s residual_scaling
  = EchoAudibility_GetResidualEchoScaling (echo_audibility_ s) (flag s)
      residual_scaling
  /\ (0 <= strong_not_saturated_render_blocks_ s < 2 ^ 64 ->
      AecState_GetResidualEchoScaling (K := webrtc_constants)
        EchoAudibility_GetResidualEchoScaling s residual_scaling
      = EchoAudibility_GetResidualEchoScaling (echo_audibility_ s)
          (if filter_conservative_initial_phase (config_ s)
           then 375 <=? strong_not_saturated_render_blocks_ s
           else 200 <=? strong_not_saturated_render_blocks_ s)
          residual_scaling)
  /\ (run s calls = Some s' ->
      forallb (fun c => negb (is_full_reset c)) calls = true ->
      0 <= blocks_with_active_render_ s ->
      blocks_with_active_render_ s + Z.of_nat (length calls) < 2 ^ 64 ->
      0 <= strong_not_saturated_render_blocks_ s ->
      strong_not_saturated_render_blocks_ s + Z.of_nat (length calls) < 2 ^ 64 ->
      flag s = true ->
      flag s' = true
      /\ AecState_GetResidualEchoScaling EchoAudibility_GetResidualEchoScaling
           s' residual_scaling
         = EchoAudibility_GetResidualEchoScaling (echo_audibility_ s') true
             residual_scaling).
Proof.
  intros flag.
  assert (Hflag : forall st,
             filter_has_had_time_to_converge
               (filter_conservative_initial_phase (config_ st))
               (strong_not_saturated_render_blocks_ st) = flag st).
  { intros st. unfold filter_has_had_time_to_converge, flag. reflexivity. }
  split; [|split].
  - unfold AecState_GetResidualEchoScaling. rewrite Hflag. reflexivity.
  - intros Hrange. unfold AecState_GetResidualEchoScaling.
    destruct (filter_has_had_time_to_converge_webrtc _ Hrange) as [H375 H200].
    destruct (filter_conservative_initial_phase (config_ s));
      [rewrite H375|rewrite H200]; reflexivity.
  - intros Hrun Hno Hb Hbl Hs Hsl Htrue.
    assert (Hconfig : config_ s' = config_ s).
    { apply (AecState_run_invariant (fun st => config_ st = config_ s))
        with (calls := calls) (s := s); [|reflexivity|exact Hrun].
      intros s1 s2 c H1 Hstep. rewrite <- H1.
      eapply AecState_step_config. exact Hstep. }
    destruct (AecState_run_counters calls s s' Hrun Hno Hb Hbl Hs Hsl)
      as [_ Hgrow].
    assert (Htrue' : flag s' = true).
    { rewrite <- Hflag, Hconfig.
      apply (filter_has_had_time_to_converge_mono _
               (strong_not_saturated_render_blocks_ s)
               (strong_not_saturated_render_blocks_ s')); [lia|lia|].
      rewrite Hflag. exact Htrue. }
    split; [exact Htrue'|].
    unfold AecState_GetResidualEchoScaling. rewrite Hflag, Htrue'.
    reflexivity.
Qed.

End ResidualEchoScalingRuns.

Lemma sample_run_converged_gain_change :
  AecState.run (K := webrtc_constants) sample_after_converged sample_calls
  = Some sample_after_converged_gain_change.
Proof. apply default_Some. vm_compute. reflexivity. Qed.

(** X11, at an input: after 101 active blocks the flag handed over is
    false (the buffer is dropped by the sample estimator); after 400
    active blocks and two more with a gain change in between it is
    true. *)
Lemma AecState_GetResidualEchoScaling_flag_witness :
  AecState_GetResidualEchoScaling (K := webrtc_constants)
    (fun _ flag scaling => if flag then scaling else [])
    sample_after_long [Float32.one]
  = []
  /\ AecState_GetResidualEchoScaling (K := webrtc_constants)
       (fun _ flag scaling => if flag then scaling else [])
       sample_after_converged_gain_change [Float32.one]
     = [Float32.one].
Proof.
  split.
  - refine (proj1 (proj2 (AecState_GetResidualEchoScaling_flag
                            (K := webrtc_constants)
                            sample_after_long sample_after_long []
                            (fun _ flag scaling => if flag then scaling else [])
                            [Float32.one])) _).
    vm_compute. split; [discriminate|reflexivity].
  - refine (proj2 (proj2 (proj2 (AecState_GetResidualEchoScaling_flag
                            (K := webrtc_constants)
                            sample_after_converged
                            sample_after_converged_gain_change
                            sample_calls
                            (fun _ flag scaling => if flag then scaling else [])
                            [Float32.one]))
                     sample_run_converged_gain_change _ _ _ _ _ _)).
    + reflexivity.
    + vm_compute. discriminate.
    + vm_compute. reflexivity.
    + vm_compute. discriminate.
    + vm_compute. reflexivity.
    + vm_compute. reflexivity.
Defined.

(** ** AecState: the analysis of the filters of all channels *)

Section FilterAnalysis.
Context {K : Aec3Common} {C : Collaborators}.
Import AecState.

Lemma analyze_filters_spec (subtractor_output : list SubtractorOutput) :
  forall output_analyzers filter_analyzers responses render_buffer acc
         output_analyzers' filter_analyzers' acc',
    analyze_filters subtractor_output output_analyzers filter_analyzers
      responses render_buffer acc
    = Some (output_analyzers', filter_analyzers', acc') ->
    length output_analyzers = length subtractor_output ->
    length filter_analyzers = length subtractor_output ->
    length responses = length subtractor_output ->
    output_analyzers'
    = zip_with SubtractorOutputAnalyzer_Update output_analyzers
        subtractor_output
    /\ filter_analyzers'
       = zip_with (fun analyzer response =>
                     FilterAnalyzer_Update analyzer response render_buffer)
           filter_analyzers responses
    /\ any_filter_converged acc'
       = any_filter_converged acc || existsb ConvergedFilter output_analyzers'
    /\ all_filters_diverged acc'
       = all_filters_diverged acc && forallb DivergedFilter output_analyzers'
    /\ any_filter_consistent acc'
       = any_filter_consistent acc || existsb Consistent filter_analyzers'
    /\ max_echo_path_gain acc'
       = running_max (map Gain filter_analyzers') (max_echo_path_gain acc).
Proof.
  induction subtractor_output as [|output outputs IH];
    intros oas fas irs rb acc oas' fas' acc' Hrun Hoas Hfas Hirs.
  - destruct oas, fas, irs; try discriminate.
    simpl in Hrun. injection Hrun as <- <- <-. simpl.
    rewrite !orb_false_r, andb_true_r. repeat split; reflexivity.
  - destruct oas as [|oa oas], fas as [|fa fas], irs as [|ir irs];
      try discriminate.
    simpl in Hrun.
    apply bind_Some in Hrun. destruct Hrun as ([[oas1 fas1] r] & Hrec & Hrun).
    injection Hrun as <- <- <-.
    simpl in Hoas, Hfas, Hirs.
    destruct (IH _ _ _ _ _ _ _ _ Hrec ltac:(lia) ltac:(lia) ltac:(lia))
      as (Ho & Hf & Hconv & Hdiv & Hcons & Hgain).
    cbn [any_filter_converged all_filters_diverged any_filter_consistent
         max_echo_path_gain] in Hconv, Hdiv, Hcons, Hgain.
    cbn [zip_with existsb forallb map].
    rewrite Hconv, Hdiv, Hcons, Hgain, <- Ho, <- Hf.
    rewrite !orb_assoc, andb_assoc. repeat split; reflexivity.
Qed.

(** X12. What the loop over the channels in [Update] computes and where
    it goes: every output analyzer and every filter analyzer is updated
    once, each with the subtractor output and the impulse response of its
    own channel; the flags are taken over the analyzers of all channels as
    the updates leave them (some filter converged, all filters diverged,
    some filter consistent); the echo path gain is the running maximum of
    the gains from [0.f], so it is not below zero and not below the gain
    of any channel. That gain is the one [SaturationDetector::Update]
    receives, the three flags are the ones [TransparentMode::Update]
    receives, and the quality analyzer has seen convergence after the
    call exactly if it had before or some channel has converged. *)
Theorem AecState_Update_analyzes_all_channels (s s' : t) (a : update_args) :
  step s (CallUpdate a) = Some s' ->
  exists analysis aligned_render_block,
    analyze_filters (subtractor_output a) (subtractor_output_analyzers_ s)
      (filter_analyzers_ s) (adaptive_filter_impulse_response a)
      (render_buffer a) filter_analysis_init
    = Some (subtractor_output_analyzers_ s', filter_analyzers_ s', analysis)
    /\ subtractor_output_analyzers_ s'
       = zip_with SubtractorOutputAnalyzer_Update
           (subtractor_output_analyzers_ s) (subtractor_output a)
    /\ filter_analyzers_ s'
       = zip_with (fun analyzer response =>
                     FilterAnalyzer_Update analyzer response (render_buffer a))
           (filter_analyzers_ s) (adaptive_filter_impulse_response a)
    /\ any_filter_converged analysis
       = existsb ConvergedFilter (subtractor_output_analyzers_ s')
    /\ all_filters_diverged analysis
       = forallb DivergedFilter (subtractor_output_analyzers_ s')
    /\ any_filter_consistent analysis
       = existsb Consistent (filter_analyzers_ s')
    /\ max_echo_path_gain analysis
       = running_max (map Gain (filter_analyzers_ s')) Float32.zero
    /\ Float32.lt (max_echo_path_gain analysis) Float32.zero = false
    /\ (forall analyzer,
          analyzer ∈ filter_analyzers_ s' ->
          Float32.lt (max_echo_path_gain analysis) (Gain analyzer) = false)
    /\ FilteringQualityAnalyzer.convergence_seen_ (filter_quality_state_ s')
       = FilteringQualityAnalyzer.convergence_seen_ (filter_quality_state_ s)
         || existsb ConvergedFilter (subtractor_output_analyzers_ s')
    /\ Block (render_buffer a)
         (- FilterDelay.DirectPathFilterDelay (delay_state_ s')) !! 0%nat
       = Some aligned_render_block
    /\ saturation_detector_ s'
       = SaturationDetector.Update (saturation_detector_ s)
           aligned_render_block (SaturatedCapture s) (UsableLinearEstimate s)
           (subtractor_output a)
           (running_max (map Gain (filter_analyzers_ s')) Float32.zero)
    /\ transparent_state_ s'
       = TransparentMode.Update (transparent_state_ s)
           {| TransparentMode.filter_delay_blocks :=
                FilterDelay.DirectPathFilterDelay (delay_state_ s');
              TransparentMode.any_filter_consistent :=
                existsb Consistent (filter_analyzers_ s');
              TransparentMode.any_filter_converged :=
                existsb ConvergedFilter (subtractor_output_analyzers_ s');
              TransparentMode.all_filters_diverged :=
                forallb DivergedFilter (subtractor_output_analyzers_ s');
              TransparentMode.active_render :=
                is_active_render (config_ s) aligned_render_block;
              TransparentMode.saturated_capture := SaturatedCapture s |}.
Proof.
  intros Hstep.
  destruct (AecState_Update_components _ _ _ Hstep)
    as (oas & fas & an & blk & Hl1 & Hl2 & _ & Hl4 & Han & _ & Hblk & _ & _ & _
        & Hfas & Hoas & _ & _ & Hsat & _ & Htrans & Hq).
  subst oas fas.
  destruct (analyze_filters_spec _ _ _ _ _ _ _ _ _ Han
              ltac:(congruence) ltac:(congruence) ltac:(congruence))
    as (Ho & Hf & Hconv & Hdiv & Hcons & Hgain).
  cbn [filter_analysis_init any_filter_converged all_filters_diverged
       any_filter_consistent max_echo_path_gain] in Hconv, Hdiv, Hcons, Hgain.
  exists an, blk. split; [exact Han|]. split; [exact Ho|]. split; [exact Hf|].
  split; [exact Hconv|]. split; [exact Hdiv|]. split; [exact Hcons|].
  split; [exact Hgain|]. split.
  { rewrite Hgain. apply running_max_start. reflexivity. }
  split.
  { intros analyzer Hin. rewrite Hgain. apply running_max_upper; [reflexivity|].
    apply list_elem_of_In, in_map, list_elem_of_In, Hin. }
  split.
  { rewrite Hq. cbn [FilteringQualityAnalyzer.Update
                     FilteringQualityAnalyzer.convergence_seen_
                     FilteringQualityAnalyzer.any_filter_converged].
    rewrite Hconv. reflexivity. }
  split; [exact Hblk|]. split.
  { rewrite Hsat, Hgain. reflexivity. }
  rewrite Htrans, Hconv, Hdiv, Hcons. reflexivity.
Qed.

End FilterAnalysis.

(** X12, at an input: a block of silence after the sample run; the
    saturation detector is updated with the running maximum of the
    gains. *)
Lemma AecState_Update_analyzes_all_channels_witness :
  exists analysis aligned_render_block,
    AecState.max_echo_path_gain analysis
    = running_max
        (map Gain (AecState.filter_analyzers_ sample_after_silence))
        Float32.zero
    /\ Float32.lt (AecState.max_echo_path_gain analysis) Float32.zero = false
    /\ AecState.saturation_detector_ sample_after_silence
       = SaturationDetector.Update
           (AecState.saturation_detector_ sample_state_value)
           aligned_render_block
           (AecState.SaturatedCapture sample_state_value)
           (AecState.UsableLinearEstimate sample_state_value)
           (AecState.subtractor_output (sample_update 0 4 None))
           (running_max
              (map Gain (AecState.filter_analyzers_ sample_after_silence))
              Float32.zero).
Proof.
  destruct (AecState_Update_analyzes_all_channels (K := webrtc_constants)
              sample_state_value sample_after_silence
              (sample_update 0 4 None))
    as (analysis & block & _ & _ & _ & _ & _ & _ & Hgain & Hzero & _ & _ & _
        & Hsat & _).
  - apply default_Some. vm_compute. reflexivity.
  - exists analysis, block. split; [exact Hgain|]. split; [exact Hzero|].
    exact Hsat.
Defined.

(** ** AecState: after a full reset *)

Section AfterFullReset.
Context {K : Aec3Common} {C : Collaborators}.
Import AecState.

Lemma AecState_step_strong_bound (s s' : t) (c : call) :
  step s c = Some s' ->
  0 <= strong_not_saturated_render_blocks_ s < 2 ^ 64 - 1 ->
  0 <= strong_not_saturated_render_blocks_ s'
    <= strong_not_saturated_render_blocks_ s + 1.
Proof.
  intros Hstep Hs. destruct c as [a|v].
  - destruct (AecState_Update_counters _ _ _ Hstep) as (active & _ & ->).
    pose proof (b2z_range (active && negb (SaturatedCapture s))).
    rewrite size_t_add_small by lia. lia.
  - simpl in Hstep. injection Hstep as <-. unfold HandleEchoPathChange.
    destruct (is_kNone (delay_change v)); simpl; [|lia].
    destruct (gain_change v); simpl; lia.
Qed.

Lemma AecState_run_strong_bound (calls : list call) :
  forall s s',
    run s calls = Some s' ->
    0 <= strong_not_saturated_render_blocks_ s ->
    strong_not_saturated_render_blocks_ s + Z.of_nat (length calls) < 2 ^ 64 ->
    0 <= strong_not_saturated_render_blocks_ s'
      <= strong_not_saturated_render_blocks_ s + Z.of_nat (length calls).
Proof.
  induction calls as [|c calls IH]; intros s s' Hrun Hs Hlen.
  - simpl in *. injection Hrun as <-. lia.
  - simpl in Hrun. apply bind_Some in Hrun.
    destruct Hrun as (s1 & Hstep & Hrun).
    rewrite length_cons, Nat2Z.inj_succ in *.
    pose proof (AecState_step_strong_bound _ _ _ Hstep ltac:(lia)) as H1.
    pose proof (IH _ _ Hrun ltac:(lia) ltac:(lia)) as H2. lia.
Qed.

Lemma AecState_full_reset_state (s : t) (v : EchoPathVariability) :
  is_kNone (delay_change v) = false ->
  strong_not_saturated_render_blocks_ (HandleEchoPathChange s v) = 0
  /\ counters_in_sync (HandleEchoPathChange s v)
  /\ usable_is_justified (HandleEchoPathChange s v).
Proof.
  intros Hfull. unfold HandleEchoPathChange. rewrite Hfull.
  cbn [negb]. split; [reflexivity|]. split.
  - repeat split.
  - intros Husable. discriminate.
Qed.

Lemma AecState_unusable_since_full_reset
    (s s' : t) (v : EchoPathVariability) (calls : list call) :
  is_kNone (delay_change v) = false ->
  run (HandleEchoPathChange s v) calls = Some s' ->
  Z.of_nat (length calls) < 2 ^ 64 ->
  FilteringQualityAnalyzer.exceeds (Z.of_nat (length calls)) Float32.lit_0_2
  = false ->
  UsableLinearEstimate s' = false.
Proof.
  intros Hfull Hrun Hlen Hfew.
  destruct (AecState_full_reset_state s v Hfull) as (Hzero & Hsync & Hjust).
  assert (Hj : usable_is_justified s').
  { eapply AecState_run_invariant;
      [apply AecState_step_usable_is_justified|exact Hjust|exact Hrun]. }
  assert (Hc : counters_in_sync s').
  { eapply AecState_run_invariant;
      [apply AecState_step_counters_in_sync|exact Hsync|exact Hrun]. }
  pose proof (AecState_run_strong_bound calls _ _ Hrun ltac:(lia) ltac:(lia))
    as Hbound.
  rewrite Hzero in Hbound.
  destruct (UsableLinearEstimate s') eqn:Hu; [|reflexivity].
  destruct (Hj Hu) as (_ & _ & Hmany).
  destruct Hc as (_ & _ & Hq). rewrite Hq in Hmany.
  rewrite <- Hmany.
  apply FilteringQualityAnalyzer_exceeds_mono
    with (c' := Z.of_nat (length calls)); [lia|lia|exact Hfew].
Qed.

(** X13. After a full reset ([HandleEchoPathChange] with a delay change),
    whatever the state before it and whatever calls follow, further
    resets included: transparent mode is off after each of the first
    [6 * kNumBlocksPerSecond] calls that is an [Update]. *)
Theorem AecState_no_transparent_mode_after_full_reset
    (s s' : t) (v : EchoPathVariability) (calls : list call)
    (a : update_args) :
  is_kNone (delay_change v) = false ->
  run (HandleEchoPathChange s v) (calls ++ [CallUpdate a]) = Some s' ->
  Z.of_nat (length (calls ++ [CallUpdate a])) <= 6 * kNumBlocksPerSecond ->
  TransparentMode s' = false.
Proof.
  intros Hfull Hrun Hlen.
  destruct (AecState_full_reset_state s v Hfull) as (Hzero & Hsync & _).
  pose proof kNumBlocksPerSecond_range as Hk.
  rewrite length_app in Hlen. cbn [length] in Hlen.
  assert (Hsplit : exists s1,
             run (HandleEchoPathChange s v) calls = Some s1
             /\ step s1 (CallUpdate a) = Some s').
  { clear - Hrun. revert Hrun. generalize (HandleEchoPathChange s v).
    induction calls as [|c calls IH]; intros s0 Hrun.
    - simpl in Hrun. apply bind_Some in Hrun.
      destruct Hrun as (s1 & Hstep & Hrun). injection Hrun as <-.
      exists s0. split; [reflexivity|exact Hstep].
    - simpl in Hrun. apply bind_Some in Hrun.
      destruct Hrun as (s1 & Hstep & Hrun).
      destruct (IH _ Hrun) as (s2 & Hrun2 & Hlast).
      exists s2. split; [|exact Hlast].
      simpl. rewrite Hstep. exact Hrun2. }
  destruct Hsplit as (s1 & Hrun1 & Hlast).
  assert (Hc : counters_in_sync s1).
  { eapply AecState_run_invariant;
      [apply AecState_step_counters_in_sync|exact Hsync|exact Hrun1]. }
  pose proof (AecState_run_strong_bound calls _ _ Hrun1 ltac:(lia) ltac:(lia))
    as Hbound.
  rewrite Hzero in Hbound.
  destruct Hc as (_ & Ht & _).
  destruct (AecState_Update_components _ _ _ Hlast)
    as (oas & fas & an & blk & _ & _ & _ & _ & _ & _ & _ & _ & _ & _
        & _ & _ & _ & _ & _ & _ & Htrans & _).
  unfold TransparentMode, TransparentMode.Active. rewrite Htrans.
  rewrite TransparentMode_Update_decision. unfold TransparentMode.decision.
  destruct (TransparentMode.bounded_erl_ _); [reflexivity|].
  destruct (TransparentMode.finite_erl_recently_detected_ _); [reflexivity|].
  destruct (_ && _); [reflexivity|].
  unfold TransparentMode.Update.
  cbn [TransparentMode.strong_not_saturated_render_blocks_
       TransparentMode.active_render TransparentMode.saturated_capture].
  rewrite Ht.
  match goal with
  | |- context [b2z ?b] => pose proof (b2z_range b) as Hb
  end.
  rewrite size_t_add_small by lia. lia.
Qed.

End AfterFullReset.

(** X14. After a full reset ([HandleEchoPathChange] with a delay change),
    whatever the state before it and whatever calls follow, the linear
    estimate is not usable as long as the number of these calls does not
    exceed [kNumBlocksPerSecond * 0.2f]; with 250 blocks per second, not
    after any of the first 50 calls. *)
Theorem AecState_no_usable_estimate_after_full_reset
    {K : Aec3Common} {C : Collaborators}
    (s : AecState.t) (v : EchoPathVariability) (calls : list AecState.call) :
  is_kNone (delay_change v) = false ->
  Z.of_nat (length calls) < 2 ^ 64 ->
  (forall s',
     AecState.run (AecState.HandleEchoPathChange s v) calls = Some s' ->
     FilteringQualityAnalyzer.exceeds (Z.of_nat (length calls)) Float32.lit_0_2
     = false ->
     AecState.UsableLinearEstimate s' = false)
  /\ (forall s',
        AecState.run (K := webrtc_constants)
          (AecState.HandleEchoPathChange s v) calls = Some s' ->
        (length calls <= 50)%nat ->
        AecState.UsableLinearEstimate s' = false).
Proof.
  intros Hfull Hlen. split.
  - intros s' Hrun Hfew.
    eapply AecState_unusable_since_full_reset; eassumption.
  - intros s' Hrun Hfew.
    eapply (AecState_unusable_since_full_reset (K := webrtc_constants));
      [exact Hfull|exact Hrun|exact Hlen|].
    destruct (FilteringQualityAnalyzer_exceeds_webrtc
                (Z.of_nat (length calls)) ltac:(lia)) as [_ ->].
    lia.
Qed.

Lemma sample_run_recovery :
  AecState.run (K := webrtc_constants)
    (AecState.HandleEchoPathChange sample_after_converged delay_changed)
    sample_short_calls
  = Some sample_after_recovery.
Proof. apply default_Some. vm_compute. reflexivity. Qed.

(** X14, at an input: 400 active blocks, a full reset, 50 active
    blocks. *)
Lemma AecState_no_usable_estimate_after_full_reset_witness :
  AecState.UsableLinearEstimate sample_after_recovery = false.
Proof.
  refine (proj2 (AecState_no_usable_estimate_after_full_reset
                   (K := webrtc_constants)
                   sample_after_converged delay_changed sample_short_calls
                   _ _) sample_after_recovery sample_run_recovery _).
  - reflexivity.
  - vm_compute. reflexivity.
  - vm_compute. lia.
Defined.

(** X13, at an input: the same run, which ends with an [Update]. *)
Lemma AecState_no_transparent_mode_after_full_reset_witness :
  AecState.TransparentMode sample_after_recovery = false.
Proof.
  refine (AecState_no_transparent_mode_after_full_reset
            (K := webrtc_constants)
            sample_after_converged sample_after_recovery delay_changed
            (replicate 49 (AecState.CallUpdate
                             (sample_update 1000 4 (Some sample_delay))))
            (sample_update 1000 4 (Some sample_delay)) _ _ _).
  - reflexivity.
  - change (replicate 49 (AecState.CallUpdate
                            (sample_update 1000 4 (Some sample_delay)))
            ++ [AecState.CallUpdate (sample_update 1000 4 (Some sample_delay))])
      with sample_short_calls.
    exact sample_run_recovery.
  - vm_compute. discriminate.
Defined.

(** ** TransparentMode: when no filter converges *)

Section TransparentModeActivation.
Context {K : Aec3Common}.
Import TransparentMode.

Lemma TransparentMode_run_never_converged (calls : list args) :
  forall s,
    Forall (fun a => any_filter_converged a = false) calls ->
    finite_erl_recently_detected_ s = false ->
    recent_convergence_during_activity_ s = false ->
    num_converged_blocks_ s = 0 ->
    finite_erl_recently_detected_ (run s calls) = false
    /\ recent_convergence_during_activity_ (run s calls) = false
    /\ num_converged_blocks_ (run s calls) = 0.
Proof.
  unfold run. induction calls as [|a calls IH]; intros s Hall Hf Hr Hn.
  - simpl. auto.
  - apply Forall_cons in Hall. destruct Hall as [Ha Hall].
    cbn [fold_left]. apply IH; [exact Hall| | |].
    + unfold Update. cbn [finite_erl_recently_detected_].
      rewrite Ha, Hn, Hf.
      destruct (_ >? size_t_mul 20 _); destruct (_ >? size_t_mul 60 _);
        reflexivity.
    + unfold Update. cbn [recent_convergence_during_activity_].
      rewrite Ha, Hr. destruct (_ && _); reflexivity.
    + unfold Update. cbn [num_converged_blocks_].
      rewrite Ha, Hn. destruct (_ >? _); reflexivity.
Qed.

(** X15. With an ERL that is not bounded, and as long as no filter has
    converged in any update since the constructor, transparent mode is on
    after an update exactly if more than [6 * kNumBlocksPerSecond] of the
    updates came with active render and without saturated capture. *)
Theorem TransparentMode_activates_without_convergence
    (config : EchoCanceller3Config) (calls : list args) (a : args) :
  ep_strength_bounded_erl config = false ->
  Forall (fun a => any_filter_converged a = false) (calls ++ [a]) ->
  Z.of_nat (length (calls ++ [a])) < 2 ^ 64 ->
  transparency_activated_ (run (init config) (calls ++ [a]))
  = (6 * kNumBlocksPerSecond <? count_strong_updates (calls ++ [a])).
Proof.
  intros Hunbounded Hall Hlen.
  destruct (TransparentMode_run_never_converged (calls ++ [a]) (init config)
              Hall eq_refl eq_refl eq_refl) as (Hf & Hr & _).
  pose proof (TransparentMode_run_strong_blocks (calls ++ [a]) (init config)
                ltac:(simpl; lia) ltac:(simpl; lia)) as Hcount.
  pose proof (TransparentMode_run_bounded_erl (calls ++ [a]) (init config))
    as Hb.
  cbn [init bounded_erl_ strong_not_saturated_render_blocks_] in Hb, Hcount.
  revert Hf Hr Hb Hcount. rewrite TransparentMode_run_snoc.
  intros Hf Hr Hb Hcount.
  rewrite TransparentMode_Update_decision. unfold decision.
  rewrite Hb, Hunbounded, Hf, Hr, andb_false_r, Hcount.
  rewrite Z.add_0_l. apply Z.gtb_ltb.
Qed.

End TransparentModeActivation.

(** X15, at an input: 1501 active blocks without convergence. *)
Lemma TransparentMode_activates_without_convergence_witness :
  TransparentMode.transparency_activated_
    (TransparentMode.run (K := webrtc_constants)
       (TransparentMode.init default_config)
       (replicate 1500 unconverged_active_block ++ [unconverged_active_block]))
  = (6 * kNumBlocksPerSecond (Aec3Common := webrtc_constants)
     <? count_strong_updates
          (replicate 1500 unconverged_active_block
           ++ [unconverged_active_block])).
Proof.
  apply (TransparentMode_activates_without_convergence (K := webrtc_constants)
           default_config (replicate 1500 unconverged_active_block)
           unconverged_active_block).
  - reflexivity.
  - apply Forall_app. split.
    + apply Forall_forall. intros a Ha.
      apply elem_of_replicate in Ha. destruct Ha as [-> _]. reflexivity.
    + repeat constructor.
  - rewrite length_app, length_replicate. simpl. lia.
Defined.
